(** * mindSetValue: the lexicon-driven sentiment analyzers of [src/analyzer.js]

    A shallow embedding of the two scoring classes of the repository,
    [SentimentAnalyzer] (lexical scorer) and [ContextualAnalyzer]
    (structural analyzer), followed by the properties of the specification
    that are proved about them.

    Conventions of the embedding.
    - JavaScript numbers are exact rationals ([Q]); comparisons are the
      boolean tests the source performs; results that the source compares
      up to a formula are stated with [==].
    - JavaScript strings are sequences of UTF-16 code units.
    - Lexicon tables (plain objects read with [table[key] !== undefined])
      are finite maps over their own keys; objects that the source
      enumerates with [Object.entries] are association lists in insertion
      order.  Window sizes, radii and segment sizes of the configuration
      are natural numbers.
    - A read [table[key]] also finds the members inherited from
      [Object.prototype]; the lexical analysis is given a second time in
      [Chain] with these reads, and is shown to agree with the own-key
      definitions on every run that reads no inherited member.
    - A method call on [undefined] raises; code that can reach such a call
      lives in the [Exc] monad.
    - Built-ins of the host whose definition is not part of the repository
      (case folding, the Unicode emoji class, regular-expression matching
      of a configured marker, the square root) are fields of [Platform]. *)

From Stdlib Require Import QArith Qround Qabs Qminmax Lia Lqa ZArith NArith List.
From Stdlib Require Import Ascii String DecimalString.
From stdpp Require Import base option list gmap.

Abbreviation jsstring := (list N).

(** ** Numbers *)

Module Num.
Local Open Scope Q_scope.

Definition ltb (x y : Q) : bool := negb (Qle_bool y x).
Definition leb (x y : Q) : bool := Qle_bool x y.
Definition eqb (x y : Q) : bool := Qeq_bool x y.

Definition ofNat (n : nat) : Q := inject_Z (Z.of_nat n).

(** [Math.floor] on a non-negative count scaled by a rational. *)
Definition floorNat (x : Q) : nat := Z.to_nat (Qfloor x).

(** [Number.prototype.toFixed(2)] picks the integer [n] for which
    [n / 100] is closest to the magnitude of the number, the larger one
    on a tie, and keeps the sign; [parseFloat] reads the digits back. *)
Definition toFixedUnits (digits : Z) (x : Q) : Z :=
  Qfloor (x * inject_Z (10 ^ digits) + (1 # 2)).

Definition round2 (x : Q) : Q :=
  if ltb x 0 then - (toFixedUnits 2 (- x) # 100)
  else toFixedUnits 2 x # 100.

(** [x || d] on a number: zero is falsy. *)
Definition orElse (x d : Q) : Q := if eqb x 0 then d else x.


End Num.

Declare Scope js_scope.
Delimit Scope js_scope with js.
Infix "<?" := Num.ltb (at level 70) : js_scope.
Infix "<=?" := Num.leb (at level 70) : js_scope.
Infix "=?" := Num.eqb (at level 70) : js_scope.
Notation "x >? y" := (Num.ltb y x) (at level 70) : js_scope.
Notation "x >=? y" := (Num.leb y x) (at level 70) : js_scope.

(** ** Strings *)

Module Str.

(** Source literals: the UTF-8 bytes of a literal of this file, decoded
    to UTF-16 code units (with a surrogate pair above the BMP). *)
Fixpoint decode (bs : list N) : jsstring :=
  match bs with
  | [] => []
  | b :: r =>
    if (b <? 128)%N then b :: decode r
    else if (b <? 224)%N then
      match r with
      | c1 :: r' => ((b mod 32) * 64 + c1 mod 64)%N :: decode r'
      | _ => []
      end
    else if (b <? 240)%N then
      match r with
      | c1 :: c2 :: r' =>
        ((b mod 16) * 4096 + (c1 mod 64) * 64 + c2 mod 64)%N :: decode r'
      | _ => []
      end
    else
      match r with
      | c1 :: c2 :: c3 :: r' =>
        let cp := ((b mod 8) * 262144 + (c1 mod 64) * 4096
                   + (c2 mod 64) * 64 + c3 mod 64)%N in
        let v := (cp - 65536)%N in
        (55296 + v / 1024)%N :: (56320 + v mod 1024)%N :: decode r'
      | _ => []
      end
  end.

Definition lit (s : string) : jsstring :=
  decode (map (fun b => Byte.to_N b) (list_byte_of_string s)).

Definition eqb (s t : jsstring) : bool := bool_decide (s = t).

(** [Array.prototype.includes] on an array of strings. *)
Definition includes (l : list jsstring) (s : jsstring) : bool :=
  existsb (eqb s) l.

(** WhiteSpace and LineTerminator code units, as used by [trim] and [\s]. *)
Definition isWhiteSpace (c : N) : bool :=
  ((9 <=? c) && (c <=? 13) || (c =? 32) || (c =? 160) || (c =? 5760)
   || (8192 <=? c) && (c <=? 8202) || (c =? 8232) || (c =? 8233)
   || (c =? 8239) || (c =? 8287) || (c =? 12288) || (c =? 65279))%N.

Fixpoint trimStart (s : jsstring) : jsstring :=
  match s with
  | c :: s' => if isWhiteSpace c then trimStart s' else s
  | [] => []
  end.

Definition trim (s : jsstring) : jsstring :=
  rev (trimStart (rev (trimStart s))).

Fixpoint startsWith (s p : jsstring) : bool :=
  match p, s with
  | [], _ => true
  | c :: p', d :: s' => (c =? d)%N && startsWith s' p'
  | _ :: _, [] => false
  end.

(** [String.prototype.includes]: substring test. *)
Fixpoint contains (s p : jsstring) : bool :=
  startsWith s p ||
  match s with
  | [] => false
  | _ :: s' => contains s' p
  end.

(** [String.prototype.split] on a string separator.  [skip] counts the
    code units of a separator occurrence still to be dropped. *)
Fixpoint splitFrom (sep : jsstring) (skip : nat) (cur s : jsstring)
  : list jsstring :=
  match s with
  | [] => [rev cur]
  | c :: s' =>
    match skip with
    | S k => splitFrom sep k cur s'
    | O =>
      if startsWith s sep
      then rev cur :: splitFrom sep (length sep - 1) [] s'
      else splitFrom sep 0 (c :: cur) s'
    end
  end.

Definition split (s sep : jsstring) : list jsstring :=
  match sep with
  | [] => map (fun c => [c]) s
  | _ => splitFrom sep 0 [] s
  end.

Definition space : jsstring := [32%N].

Definition words (s : jsstring) : list jsstring := split s space.

(** [Array.prototype.join]. *)
Fixpoint join (sep : jsstring) (l : list jsstring) : jsstring :=
  match l with
  | [] => []
  | [s] => s
  | s :: l' => s ++ sep ++ join sep l'
  end.

(** [replace(/[.,!?;:(){}\[\]\/\\]/g, " ")]. *)
Definition isPunctuation (c : N) : bool :=
  existsb (N.eqb c) [46; 44; 33; 63; 59; 58; 40; 41; 123; 125; 91; 93; 47; 92]%N.

Definition replacePunctuation (s : jsstring) : jsstring :=
  map (fun c => if isPunctuation c then 32%N else c) s.

(** [replace(/\s+/g, " ")]: every maximal run of white space becomes one
    space. *)
Fixpoint collapseFrom (inRun : bool) (s : jsstring) : jsstring :=
  match s with
  | [] => []
  | c :: s' =>
    if isWhiteSpace c
    then (if inRun then collapseFrom true s' else 32%N :: collapseFrom true s')
    else c :: collapseFrom false s'
  end.

Definition collapseWhiteSpace (s : jsstring) : jsstring := collapseFrom false s.

(** [split(/[.!?]+/)]: the separator is a maximal run of terminators. *)
Definition isTerminator (c : N) : bool :=
  ((c =? 46) || (c =? 33) || (c =? 63))%N.

Fixpoint splitRuns (inRun : bool) (cur s : jsstring) : list jsstring :=
  match s with
  | [] => [rev cur]
  | c :: s' =>
    if isTerminator c
    then (if inRun then splitRuns true [] s'
          else rev cur :: splitRuns true [] s')
    else splitRuns false (c :: cur) s'
  end.

Definition splitOnTerminators (s : jsstring) : list jsstring :=
  splitRuns false [] s.

(** Decimal digits of a natural number, as code units. *)
Definition ofN (n : N) : jsstring :=
  lit (NilZero.string_of_uint (N.to_uint n)).

End Str.

(** ** The host and the error monad *)

Record Platform := {
  (** [String.prototype.toLowerCase] *)
  toLowerCase : jsstring -> jsstring;
  (** [text.match(/[\p{Emoji}]/gu) || []] *)
  matchEmoji : jsstring -> list jsstring;
  (** [Math.sqrt] *)
  sqrt : Q -> Q;
  (** number of matches of [new RegExp(`\\b${word}\\b`, "g")] in a text *)
  countMatches : jsstring -> jsstring -> nat
}.

Inductive JsError := TypeError.

Inductive Exc (A : Type) : Type :=
| Ok (a : A)
| Throw (e : JsError).
Arguments Ok {A} a.
Arguments Throw {A} e.

#[global] Instance Exc_ret : MRet Exc := fun A a => Ok a.
#[global] Instance Exc_bind : MBind Exc := fun A B f m =>
  match m with
  | Ok a => f a
  | Throw e => Throw e
  end.

(** [b && m] and [m1 || m2] with JavaScript's short-circuit evaluation. *)
Definition andM (b : bool) (m : Exc bool) : Exc bool :=
  if b then m else Ok false.
Definition orM (m1 m2 : Exc bool) : Exc bool :=
  b ← m1; if b : bool then Ok true else m2.

(** [s.startsWith(p)] where [s] was read from an array. *)
Definition startsWithM (o : option jsstring) (p : jsstring) : Exc bool :=
  match o with
  | Some s => Ok (Str.startsWith s p)
  | None => Throw TypeError
  end.

(** Values a caller can pass where a text is expected. *)
Inductive JsValue :=
| JUndefined
| JNull
| JBoolean (b : bool)
| JNumber (x : Q)
| JString (s : jsstring)
| JObject.

Definition truthy (v : JsValue) : bool :=
  match v with
  | JUndefined | JNull => false
  | JBoolean b => b
  | JNumber x => negb (Num.eqb x 0)
  | JString s => negb (Nat.eqb (length s) 0)
  | JObject => true
  end.

Definition isString (v : JsValue) : bool :=
  match v with JString _ => true | _ => false end.

(** ** Analysis artifacts *)

Inductive Sentiment :=
| TresPositif | Positif | PlutotPositif | LegerementPositif | Neutre
| LegerementNegatif | PlutotNegatif | Negatif | TresNegatif.

Module WordEvidence.
Record t := {
  word : jsstring;
  originalScore : Q;
  modifiedScore : Q;
  contextScore : Q;
  negated : bool
}.
End WordEvidence.

Inductive NegationScope := Starts | Ends.

Inductive ModifierEvidence :=
| PrefixModifier (phrase target : jsstring) (modification : Q)
| NegationMarker (phrase : option jsstring) (scope : NegationScope).

Module IdiomEvidence.
Record t := {
  phrase : jsstring;
  score : Q;
  position : option (nat * nat)
}.
End IdiomEvidence.

Module EmojiEvidence.
Record t := { emoji : jsstring; score : Q }.
End EmojiEvidence.

Module Details.
Record t := {
  words : list WordEvidence.t;
  modifiers : list ModifierEvidence;
  idioms : list IdiomEvidence.t;
  emojis : list EmojiEvidence.t
}.
Definition empty : t :=
  {| words := []; modifiers := []; idioms := []; emojis := [] |}.
End Details.

Module BaseResult.
Record t := {
  score : Q;
  sentiment : Sentiment;
  confidence : Q;
  details : Details.t
}.
End BaseResult.

(** ** The dictionary document *)

Module Dictionary.

Record Compounds := {
  modifierPrefixes : option (gmap jsstring Q);
  idioms : option (list (jsstring * Q));
  idiomPatterns : option (gmap jsstring (list jsstring));
  negationWords : option (list jsstring)
}.

Record Weights := {
  progression : Q;
  conclusion : Q;
  intensity : Q;
  transitions : Q;
  baseline : Q
}.

Record PositionWeights := { beginning : Q; middle : Q; end_ : Q }.

Record Marker := { word : jsstring; weight : Q }.

Record NarrativePatterns := {
  redemption : Q;
  downfall : Q;
  consistency : Q;
  mixed : Q
}.

Record Config := {
  negationWindow : option nat;
  contextWindow : option nat;
  idiomDetectionRadius : option nat;
  analysisWeights : option Weights;
  segmentCount : option nat;
  minSegmentSize : option nat;
  positionWeights : option PositionWeights;
  transitionMarkers : option (list Marker);
  narrativePatterns : option NarrativePatterns
}.

Record t := {
  positiveWords : option (gmap jsstring Q);
  neutralWords : option (gmap jsstring Q);
  negativeWords : option (gmap jsstring Q);
  compounds : option Compounds;
  emojiSentiments : option (gmap jsstring Q);
  config : option Config
}.

(** [count || d]: a missing or zero count takes the default. *)
Definition countOr (o : option nat) (d : nat) : nat :=
  match o with
  | Some (S n) => S n
  | _ => d
  end.

End Dictionary.

(** ** SentimentAnalyzer: the lexical scorer *)

Module SentimentAnalyzer.
Import Dictionary.
Local Open Scope Q_scope.
Local Open Scope js_scope.

Record AnalyzerConfig := {
  negationWindow : nat;
  contextWindow : nat;
  idiomDetectionRadius : nat
}.

Record t := {
  positiveWords : gmap jsstring Q;
  neutralWords : gmap jsstring Q;
  negativeWords : gmap jsstring Q;
  modifierPrefixes : gmap jsstring Q;
  idioms : list (jsstring * Q);
  idiomPatterns : gmap jsstring (list jsstring);
  negationWords : list jsstring;
  emojiSentiments : gmap jsstring Q;
  config : AnalyzerConfig
}.

Definition constructor (dictionary : Dictionary.t) : t :=
  let compounds := Dictionary.compounds dictionary in
  let config := Dictionary.config dictionary in
  {| positiveWords := default ∅ (Dictionary.positiveWords dictionary);
     neutralWords := default ∅ (Dictionary.neutralWords dictionary);
     negativeWords := default ∅ (Dictionary.negativeWords dictionary);
     modifierPrefixes := default ∅ (compounds ≫= Dictionary.modifierPrefixes);
     idioms := default [] (compounds ≫= Dictionary.idioms);
     idiomPatterns := default ∅ (compounds ≫= Dictionary.idiomPatterns);
     negationWords := default [] (compounds ≫= Dictionary.negationWords);
     emojiSentiments := default ∅ (Dictionary.emojiSentiments dictionary);
     config :=
       {| negationWindow := countOr (config ≫= Dictionary.negationWindow) 5;
          contextWindow := countOr (config ≫= Dictionary.contextWindow) 3;
          idiomDetectionRadius :=
            countOr (config ≫= Dictionary.idiomDetectionRadius) 5 |} |}.

Definition neutralResult : BaseResult.t :=
  {| BaseResult.score := 0.5;
     BaseResult.sentiment := Neutre;
     BaseResult.confidence := 0;
     BaseResult.details := Details.empty |}.

Definition _getSentimentFromScore (score : Q) : Sentiment :=
  if score >=? 0.85 then TresPositif
  else if score >=? 0.7 then Positif
  else if score >=? 0.6 then PlutotPositif
  else if score >=? 0.55 then LegerementPositif
  else if (score >=? 0.45) && (score <? 0.55) then Neutre
  else if score >=? 0.4 then LegerementNegatif
  else if score >=? 0.3 then PlutotNegatif
  else if score >=? 0.15 then Negatif
  else TresNegatif.

(** The running totals of [analyze] and the negation state of its loop. *)
Record Acc := {
  negationActive : bool;
  negationDistance : nat;
  totalScore : Q;
  wordCount : nat;
  confidence : Q;
  details : Details.t
}.

Definition initial : Acc :=
  {| negationActive := false; negationDistance := 0;
     totalScore := 0; wordCount := 0; confidence := 0;
     details := Details.empty |}.

Definition setNegation (active : bool) (distance : nat) (st : Acc) : Acc :=
  {| negationActive := active; negationDistance := distance;
     totalScore := totalScore st; wordCount := wordCount st;
     confidence := confidence st; details := details st |}.

Definition setDetails (d : Details.t) (st : Acc) : Acc :=
  {| negationActive := negationActive st;
     negationDistance := negationDistance st;
     totalScore := totalScore st; wordCount := wordCount st;
     confidence := confidence st; details := d |}.

(** [totalScore += score; wordCount += 1; confidence += weight]. *)
Definition count (score weight : Q) (st : Acc) : Acc :=
  {| negationActive := negationActive st;
     negationDistance := negationDistance st;
     totalScore := totalScore st + score;
     wordCount := S (wordCount st);
     confidence := confidence st + weight;
     details := details st |}.

Definition pushModifiers (ms : list ModifierEvidence) (st : Acc) : Acc :=
  let d := details st in
  setDetails {| Details.words := Details.words d;
                Details.modifiers := Details.modifiers d ++ ms;
                Details.idioms := Details.idioms d;
                Details.emojis := Details.emojis d |} st.

Definition pushWord (w : WordEvidence.t) (st : Acc) : Acc :=
  let d := details st in
  setDetails {| Details.words := Details.words d ++ [w];
                Details.modifiers := Details.modifiers d;
                Details.idioms := Details.idioms d;
                Details.emojis := Details.emojis d |} st.

Definition pushIdiom (i : IdiomEvidence.t) (st : Acc) : Acc :=
  let d := details st in
  setDetails {| Details.words := Details.words d;
                Details.modifiers := Details.modifiers d;
                Details.idioms := Details.idioms d ++ [i];
                Details.emojis := Details.emojis d |} st.

Definition pushEmoji (e : EmojiEvidence.t) (st : Acc) : Acc :=
  let d := details st in
  setDetails {| Details.words := Details.words d;
                Details.modifiers := Details.modifiers d;
                Details.idioms := Details.idioms d;
                Details.emojis := Details.emojis d ++ [e] |} st.

Definition etre : jsstring := Str.lit "être".
Definition avoir : jsstring := Str.lit "avoir".
Definition se : jsstring := Str.lit "se".
Definition faire : jsstring := Str.lit "faire".
Definition se_faire : jsstring := Str.lit "se faire".
Definition pronouns : jsstring := Str.lit "pronouns".
Definition fai : jsstring := Str.lit "fai".

(** The test [w === "être" || w === "avoir" || w === "se" || w === "faire"]. *)
Definition commonVerb (w : jsstring) : bool :=
  Str.eqb w etre || Str.eqb w avoir || Str.eqb w se || Str.eqb w faire.

(** [if (!idiomKeywords[keyword]) idiomKeywords[keyword] = [];
     idiomKeywords[keyword].push(info)] *)
Fixpoint addKeyword (keyword : jsstring) (info : jsstring * Q)
    (tbl : list (jsstring * list (jsstring * Q)))
  : list (jsstring * list (jsstring * Q)) :=
  match tbl with
  | [] => [(keyword, [info])]
  | (k, infos) :: tbl' =>
    if Str.eqb k keyword then (k, infos ++ [info]) :: tbl'
    else (k, infos) :: addKeyword keyword info tbl'
  end.

Definition indexIdiom (tbl : list (jsstring * list (jsstring * Q)))
    (entry : jsstring * Q) : list (jsstring * list (jsstring * Q)) :=
  let idiom := fst entry in
  let idiomWords := Str.words idiom in
  if (2 <=? length idiomWords)%nat && commonVerb (nth 0 idiomWords [])
  then
    let keyword := Str.join Str.space (drop 1 idiomWords) in
    if (2 <? length keyword)%nat then addKeyword keyword entry tbl else tbl
  else addKeyword idiom entry tbl.

Definition matchesKeyword (words : list jsstring) (i : nat)
    (keywordWords : list jsstring) : bool :=
  forallb (fun jw : nat * jsstring =>
             if (i + fst jw <? length words)%nat
             then Str.eqb (nth (i + fst jw) words []) (snd jw)
             else true)
          (imap pair keywordWords).

Section WithAnalyzer.
Context (P : Platform) (a : t).

(** [this.idiomPatterns[key] && this.idiomPatterns[key].includes(w)] *)
Definition patternIncludes (key : jsstring) (w : option jsstring) : bool :=
  match idiomPatterns a !! key, w with
  | Some forms, Some w => Str.includes forms w
  | _, _ => false
  end.

Definition hasPattern (key : jsstring) : bool :=
  bool_decide (is_Some (idiomPatterns a !! key)).

(** One iteration of the backward scan of [_detectIdioms], for the
    candidate at index [k]: [true] when the loop breaks with [verbFound]. *)
Definition candidateFound (words : list jsstring) (i : nat)
    (firstWord : jsstring) (k : nat) : Exc bool :=
  let candidateWord := words !! k in
  found ←
    (if Str.eqb firstWord etre && hasPattern etre
     then Ok (patternIncludes etre candidateWord)
     else if Str.eqb firstWord avoir && hasPattern avoir
     then Ok (patternIncludes avoir candidateWord)
     else if Str.eqb firstWord se && hasPattern se_faire
     then
       if patternIncludes se_faire candidateWord then Ok true
       else if patternIncludes pronouns candidateWord
       then andM (k + 1 <? i)%nat (startsWithM (words !! (k + 1)%nat) fai)
       else Ok false
     else andM (Str.eqb firstWord faire) (startsWithM candidateWord fai));
  if found : bool then Ok true
  else if patternIncludes pronouns candidateWord
  then
    if (k + 1 <? i)%nat
    then
      let nextWord := words !! (k + 1)%nat in
      orM (andM (Str.eqb firstWord etre)
                (startsWithM nextWord (Str.lit "s")))
          (orM (andM (Str.eqb firstWord avoir)
                     (startsWithM nextWord (Str.lit "a")))
               (andM (Str.eqb firstWord faire)
                     (startsWithM nextWord fai)))
    else Ok false
  else Ok false.

Fixpoint scanVerb (words : list jsstring) (i : nat) (firstWord : jsstring)
    (ks : list nat) : Exc bool :=
  match ks with
  | [] => Ok false
  | k :: ks' =>
    found ← candidateFound words i firstWord k;
    if found : bool then Ok true else scanVerb words i firstWord ks'
  end.

Definition registerIdiom (words : list jsstring) (i : nat)
    (keywordWords : list jsstring) (info : jsstring * Q)
  : Exc (list IdiomEvidence.t) :=
  let fullIdiom := fst info in
  let firstWord := nth 0 (Str.words fullIdiom) [] in
  let found :=
    {| IdiomEvidence.phrase := fullIdiom;
       IdiomEvidence.score := snd info;
       IdiomEvidence.position :=
         Some (i, (i + length keywordWords - 1)%nat) |} in
  if commonVerb firstWord
  then
    let start := Nat.max 0 (i - idiomDetectionRadius (config a)) in
    verbFound ← scanVerb words i firstWord (seq start (i - start));
    Ok (if verbFound : bool then [found] else [])
  else Ok [found].

Definition _detectIdioms (text : jsstring) : Exc (list IdiomEvidence.t) :=
  let words := Str.words text in
  let idiomKeywords := fold_left indexIdiom (idioms a) [] in
  perPosition ←
    mapM (fun i : nat =>
            perKeyword ←
              mapM (fun entry : jsstring * list (jsstring * Q) =>
                      let keywordWords := Str.words (fst entry) in
                      if matchesKeyword words i keywordWords
                      then
                        found ← mapM (registerIdiom words i keywordWords)
                                     (snd entry);
                        Ok (concat found)
                      else Ok [])
                   idiomKeywords;
            Ok (concat perKeyword))
         (seq 0 (length words));
  Ok (concat perPosition).

(** The idiom scan of [analyze] when no pattern data is configured. *)
Definition simpleIdioms (normalizedText : jsstring) : list IdiomEvidence.t :=
  omap (fun entry : jsstring * Q =>
          if Str.contains normalizedText (fst entry)
          then Some {| IdiomEvidence.phrase := fst entry;
                       IdiomEvidence.score := snd entry;
                       IdiomEvidence.position := None |}
          else None)
       (idioms a).

(** [positiveWords[w]], else [negativeWords[w]], else [neutralWords[w]]. *)
Definition wordScoreOf (w : jsstring) : option Q :=
  match positiveWords a !! w with
  | Some s => Some s
  | None =>
    match negativeWords a !! w with
    | Some s => Some s
    | None => neutralWords a !! w
    end
  end.

Definition _getContextWords (words : list jsstring) (position windowSize : nat)
  : list jsstring :=
  let start := Nat.max 0 (position - windowSize) in
  let end_ := Nat.min (length words) (position + windowSize + 1) in
  map snd
    (List.filter (fun iw : nat * jsstring =>
                    negb (start + fst iw =? position)%nat)
                 (imap pair (take (end_ - start) (drop start words)))).

Definition _analyzeWordContext (contextWords : list jsstring)
    (centralWord : jsstring) (centralScore : Q) : Q :=
  if (length contextWords =? 0)%nat then centralScore
  else
    let acc :=
      fold_left (fun (acc : Q * nat) (w : jsstring) =>
                   match wordScoreOf w with
                   | Some wordScore =>
                     (fst acc + (wordScore - 0.5) * 0.2, S (snd acc))
                   | None => acc
                   end)
                contextWords (0, 0%nat) in
    let contextualModifier := fst acc in
    let relevantContextCount := snd acc in
    if (relevantContextCount =? 0)%nat then centralScore
    else if (contextualModifier >? 0) && (centralScore >? 0.5)
    then Qmin 1 (centralScore + contextualModifier * 0.5)
    else if (contextualModifier <? 0) && (centralScore <? 0.5)
    then Qmax 0 (centralScore + contextualModifier * 0.5)
    else if (contextualModifier >? 0) && (centralScore <? 0.5)
    then Qmin 0.5 (centralScore + contextualModifier * 0.3)
    else if (contextualModifier <? 0) && (centralScore >? 0.5)
    then Qmax 0.5 (centralScore + contextualModifier * 0.3)
    else centralScore.

(** The prefix-modifier lookup of [analyze]: the factor in force and the
    evidence pushed, for the token at index [i]. *)
Definition prefixModifier (words : list jsstring) (i : nat) (word : jsstring)
  : Q * list ModifierEvidence :=
  if (0 <? i)%nat then
    let previousWord := nth (i - 1) words [] in
    let one :=
      match modifierPrefixes a !! previousWord with
      | Some m => (m, [PrefixModifier previousWord word m])
      | None => (1, [])
      end in
    if (1 <? i)%nat then
      let twoWordModifier :=
        nth (i - 2) words [] ++ Str.space ++ previousWord in
      match modifierPrefixes a !! twoWordModifier with
      | Some m => (m, snd one ++ [PrefixModifier twoWordModifier word m])
      | None => one
      end
    else one
  else (1, []).

(** [score = 0.5 + (0.5 - score) * (1 - negationDistance / negationWindow)] *)
Definition applyNegation (negationDistance : nat) (score : Q) : Q :=
  let negationPower :=
    1 - Num.ofNat negationDistance / Num.ofNat (negationWindow (config a)) in
  0.5 + (0.5 - score) * negationPower.

Definition applyModifier (modifier score : Q) : Q :=
  if modifier <? 0 then
    let score := 1 - score in
    if score =? 0.5 then 0.4 else score
  else if negb (modifier =? 1) then
    if score >? 0.5 then Qmin 1 (0.5 + (score - 0.5) * modifier)
    else if score <? 0.5 then Qmax 0 (0.5 - (0.5 - score) * modifier)
    else score
  else score.

(** The negation bookkeeping that precedes the scoring of a token that is
    not itself a negation word. *)
Definition advanceNegation (words : list jsstring) (i : nat) (st : Acc) : Acc :=
  if negationActive st then
    let distance := S (negationDistance st) in
    let window := negationWindow (config a) in
    if (window <? distance)%nat
    then pushModifiers
           [NegationMarker
              (if (window <=? i)%nat then words !! (i - window)%nat else None)
              Ends]
           (setNegation false distance st)
    else setNegation true distance st
  else st.

(** The body of the token loop of [analyze]. *)
Definition scoreToken (words : list jsstring) (st : Acc) (i : nat) : Acc :=
  let word := nth i words [] in
  if Str.includes (negationWords a) word
  then pushModifiers [NegationMarker (Some word) Starts]
                     (setNegation true 0 st)
  else
    let st := advanceNegation words i st in
    match wordScoreOf word with
    | None => st
    | Some wordScore =>
      let pm := prefixModifier words i word in
      let modifier := fst pm in
      let st := pushModifiers (snd pm) st in
      let score :=
        if negationActive st
        then applyNegation (negationDistance st) wordScore
        else wordScore in
      let score := applyModifier modifier score in
      let contextWords :=
        _getContextWords words i (contextWindow (config a)) in
      let contextScore := _analyzeWordContext contextWords word score in
      count contextScore 0.5
        (pushWord {| WordEvidence.word := word;
                     WordEvidence.originalScore := wordScore;
                     WordEvidence.modifiedScore := score;
                     WordEvidence.contextScore := contextScore;
                     WordEvidence.negated := negationActive st |} st)
    end.

Definition countIdiom (st : Acc) (idiom : IdiomEvidence.t) : Acc :=
  count (IdiomEvidence.score idiom) 0.8 (pushIdiom idiom st).

Definition countEmoji (st : Acc) (emoji : jsstring) : Acc :=
  match emojiSentiments a !! emoji with
  | Some score =>
    count score 0.7
      (pushEmoji {| EmojiEvidence.emoji := emoji;
                    EmojiEvidence.score := score |} st)
  | None => st
  end.

Definition normalize (text : jsstring) : jsstring :=
  Str.trim
    (Str.collapseWhiteSpace (Str.replacePunctuation (toLowerCase P text))).

(** [analyze] up to the end of its token loop. *)
Definition accumulate (text : jsstring) : Exc Acc :=
  let emojis := matchEmoji P text in
  let normalizedText := normalize text in
  detectedIdioms ←
    (if (0 <? size (idiomPatterns a))%nat
     then _detectIdioms normalizedText
     else Ok (simpleIdioms normalizedText));
  let st := fold_left countIdiom detectedIdioms initial in
  let st := fold_left countEmoji emojis st in
  let words := Str.words normalizedText in
  Ok (fold_left (scoreToken words) (seq 0 (length words)) st).

(** [finalScore] and [confidence] before they are formatted. *)
Definition finalScore (st : Acc) : Q :=
  if (0 <? wordCount st)%nat
  then totalScore st / Num.ofNat (wordCount st)
  else 0.5.

Definition finalConfidence (st : Acc) : Q :=
  if (0 <? wordCount st)%nat
  then Qmin 1 (confidence st / (Num.ofNat (wordCount st) * 0.8))
  else 0.

Definition result (st : Acc) : BaseResult.t :=
  {| BaseResult.score := Num.round2 (finalScore st);
     BaseResult.sentiment := _getSentimentFromScore (finalScore st);
     BaseResult.confidence := Num.round2 (finalConfidence st);
     BaseResult.details := details st |}.

Definition analyze (text : JsValue) : Exc BaseResult.t :=
  if negb (truthy text) || negb (isString text) then Ok neutralResult
  else
    match text with
    | JString s => st ← accumulate s; Ok (result st)
    | _ => Ok neutralResult
    end.

End WithAnalyzer.
End SentimentAnalyzer.

(** ** Artifacts of the structural analysis *)

Inductive SegmentType := Beginning | Middle | End | SingleSentence.

#[global] Instance SegmentType_eq_dec : EqDecision SegmentType.
Proof. solve_decision. Defined.

Module Segment.
Record t := { type : SegmentType; content : jsstring }.
End Segment.

Module SegmentScore.
Record t := {
  type : SegmentType;
  content : jsstring;
  score : Q;
  confidence : Q;
  weight : Q;
  wordCount : nat
}.
End SegmentScore.

Module SegmentAnalysis.
Record t := {
  segments : list SegmentScore.t;
  weightedScore : Q;
  totalWeight : Q
}.
End SegmentAnalysis.

Module ProgressionFactor.
Record t := {
  startScore : option Q;
  endScore : option Q;
  progression : Q;
  impact : Q
}.
End ProgressionFactor.

Module ConclusionFactor.
Record t := { score : option Q; difference : option Q; impact : Q }.
End ConclusionFactor.

Module IntensityFactor.
Record t := {
  stdDev : option Q;
  range : option Q;
  intensity : Q;
  impact : Q
}.
End IntensityFactor.

Module TransitionFactor.
Record t := {
  found : bool;
  marker : option jsstring;
  weight : option Q;
  beforeScore : option Q;
  afterScore : option Q;
  shift : option Q;
  impact : Q
}.
End TransitionFactor.

Inductive Pattern := Redemption | Downfall | Consistency | Mixed.

Module NarrativePattern.
Record t := { pattern : Pattern; impact : Q; description : jsstring }.
End NarrativePattern.

Module ContextFactors.
Record t := {
  segments : option SegmentAnalysis.t;
  progression : option ProgressionFactor.t;
  conclusion : option ConclusionFactor.t;
  intensity : option IntensityFactor.t;
  transitions : option TransitionFactor.t;
  narrative : option NarrativePattern.t
}.
(** The object literal [{}]. *)
Definition empty : t :=
  {| segments := None; progression := None; conclusion := None;
     intensity := None; transitions := None; narrative := None |}.
End ContextFactors.

Inductive Trend :=
| Stable | NetteAmelioration | Amelioration | LegereAmelioration
| NetteDegradation | Degradation | LegereDegradation.

Module Trends.
Record t := {
  trend : Trend;
  evolution : Q;
  startingPoint : option Q;
  endingPoint : option Q;
  description : jsstring
}.
End Trends.

Module ContextualResult.
Record t := {
  score : Q;
  sentiment : Sentiment;
  confidence : Q;
  details : Details.t;
  baseScore : Q;
  contextualScore : Q;
  contextFactors : ContextFactors.t;
  contextualSentiment : option Sentiment;
  trends : option Trends.t
}.
End ContextualResult.

(** ** ContextualAnalyzer: the structural analyzer *)

Module ContextualAnalyzer.
Import Dictionary.
Local Open Scope Q_scope.
Local Open Scope js_scope.

Record AnalyzerConfig := {
  segmentCount : nat;
  minSegmentSize : nat;
  positionWeights : PositionWeights
}.

Record t := {
  baseAnalyzer : SentimentAnalyzer.t;
  weights : Weights;
  config : AnalyzerConfig;
  transitionMarkers : list Marker;
  narrativePatterns : NarrativePatterns
}.

Definition defaultWeights : Weights :=
  {| progression := 0.25; conclusion := 0.25; intensity := 0.15;
     transitions := 0.2; baseline := 0.15 |}.

Definition defaultPositionWeights : PositionWeights :=
  {| beginning := 0.7; middle := 1.0; end_ := 1.5 |}.

Definition defaultMarkers : list Marker :=
  [ {| word := Str.lit "mais"; weight := 0.7 |};
    {| word := Str.lit "cependant"; weight := 0.7 |} ].

Definition defaultPatterns : NarrativePatterns :=
  {| redemption := 0.2; downfall := - 0.15; consistency := 0.05;
     mixed := - 0.05 |}.

Definition constructor (baseAnalyzer : SentimentAnalyzer.t)
    (dictionary : option Dictionary.t) : t :=
  let config := dictionary ≫= Dictionary.config in
  {| baseAnalyzer := baseAnalyzer;
     weights := default defaultWeights (config ≫= Dictionary.analysisWeights);
     config :=
       {| segmentCount := countOr (config ≫= Dictionary.segmentCount) 3;
          minSegmentSize := countOr (config ≫= Dictionary.minSegmentSize) 3;
          positionWeights :=
            default defaultPositionWeights
                    (config ≫= Dictionary.positionWeights) |};
     transitionMarkers :=
       default defaultMarkers (config ≫= Dictionary.transitionMarkers);
     narrativePatterns :=
       default defaultPatterns (config ≫= Dictionary.narrativePatterns) |}.

Definition _splitIntoSentences (text : jsstring) : list jsstring :=
  List.filter (fun sentence : jsstring => (0 <? length sentence)%nat)
              (map Str.trim (Str.splitOnTerminators text)).

(** [l.slice(from, to)] for indices within the array. *)
Definition slice {A} (from to : nat) (l : list A) : list A :=
  take (to - from) (drop from l).

Definition _segmentText (sentences : list jsstring) : list Segment.t :=
  if (length sentences <=? 1)%nat
  then [ {| Segment.type := SingleSentence;
            Segment.content := Str.join Str.space sentences |} ]
  else
    let quarter := Num.floorNat (Num.ofNat (length sentences) * 0.25) in
    let beginningSize := Nat.max 1 quarter in
    let middleStart := beginningSize in
    let middleEnd := (length sentences - Nat.max 1 quarter)%nat in
    [ {| Segment.type := Beginning;
         Segment.content :=
           Str.join Str.space (slice 0 beginningSize sentences) |} ]
    ++ (if (middleStart <? middleEnd)%nat
        then [ {| Segment.type := Middle;
                  Segment.content :=
                    Str.join Str.space
                             (slice middleStart middleEnd sentences) |} ]
        else [])
    ++ [ {| Segment.type := End;
            Segment.content :=
              Str.join Str.space (drop middleEnd sentences) |} ].

Definition _getSentimentFromScore (score : Q) : Sentiment :=
  if score >=? 0.85 then TresPositif
  else if score >=? 0.7 then Positif
  else if score >=? 0.6 then PlutotPositif
  else if score >=? 0.55 then LegerementPositif
  else if (score >=? 0.45) && (score <? 0.55) then Neutre
  else if score >=? 0.4 then LegerementNegatif
  else if score >=? 0.3 then PlutotNegatif
  else if score >=? 0.15 then Negatif
  else TresNegatif.

Definition _getPatternDescription (pattern : option Pattern) : jsstring :=
  match pattern with
  | Some Redemption =>
    Str.lit "Évolution positive: le texte commence négativement et évolue vers une conclusion plus positive"
  | Some Downfall =>
    Str.lit "Dégradation: le texte commence positivement et évolue vers une conclusion plus négative"
  | Some Consistency =>
    Str.lit "Cohérence: le texte maintient un sentiment relativement constant"
  | Some Mixed =>
    Str.lit "Sentiment mitigé: le texte présente des variations de sentiment sans tendance forte"
  | None => Str.lit "Indéterminé"
  end.

(** [x.toFixed(0)] as a string. *)
Definition toFixed0 (x : Q) : jsstring :=
  (if x <? 0 then Str.lit "-" else [])
  ++ Str.ofN (Z.to_N (Num.toFixedUnits 0 (Qabs x))).

(** Reading a field the object may lack and calling a method on it. *)
Definition required {A} (o : option A) : Exc A :=
  match o with
  | Some x => Ok x
  | None => Throw TypeError
  end.

(** [Math.min(...l)] and [Math.max(...l)] on a non-empty array. *)
Definition minimum (l : list Q) : Q :=
  match l with
  | x :: l' => fold_left Qmin l' x
  | [] => 0
  end.
Definition maximum (l : list Q) : Q :=
  match l with
  | x :: l' => fold_left Qmax l' x
  | [] => 0
  end.

Definition sum (l : list Q) : Q := fold_left Qplus l 0.

(** [detectedTransitions.sort((a, b) => b.weight - a.weight)]: a stable
    sort by decreasing weight. *)
Fixpoint insertByWeight (x : Marker * nat) (l : list (Marker * nat))
  : list (Marker * nat) :=
  match l with
  | [] => [x]
  | y :: l' =>
    if weight (fst y) >? weight (fst x) then y :: insertByWeight x l'
    else x :: l
  end.

Definition sortByWeight (l : list (Marker * nat)) : list (Marker * nat) :=
  fold_right insertByWeight [] l.

Definition _identifyNarrativePattern (c : t)
    (progressionFactor : ProgressionFactor.t) : NarrativePattern.t :=
  let progression := ProgressionFactor.progression progressionFactor in
  let progressionAbs := Qabs progression in
  let chosen :=
    if progression >? 0.25
    then (Redemption, redemption (narrativePatterns c) * (progressionAbs / 0.5))
    else if progression <? - 0.25
    then (Downfall, downfall (narrativePatterns c) * (progressionAbs / 0.5))
    else if progressionAbs <? 0.1
    then (Consistency, consistency (narrativePatterns c))
    else (Mixed, mixed (narrativePatterns c)) in
  {| NarrativePattern.pattern := fst chosen;
     NarrativePattern.impact := Num.round2 (snd chosen);
     NarrativePattern.description :=
       _getPatternDescription (Some (fst chosen)) |}.

Definition _calculateContextualScore (c : t) (baseScore : Q)
    (progressionFactor : ProgressionFactor.t)
    (conclusionFactor : ConclusionFactor.t)
    (intensityFactor : IntensityFactor.t)
    (transitionFactor : TransitionFactor.t)
    (narrativePattern : NarrativePattern.t) : Q :=
  let progressionImpact :=
    Num.orElse (ProgressionFactor.impact progressionFactor) 0 in
  let conclusionImpact :=
    Num.orElse (ConclusionFactor.impact conclusionFactor) 0 in
  let intensityImpact :=
    Num.orElse (IntensityFactor.impact intensityFactor) 0 in
  let transitionImpact :=
    Num.orElse (TransitionFactor.impact transitionFactor) 0 in
  let narrativeImpact :=
    Num.orElse (NarrativePattern.impact narrativePattern) 0 in
  let weightedBaseScore := baseScore * baseline (weights c) in
  let weightedProgression := progressionImpact * progression (weights c) in
  let weightedConclusion := conclusionImpact * conclusion (weights c) in
  let weightedIntensity := intensityImpact * intensity (weights c) in
  let weightedTransition := transitionImpact * transitions (weights c) in
  let contextualScore :=
    baseScore + weightedProgression + weightedConclusion
    + weightedIntensity + weightedTransition + narrativeImpact in
  Qmax 0 (Qmin 1 contextualScore).

Definition _analyzeProgression (segmentAnalysis : SegmentAnalysis.t)
  : Exc ProgressionFactor.t :=
  let segments := SegmentAnalysis.segments segmentAnalysis in
  if (length segments <=? 1)%nat
  then Ok {| ProgressionFactor.startScore := None;
             ProgressionFactor.endScore := None;
             ProgressionFactor.progression := 0;
             ProgressionFactor.impact := 0 |}
  else
    let beginningSegments :=
      List.filter (fun s => bool_decide (SegmentScore.type s = Beginning))
                  segments in
    let endSegments :=
      List.filter (fun s => bool_decide (SegmentScore.type s = End))
                  segments in
    firstSegment ←
      required (if (0 <? length beginningSegments)%nat
                then beginningSegments !! 0%nat else segments !! 0%nat);
    lastSegment ←
      required (if (0 <? length endSegments)%nat
                then endSegments !! 0%nat
                else segments !! (length segments - 1)%nat);
    let progression :=
      SegmentScore.score lastSegment - SegmentScore.score firstSegment in
    let impact :=
      if progression >? 0.3 then progression * 0.5
      else if progression <? - 0.3 then progression * 0.4
      else progression * 0.2 in
    Ok {| ProgressionFactor.startScore :=
            Some (SegmentScore.score firstSegment);
          ProgressionFactor.endScore := Some (SegmentScore.score lastSegment);
          ProgressionFactor.progression := Num.round2 progression;
          ProgressionFactor.impact := Num.round2 impact |}.

Definition _analyzeIntensity (P : Platform) (baseResult : BaseResult.t)
  : IntensityFactor.t :=
  let wordScores :=
    map WordEvidence.modifiedScore
        (Details.words (BaseResult.details baseResult)) in
  if (length wordScores <? 2)%nat
  then {| IntensityFactor.stdDev := None; IntensityFactor.range := None;
          IntensityFactor.intensity := 0; IntensityFactor.impact := 0 |}
  else
    let mean := sum wordScores / Num.ofNat (length wordScores) in
    let squaredDiffs :=
      map (fun score => (score - mean) * (score - mean)) wordScores in
    let variance := sum squaredDiffs / Num.ofNat (length wordScores) in
    let stdDev := sqrt P variance in
    let minScore := minimum wordScores in
    let maxScore := maximum wordScores in
    let range := maxScore - minScore in
    let intensity := (stdDev * 2 + range * 0.5) / 2.5 in
    let impact :=
      if BaseResult.score baseResult >? 0.6 then intensity * 0.15
      else if BaseResult.score baseResult <? 0.4 then - intensity * 0.15
      else (0.5 - BaseResult.score baseResult) * intensity * 0.1 in
    {| IntensityFactor.stdDev := Some (Num.round2 stdDev);
       IntensityFactor.range := Some (Num.round2 range);
       IntensityFactor.intensity := Num.round2 intensity;
       IntensityFactor.impact := Num.round2 impact |}.

Definition _analyzeTrends (segmentAnalysis : SegmentAnalysis.t)
    (progressionFactor : ProgressionFactor.t) : Exc Trends.t :=
  let segments := SegmentAnalysis.segments segmentAnalysis in
  if (length segments <=? 1)%nat
  then Ok {| Trends.trend := Stable; Trends.evolution := 0;
             Trends.startingPoint := None; Trends.endingPoint := None;
             Trends.description :=
               Str.lit "Texte trop court pour déterminer une évolution" |}
  else
    let evolution := ProgressionFactor.progression progressionFactor in
    let trend :=
      if evolution >? 0.2 then NetteAmelioration
      else if evolution >? 0.1 then Amelioration
      else if evolution >? 0.05 then LegereAmelioration
      else if evolution <? - 0.2 then NetteDegradation
      else if evolution <? - 0.1 then Degradation
      else if evolution <? - 0.05 then LegereDegradation
      else Stable in
    let startBelow (x : Q) :=
      match ProgressionFactor.startScore progressionFactor with
      | Some s => s <? x
      | None => false
      end in
    let startAbove (x : Q) :=
      match ProgressionFactor.startScore progressionFactor with
      | Some s => s >? x
      | None => false
      end in
    let description :=
      if Qabs evolution <? 0.05
      then Str.lit "Le sentiment reste stable tout au long du texte."
      else if evolution >? 0
      then
        Str.lit "Le texte évolue vers un sentiment plus positif (+ "
        ++ toFixed0 (evolution * 100) ++ Str.lit "%). "
        ++ (if startBelow 0.4
            then Str.lit "Il commence négativement mais s'améliore par la suite."
            else if startBelow 0.55
            then Str.lit "Il démarre sur un ton neutre et évolue positivement."
            else Str.lit "Il est positif dès le début et renforce ce sentiment.")
      else
        Str.lit "Le texte évolue vers un sentiment plus négatif (- "
        ++ toFixed0 (Qabs evolution * 100) ++ Str.lit "%). "
        ++ (if startAbove 0.6
            then Str.lit "Il commence positivement mais se dégrade par la suite."
            else if startAbove 0.45
            then Str.lit "Il démarre sur un ton neutre et évolue négativement."
            else Str.lit "Il est négatif dès le début et renforce ce sentiment.") in
    startScore ← required (ProgressionFactor.startScore progressionFactor);
    endScore ← required (ProgressionFactor.endScore progressionFactor);
    Ok {| Trends.trend := trend;
          Trends.evolution := Num.round2 evolution;
          Trends.startingPoint := Some (Num.round2 startScore);
          Trends.endingPoint := Some (Num.round2 endScore);
          Trends.description := description |}.

Section WithAnalyzer.
Context (P : Platform) (c : t).

Definition baseAnalyze (text : jsstring) : Exc BaseResult.t :=
  SentimentAnalyzer.analyze P (baseAnalyzer c) (JString text).

(** [this.config.positionWeights[segment.type] || 1.0] *)
Definition positionWeightOf (type : SegmentType) : Q :=
  match type with
  | Beginning => Num.orElse (beginning (positionWeights (config c))) 1.0
  | Middle => Num.orElse (middle (positionWeights (config c))) 1.0
  | End => Num.orElse (end_ (positionWeights (config c))) 1.0
  | SingleSentence => 1.0
  end.

Definition scoreSegment (segment : Segment.t) : Exc SegmentScore.t :=
  segmentAnalysis ← baseAnalyze (Segment.content segment);
  let positionWeight := positionWeightOf (Segment.type segment) in
  let words :=
    List.filter (fun w : jsstring => (0 <? length w)%nat)
                (Str.words (Segment.content segment)) in
  let sizeWeight :=
    Qmin 1 (Num.ofNat (length words) / Num.ofNat (minSegmentSize (config c))) in
  let effectiveWeight := positionWeight * sizeWeight in
  Ok {| SegmentScore.type := Segment.type segment;
        SegmentScore.content := Segment.content segment;
        SegmentScore.score := BaseResult.score segmentAnalysis;
        SegmentScore.confidence := BaseResult.confidence segmentAnalysis;
        SegmentScore.weight := effectiveWeight;
        SegmentScore.wordCount := length words |}.

Definition _analyzeSegments (segments : list Segment.t)
  : Exc SegmentAnalysis.t :=
  segmentScores ← mapM scoreSegment segments;
  let totalWeightedScore :=
    fold_left (fun acc s =>
                 acc + SegmentScore.score s * SegmentScore.weight s)
              segmentScores 0 in
  let totalWeight :=
    fold_left (fun acc s => acc + SegmentScore.weight s) segmentScores 0 in
  Ok {| SegmentAnalysis.segments := segmentScores;
        SegmentAnalysis.weightedScore :=
          if totalWeight >? 0 then totalWeightedScore / totalWeight else 0.5;
        SegmentAnalysis.totalWeight := totalWeight |}.

Definition _analyzeConclusion (segments : list Segment.t)
  : Exc ConclusionFactor.t :=
  let conclusionSegments :=
    List.filter (fun s => bool_decide (Segment.type s = End)) segments in
  match conclusionSegments with
  | [] => Ok {| ConclusionFactor.score := None;
                ConclusionFactor.difference := None;
                ConclusionFactor.impact := 0 |}
  | conclusion :: _ =>
    conclusionAnalysis ← baseAnalyze (Segment.content conclusion);
    let otherSegments :=
      List.filter (fun s => negb (bool_decide (Segment.type s = End)))
                  segments in
    otherSegmentsScore ←
      (if (0 <? length otherSegments)%nat
       then
         analyses ← mapM (fun s => baseAnalyze (Segment.content s))
                         otherSegments;
         Ok (sum (map BaseResult.score analyses)
             / Num.ofNat (length otherSegments))
       else Ok 0.5);
    let difference :=
      BaseResult.score conclusionAnalysis - otherSegmentsScore in
    let impact :=
      if difference >? 0.3 then difference * 0.7
      else if difference >? 0.1 then difference * 0.5
      else if difference <? - 0.3 then difference * 0.5
      else if difference <? - 0.1 then difference * 0.3
      else difference * 0.1 in
    Ok {| ConclusionFactor.score :=
            Some (BaseResult.score conclusionAnalysis);
          ConclusionFactor.difference := Some (Num.round2 difference);
          ConclusionFactor.impact := Num.round2 impact |}
  end.

Definition _analyzeTransitions (text : jsstring) (baseResult : BaseResult.t)
  : Exc TransitionFactor.t :=
  let lowerText := toLowerCase P text in
  let detectedTransitions :=
    omap (fun marker : Marker =>
            let matches := countMatches P (word marker) lowerText in
            if (0 <? matches)%nat then Some (marker, matches) else None)
         (transitionMarkers c) in
  match sortByWeight detectedTransitions with
  | [] => Ok {| TransitionFactor.found := false;
                TransitionFactor.marker := None;
                TransitionFactor.weight := None;
                TransitionFactor.beforeScore := None;
                TransitionFactor.afterScore := None;
                TransitionFactor.shift := None;
                TransitionFactor.impact := 0 |}
  | (strongestTransition, _) :: _ =>
    let parts := Str.split lowerText (word strongestTransition) in
    if (length parts <? 2)%nat
       || (length (Str.trim (nth 0 parts [])) =? 0)%nat
       || (length (Str.trim (nth 1 parts [])) =? 0)%nat
    then Ok {| TransitionFactor.found := true;
               TransitionFactor.marker := Some (word strongestTransition);
               TransitionFactor.weight := None;
               TransitionFactor.beforeScore := None;
               TransitionFactor.afterScore := None;
               TransitionFactor.shift := None;
               TransitionFactor.impact := weight strongestTransition * 0.05 |}
    else
      let beforeTransition := nth 0 parts [] in
      let afterTransition :=
        Str.join (word strongestTransition) (drop 1 parts) in
      beforeAnalysis ← baseAnalyze beforeTransition;
      afterAnalysis ← baseAnalyze afterTransition;
      let sentimentShift :=
        BaseResult.score afterAnalysis - BaseResult.score beforeAnalysis in
      let rawImpact := sentimentShift * weight strongestTransition in
      let afterRatio :=
        Num.ofNat (length afterTransition)
        / (Num.ofNat (length beforeTransition)
           + Num.ofNat (length afterTransition)) in
      let weightedImpact := rawImpact * Qmin 1 (afterRatio * 2) in
      Ok {| TransitionFactor.found := true;
            TransitionFactor.marker := Some (word strongestTransition);
            TransitionFactor.weight := Some (weight strongestTransition);
            TransitionFactor.beforeScore :=
              Some (BaseResult.score beforeAnalysis);
            TransitionFactor.afterScore :=
              Some (BaseResult.score afterAnalysis);
            TransitionFactor.shift := Some (Num.round2 sentimentShift);
            TransitionFactor.impact := Num.round2 weightedImpact |}
  end.

(** The object [enhancedResult] as [analyze] first builds it. *)
Definition enhance (baseResult : BaseResult.t) : ContextualResult.t :=
  {| ContextualResult.score := BaseResult.score baseResult;
     ContextualResult.sentiment := BaseResult.sentiment baseResult;
     ContextualResult.confidence := BaseResult.confidence baseResult;
     ContextualResult.details := BaseResult.details baseResult;
     ContextualResult.baseScore := BaseResult.score baseResult;
     ContextualResult.contextualScore := BaseResult.score baseResult;
     ContextualResult.contextFactors := ContextFactors.empty;
     ContextualResult.contextualSentiment := None;
     ContextualResult.trends := None |}.

(** [analyze] past its guard, on a text of at least ten trimmed units. *)
Definition analyzeStructure (text : jsstring) (baseResult : BaseResult.t)
  : Exc ContextualResult.t :=
  let sentences := _splitIntoSentences text in
  let segments := _segmentText sentences in
  segmentAnalysis ← _analyzeSegments segments;
  progressionFactor ← _analyzeProgression segmentAnalysis;
  conclusionFactor ← _analyzeConclusion segments;
  let intensityFactor := _analyzeIntensity P baseResult in
  transitionFactor ← _analyzeTransitions text baseResult;
  let narrativePattern := _identifyNarrativePattern c progressionFactor in
  let contextualScore :=
    _calculateContextualScore c (BaseResult.score baseResult)
      progressionFactor conclusionFactor intensityFactor transitionFactor
      narrativePattern in
  let contextualScore := Qmax 0 (Qmin 1 contextualScore) in
  trends ← _analyzeTrends segmentAnalysis progressionFactor;
  Ok {| ContextualResult.score := BaseResult.score baseResult;
        ContextualResult.sentiment := BaseResult.sentiment baseResult;
        ContextualResult.confidence := BaseResult.confidence baseResult;
        ContextualResult.details := BaseResult.details baseResult;
        ContextualResult.baseScore := BaseResult.score baseResult;
        ContextualResult.contextualScore := contextualScore;
        ContextualResult.contextFactors :=
          {| ContextFactors.segments := Some segmentAnalysis;
             ContextFactors.progression := Some progressionFactor;
             ContextFactors.conclusion := Some conclusionFactor;
             ContextFactors.intensity := Some intensityFactor;
             ContextFactors.transitions := Some transitionFactor;
             ContextFactors.narrative := Some narrativePattern |};
        ContextualResult.contextualSentiment :=
          Some (_getSentimentFromScore contextualScore);
        ContextualResult.trends := Some trends |}.

Definition analyze (text : JsValue) : Exc ContextualResult.t :=
  baseResult ← SentimentAnalyzer.analyze P (baseAnalyzer c) text;
  let enhancedResult := enhance baseResult in
  match text with
  | JString s =>
    if negb (truthy text) || (length (Str.trim s) <? 10)%nat
    then Ok enhancedResult
    else analyzeStructure s baseResult
  | _ => Ok enhancedResult
  end.

End WithAnalyzer.
End ContextualAnalyzer.

(** ** SentimentEvaluator: running both analyzers side by side *)

Module SentimentEvaluator.
Local Open Scope Q_scope.
Local Open Scope js_scope.

Record t := {
  analyzer : SentimentAnalyzer.t;
  contextualAnalyzer : ContextualAnalyzer.t
}.

Definition constructor (analyzer : SentimentAnalyzer.t)
    (contextualAnalyzer : ContextualAnalyzer.t) : t :=
  {| analyzer := analyzer; contextualAnalyzer := contextualAnalyzer |}.

(** The strings that [_getSentimentFromScore] returns. *)
Definition label (s : Sentiment) : jsstring :=
  match s with
  | TresPositif => Str.lit "très positif"
  | Positif => Str.lit "positif"
  | PlutotPositif => Str.lit "plutôt positif"
  | LegerementPositif => Str.lit "légèrement positif"
  | Neutre => Str.lit "neutre"
  | LegerementNegatif => Str.lit "légèrement négatif"
  | PlutotNegatif => Str.lit "plutôt négatif"
  | Negatif => Str.lit "négatif"
  | TresNegatif => Str.lit "très négatif"
  end.

(** [sentiment === expected], for a sentiment field that holds a label or
    is missing. *)
Definition sameSentiment (sentiment : option Sentiment) (expected : JsValue)
  : bool :=
  match sentiment, expected with
  | Some s, JString x => Str.eqb (label s) x
  | None, JUndefined => true
  | _, _ => false
  end.

(** [a !== b] between the [sentiment] of a lexical result and the
    [contextualSentiment] of a structural one. *)
Definition sentimentDiffers (basic : Sentiment) (contextual : option Sentiment)
  : bool :=
  match contextual with
  | Some s => negb (Str.eqb (label basic) (label s))
  | None => true
  end.

Module TestCase.
Record t := { text : JsValue; expectedSentiment : JsValue }.
End TestCase.

Module Summary.
Record t := { sentiment : option Sentiment; score : Q; correct : bool }.
End Summary.

Module Detail.
Record t := {
  text : JsValue;
  expected : JsValue;
  basicResult : Summary.t;
  contextualResult : Summary.t
}.
End Detail.

Module Results.
Record t := {
  total : nat;
  correct : nat;
  contextualCorrect : nat;
  accuracy : Q;
  contextualAccuracy : Q;
  details : list Detail.t
}.
End Results.

Module ImpactFactor.
Record t := { name : jsstring; impact : Q; description : jsstring }.
End ImpactFactor.

Module Comparison.
Record t := {
  scoreDifference : Q;
  sentimentChange : bool;
  description : jsstring;
  impactFactors : list ImpactFactor.t
}.
End Comparison.

Module CompareResult.
Record t := {
  basicAnalysis : BaseResult.t;
  contextualAnalysis : ContextualResult.t;
  comparison : Comparison.t
}.
End CompareResult.

(** [x.toFixed(1)] as a string. *)
Definition toFixed1 (x : Q) : jsstring :=
  let n := Z.to_N (Num.toFixedUnits 1 (Qabs x)) in
  (if x <? 0 then Str.lit "-" else [])
  ++ Str.ofN (n / 10) ++ Str.lit "." ++ Str.ofN (n mod 10).

(** [impactFactors.sort((a, b) => Math.abs(b.impact) - Math.abs(a.impact))]:
    a stable sort by decreasing magnitude. *)
Fixpoint insertByImpact (x : ImpactFactor.t) (l : list ImpactFactor.t)
  : list ImpactFactor.t :=
  match l with
  | [] => [x]
  | y :: l' =>
    if Qabs (ImpactFactor.impact y) >? Qabs (ImpactFactor.impact x)
    then y :: insertByImpact x l'
    else x :: l
  end.

Definition sortByImpact (l : list ImpactFactor.t) : list ImpactFactor.t :=
  fold_right insertByImpact [] l.

Section WithEvaluator.
Context (P : Platform) (e : t).

(** The body of the loop of [evaluate]. *)
Definition evaluateCase (results : Results.t) (testCase : TestCase.t)
  : Exc Results.t :=
  basicAnalysis ←
    SentimentAnalyzer.analyze P (analyzer e) (TestCase.text testCase);
  contextualAnalysis ←
    ContextualAnalyzer.analyze P (contextualAnalyzer e)
      (TestCase.text testCase);
  let isBasicCorrect :=
    sameSentiment (Some (BaseResult.sentiment basicAnalysis))
                  (TestCase.expectedSentiment testCase) in
  let isContextualCorrect :=
    sameSentiment (ContextualResult.contextualSentiment contextualAnalysis)
                  (TestCase.expectedSentiment testCase) in
  Ok {| Results.total := Results.total results;
        Results.correct :=
          if isBasicCorrect then S (Results.correct results)
          else Results.correct results;
        Results.contextualCorrect :=
          if isContextualCorrect then S (Results.contextualCorrect results)
          else Results.contextualCorrect results;
        Results.accuracy := Results.accuracy results;
        Results.contextualAccuracy := Results.contextualAccuracy results;
        Results.details :=
          Results.details results
          ++ [ {| Detail.text := TestCase.text testCase;
                  Detail.expected := TestCase.expectedSentiment testCase;
                  Detail.basicResult :=
                    {| Summary.sentiment :=
                         Some (BaseResult.sentiment basicAnalysis);
                       Summary.score := BaseResult.score basicAnalysis;
                       Summary.correct := isBasicCorrect |};
                  Detail.contextualResult :=
                    {| Summary.sentiment :=
                         ContextualResult.contextualSentiment
                           contextualAnalysis;
                       Summary.score :=
                         ContextualResult.contextualScore contextualAnalysis;
                       Summary.correct := isContextualCorrect |} |} ] |}.

Fixpoint evaluateLoop (testCases : list TestCase.t) (results : Results.t)
  : Exc Results.t :=
  match testCases with
  | [] => Ok results
  | testCase :: rest =>
    results ← evaluateCase results testCase;
    evaluateLoop rest results
  end.

Definition evaluate (testCases : list TestCase.t) : Exc Results.t :=
  results ←
    evaluateLoop testCases
      {| Results.total := length testCases;
         Results.correct := 0;
         Results.contextualCorrect := 0;
         Results.accuracy := 0;
         Results.contextualAccuracy := 0;
         Results.details := [] |};
  Ok {| Results.total := Results.total results;
        Results.correct := Results.correct results;
        Results.contextualCorrect := Results.contextualCorrect results;
        Results.accuracy :=
          if (0 <? Results.total results)%nat
          then Num.ofNat (Results.correct results)
               / Num.ofNat (Results.total results)
          else 0;
        Results.contextualAccuracy :=
          if (0 <? Results.total results)%nat
          then Num.ofNat (Results.contextualCorrect results)
               / Num.ofNat (Results.total results)
          else 0;
        Results.details := Results.details results |}.

(** The factors that [compareAnalyzers] lists, before sorting. *)
Definition listedFactors (factors : ContextFactors.t)
  : list ImpactFactor.t :=
  (match ContextFactors.progression factors with
   | Some f =>
     if Qabs (ProgressionFactor.impact f) >? 0.05
     then [ {| ImpactFactor.name := Str.lit "Progression";
               ImpactFactor.impact := ProgressionFactor.impact f;
               ImpactFactor.description :=
                 Str.lit "Évolution de "
                 ++ toFixed1 (ProgressionFactor.progression f * 100)
                 ++ Str.lit "% entre le début et la fin" |} ]
     else []
   | None => []
   end)
  ++ (match ContextFactors.conclusion factors with
      | Some f =>
        if Qabs (ConclusionFactor.impact f) >? 0.05
        then [ {| ImpactFactor.name := Str.lit "Conclusion";
                  ImpactFactor.impact := ConclusionFactor.impact f;
                  ImpactFactor.description :=
                    Str.lit "La conclusion a un impact de "
                    ++ toFixed1 (ConclusionFactor.impact f * 100)
                    ++ Str.lit "%" |} ]
        else []
      | None => []
      end)
  ++ (match ContextFactors.transitions factors with
      | Some f =>
        if Qabs (TransitionFactor.impact f) >? 0.05
        then [ {| ImpactFactor.name := Str.lit "Transitions";
                  ImpactFactor.impact := TransitionFactor.impact f;
                  ImpactFactor.description :=
                    Str.lit "Les transitions ont un impact de "
                    ++ toFixed1 (TransitionFactor.impact f * 100)
                    ++ Str.lit "%" |} ]
        else []
      | None => []
      end)
  ++ (match ContextFactors.narrative factors with
      | Some f =>
        if Qabs (NarrativePattern.impact f) >? 0.05
        then [ {| ImpactFactor.name := Str.lit "Structure narrative";
                  ImpactFactor.impact := NarrativePattern.impact f;
                  ImpactFactor.description :=
                    NarrativePattern.description f |} ]
        else []
      | None => []
      end).

Definition compareAnalyzers (text : JsValue) : Exc CompareResult.t :=
  basicAnalysis ← SentimentAnalyzer.analyze P (analyzer e) text;
  contextualAnalysis ←
    ContextualAnalyzer.analyze P (contextualAnalyzer e) text;
  let scoreDifference :=
    ContextualResult.contextualScore contextualAnalysis
    - BaseResult.score basicAnalysis in
  let differenceDescription :=
    if Qabs scoreDifference <? 0.05
    then Str.lit "Les deux analyseurs produisent des résultats similaires pour ce texte."
    else if scoreDifference >? 0
    then Str.lit "L'analyse contextuelle produit un score plus positif (+ "
         ++ toFixed1 (scoreDifference * 100) ++ Str.lit "%)."
    else Str.lit "L'analyse contextuelle produit un score plus négatif (- "
         ++ toFixed1 (Qabs scoreDifference * 100) ++ Str.lit "%)." in
  let impactFactors :=
    sortByImpact
      (listedFactors (ContextualResult.contextFactors contextualAnalysis)) in
  Ok {| CompareResult.basicAnalysis := basicAnalysis;
        CompareResult.contextualAnalysis := contextualAnalysis;
        CompareResult.comparison :=
          {| Comparison.scoreDifference := Num.round2 scoreDifference;
             Comparison.sentimentChange :=
               sentimentDiffers
                 (BaseResult.sentiment basicAnalysis)
                 (ContextualResult.contextualSentiment contextualAnalysis);
             Comparison.description := differenceDescription;
             Comparison.impactFactors := impactFactors |} |}.

End WithEvaluator.
End SentimentEvaluator.

(** ** The instances built when the dictionary file cannot be read *)

Module Fallback.

Definition emptyDict : Dictionary.t :=
  {| Dictionary.positiveWords := Some ∅;
     Dictionary.neutralWords := Some ∅;
     Dictionary.negativeWords := Some ∅;
     Dictionary.compounds :=
       Some {| Dictionary.modifierPrefixes := Some ∅;
               Dictionary.idioms := Some [];
               Dictionary.idiomPatterns := Some ∅;
               Dictionary.negationWords := Some [] |};
     Dictionary.emojiSentiments := Some ∅;
     Dictionary.config :=
       Some {| Dictionary.negationWindow := None;
               Dictionary.contextWindow := None;
               Dictionary.idiomDetectionRadius := Some 5%nat;
               Dictionary.analysisWeights := None;
               Dictionary.segmentCount := None;
               Dictionary.minSegmentSize := None;
               Dictionary.positionWeights := None;
               Dictionary.transitionMarkers := None;
               Dictionary.narrativePatterns := None |} |}.

Definition analyzer : SentimentAnalyzer.t :=
  SentimentAnalyzer.constructor emptyDict.

Definition contextualAnalyzer : ContextualAnalyzer.t :=
  ContextualAnalyzer.constructor analyzer (Some emptyDict).

Definition evaluator : SentimentEvaluator.t :=
  SentimentEvaluator.constructor analyzer contextualAnalyzer.

End Fallback.

(** ** Reads through the prototype chain

    The lexicon tables, the fallback tables and the idiom index of
    [_detectIdioms] are plain objects, and a read [table[key]] on a plain
    object also finds the members it inherits from [Object.prototype]. The
    definitions above read the tables by their own keys. The definitions
    of this module are the same methods of [SentimentAnalyzer] with every
    such read going through the chain: an inherited member is a function
    (or, for [__proto__], an object), which arithmetic converts to [NaN]
    and on which [push] is not a method. *)

Module Chain.
Local Open Scope Q_scope.
Local Open Scope js_scope.

(** [Object.getOwnPropertyNames(Object.prototype)] *)
Definition members : list jsstring :=
  [ Str.lit "constructor"; Str.lit "__defineGetter__";
    Str.lit "__defineSetter__"; Str.lit "hasOwnProperty";
    Str.lit "__lookupGetter__"; Str.lit "__lookupSetter__";
    Str.lit "isPrototypeOf"; Str.lit "propertyIsEnumerable";
    Str.lit "toString"; Str.lit "valueOf"; Str.lit "__proto__";
    Str.lit "toLocaleString" ].

Definition inherited (key : jsstring) : bool := Str.includes members key.

(** A JavaScript number: a rational, or [NaN]. *)
Inductive number := Fin (q : Q) | NaN.

(** What a score variable of [analyze] can hold: a number, the inherited
    member found under [name], or the string that [+] makes of a number
    and such a member. *)
Inductive value :=
| Number (n : number)
| Member (name : jsstring)
| Text.

(** [ToNumber]: a function, an object and a string that holds the source
    text of one all convert to [NaN]. *)
Definition toNumber (v : value) : number :=
  match v with
  | Number n => n
  | Member _ | Text => NaN
  end.

Definition lift (f : Q -> Q -> Q) (x y : number) : number :=
  match x, y with
  | Fin a, Fin b => Fin (f a b)
  | _, _ => NaN
  end.

Definition add : number -> number -> number := lift Qplus.
Definition sub : number -> number -> number := lift Qminus.
Definition mul : number -> number -> number := lift Qmult.
Definition div : number -> number -> number := lift Qdiv.
(** [Math.min] and [Math.max] return [NaN] when an argument is [NaN]. *)
Definition min : number -> number -> number := lift Qmin.
Definition max : number -> number -> number := lift Qmax.

(** [x < y] and [x === y] on numbers: false when either is [NaN]. *)
Definition ltb (x y : number) : bool :=
  match x, y with
  | Fin a, Fin b => a <? b
  | _, _ => false
  end.
Definition eqb (x y : number) : bool :=
  match x, y with
  | Fin a, Fin b => a =? b
  | _, _ => false
  end.

(** [v === 1] *)
Definition isOne (v : value) : bool :=
  match v with
  | Number n => eqb n (Fin 1)
  | Member _ | Text => false
  end.

(** [x + y] as [totalScore += score] evaluates it: the sum of two
    numbers, a string as soon as one operand is not a number. *)
Definition plus (x y : value) : value :=
  match x, y with
  | Number a, Number b => Number (add a b)
  | _, _ => Text
  end.

(** [parseFloat(x.toFixed(2))] *)
Definition round2 (x : number) : number :=
  match x with
  | Fin q => Fin (Num.round2 q)
  | NaN => NaN
  end.

(** [table[key]]: [None] stands for [undefined]. *)
Definition get (table : gmap jsstring Q) (key : jsstring) : option value :=
  match table !! key with
  | Some q => Some (Number (Fin q))
  | None => if inherited key then Some (Member key) else None
  end.

Module WordEvidence.
Record t := {
  word : jsstring;
  originalScore : value;
  modifiedScore : value;
  contextScore : value;
  negated : bool
}.
End WordEvidence.

Inductive ModifierEvidence :=
| PrefixModifier (phrase target : jsstring) (modification : value)
| NegationMarker (phrase : option jsstring) (scope : NegationScope).

Module EmojiEvidence.
Record t := { emoji : jsstring; score : value }.
End EmojiEvidence.

Module Details.
Record t := {
  words : list WordEvidence.t;
  modifiers : list ModifierEvidence;
  idioms : list IdiomEvidence.t;
  emojis : list EmojiEvidence.t
}.
Definition empty : t :=
  {| words := []; modifiers := []; idioms := []; emojis := [] |}.
End Details.

Module Result.
Record t := {
  score : number;
  sentiment : Sentiment;
  confidence : Q;
  details : Details.t
}.
End Result.

Definition neutralResult : Result.t :=
  {| Result.score := Fin 0.5;
     Result.sentiment := Neutre;
     Result.confidence := 0;
     Result.details := Details.empty |}.

(** Every comparison with [NaN] is false, so [NaN] gets the last label. *)
Definition _getSentimentFromScore (score : number) : Sentiment :=
  match score with
  | Fin q => SentimentAnalyzer._getSentimentFromScore q
  | NaN => TresNegatif
  end.

Record Acc := {
  negationActive : bool;
  negationDistance : nat;
  totalScore : value;
  wordCount : nat;
  confidence : Q;
  details : Details.t
}.

Definition initial : Acc :=
  {| negationActive := false; negationDistance := 0;
     totalScore := Number (Fin 0); wordCount := 0; confidence := 0;
     details := Details.empty |}.

Definition setNegation (active : bool) (distance : nat) (st : Acc) : Acc :=
  {| negationActive := active; negationDistance := distance;
     totalScore := totalScore st; wordCount := wordCount st;
     confidence := confidence st; details := details st |}.

Definition setDetails (d : Details.t) (st : Acc) : Acc :=
  {| negationActive := negationActive st;
     negationDistance := negationDistance st;
     totalScore := totalScore st; wordCount := wordCount st;
     confidence := confidence st; details := d |}.

(** [totalScore += score; wordCount += 1; confidence += weight]. *)
Definition count (score : value) (weight : Q) (st : Acc) : Acc :=
  {| negationActive := negationActive st;
     negationDistance := negationDistance st;
     totalScore := plus (totalScore st) score;
     wordCount := S (wordCount st);
     confidence := confidence st + weight;
     details := details st |}.

Definition pushModifiers (ms : list ModifierEvidence) (st : Acc) : Acc :=
  let d := details st in
  setDetails {| Details.words := Details.words d;
                Details.modifiers := Details.modifiers d ++ ms;
                Details.idioms := Details.idioms d;
                Details.emojis := Details.emojis d |} st.

Definition pushWord (w : WordEvidence.t) (st : Acc) : Acc :=
  let d := details st in
  setDetails {| Details.words := Details.words d ++ [w];
                Details.modifiers := Details.modifiers d;
                Details.idioms := Details.idioms d;
                Details.emojis := Details.emojis d |} st.

Definition pushIdiom (i : IdiomEvidence.t) (st : Acc) : Acc :=
  let d := details st in
  setDetails {| Details.words := Details.words d;
                Details.modifiers := Details.modifiers d;
                Details.idioms := Details.idioms d ++ [i];
                Details.emojis := Details.emojis d |} st.

Definition pushEmoji (e : EmojiEvidence.t) (st : Acc) : Acc :=
  let d := details st in
  setDetails {| Details.words := Details.words d;
                Details.modifiers := Details.modifiers d;
                Details.idioms := Details.idioms d;
                Details.emojis := Details.emojis d ++ [e] |} st.

(** [if (!idiomKeywords[keyword]) idiomKeywords[keyword] = [];
     idiomKeywords[keyword].push(info)]: under an inherited name the read
    finds a function or an object, which is truthy, no array is stored,
    and the call of its missing [push] raises. *)
Definition addKeyword (keyword : jsstring) (info : jsstring * Q)
    (tbl : list (jsstring * list (jsstring * Q)))
  : Exc (list (jsstring * list (jsstring * Q))) :=
  if inherited keyword then Throw TypeError
  else Ok (SentimentAnalyzer.addKeyword keyword info tbl).

Definition indexIdiom (tbl : list (jsstring * list (jsstring * Q)))
    (entry : jsstring * Q) : Exc (list (jsstring * list (jsstring * Q))) :=
  let idiom := fst entry in
  let idiomWords := Str.words idiom in
  if (2 <=? length idiomWords)%nat
     && SentimentAnalyzer.commonVerb (nth 0 idiomWords [])
  then
    let keyword := Str.join Str.space (drop 1 idiomWords) in
    if (2 <? length keyword)%nat then addKeyword keyword entry tbl
    else Ok tbl
  else addKeyword idiom entry tbl.

(** The first loop of [_detectIdioms]. *)
Fixpoint indexIdioms (entries : list (jsstring * Q))
    (tbl : list (jsstring * list (jsstring * Q)))
  : Exc (list (jsstring * list (jsstring * Q))) :=
  match entries with
  | [] => Ok tbl
  | entry :: entries' =>
    tbl ← indexIdiom tbl entry;
    indexIdioms entries' tbl
  end.

Section WithAnalyzer.
Context (P : Platform) (a : SentimentAnalyzer.t).

Definition _detectIdioms (text : jsstring) : Exc (list IdiomEvidence.t) :=
  let words := Str.words text in
  idiomKeywords ← indexIdioms (SentimentAnalyzer.idioms a) [];
  perPosition ←
    mapM (fun i : nat =>
            perKeyword ←
              mapM (fun entry : jsstring * list (jsstring * Q) =>
                      let keywordWords := Str.words (fst entry) in
                      if SentimentAnalyzer.matchesKeyword words i keywordWords
                      then
                        found ←
                          mapM (SentimentAnalyzer.registerIdiom a words i
                                  keywordWords)
                               (snd entry);
                        Ok (concat found)
                      else Ok [])
                   idiomKeywords;
            Ok (concat perKeyword))
         (seq 0 (length words));
  Ok (concat perPosition).

(** [positiveWords[w]], else [negativeWords[w]], else [neutralWords[w]],
    each tested with [!== undefined]. *)
Definition wordScoreOf (w : jsstring) : option value :=
  match get (SentimentAnalyzer.positiveWords a) w with
  | Some v => Some v
  | None =>
    match get (SentimentAnalyzer.negativeWords a) w with
    | Some v => Some v
    | None => get (SentimentAnalyzer.neutralWords a) w
    end
  end.

(** The branches that add to [centralScore] are entered only when it
    compares with 0.5, that is when it is a number. *)
Definition _analyzeWordContext (contextWords : list jsstring)
    (centralWord : jsstring) (centralScore : value) : value :=
  if (length contextWords =? 0)%nat then centralScore
  else
    let acc :=
      fold_left (fun (acc : number * nat) (w : jsstring) =>
                   match wordScoreOf w with
                   | Some wordScore =>
                     (add (fst acc)
                          (mul (sub (toNumber wordScore) (Fin 0.5)) (Fin 0.2)),
                      S (snd acc))
                   | None => acc
                   end)
                contextWords (Fin 0, 0%nat) in
    let contextualModifier := fst acc in
    let relevantContextCount := snd acc in
    let score := toNumber centralScore in
    if (relevantContextCount =? 0)%nat then centralScore
    else if ltb (Fin 0) contextualModifier && ltb (Fin 0.5) score
    then Number (min (Fin 1) (add score (mul contextualModifier (Fin 0.5))))
    else if ltb contextualModifier (Fin 0) && ltb score (Fin 0.5)
    then Number (max (Fin 0) (add score (mul contextualModifier (Fin 0.5))))
    else if ltb (Fin 0) contextualModifier && ltb score (Fin 0.5)
    then Number (min (Fin 0.5) (add score (mul contextualModifier (Fin 0.3))))
    else if ltb contextualModifier (Fin 0) && ltb (Fin 0.5) score
    then Number (max (Fin 0.5) (add score (mul contextualModifier (Fin 0.3))))
    else centralScore.

Definition prefixModifier (words : list jsstring) (i : nat) (word : jsstring)
  : value * list ModifierEvidence :=
  if (0 <? i)%nat then
    let previousWord := nth (i - 1) words [] in
    let one :=
      match get (SentimentAnalyzer.modifierPrefixes a) previousWord with
      | Some m => (m, [PrefixModifier previousWord word m])
      | None => (Number (Fin 1), [])
      end in
    if (1 <? i)%nat then
      let twoWordModifier :=
        nth (i - 2) words [] ++ Str.space ++ previousWord in
      match get (SentimentAnalyzer.modifierPrefixes a) twoWordModifier with
      | Some m => (m, snd one ++ [PrefixModifier twoWordModifier word m])
      | None => one
      end
    else one
  else (Number (Fin 1), []).

(** [score = 0.5 + (0.5 - score) * (1 - negationDistance / negationWindow)] *)
Definition applyNegation (negationDistance : nat) (score : value) : value :=
  let negationPower :=
    1 - Num.ofNat negationDistance
        / Num.ofNat (SentimentAnalyzer.negationWindow
                       (SentimentAnalyzer.config a)) in
  Number (add (Fin 0.5)
              (mul (sub (Fin 0.5) (toNumber score)) (Fin negationPower))).

Definition applyModifier (modifier score : value) : value :=
  if ltb (toNumber modifier) (Fin 0) then
    let inverted := sub (Fin 1) (toNumber score) in
    Number (if eqb inverted (Fin 0.5) then Fin 0.4 else inverted)
  else if negb (isOne modifier) then
    if ltb (Fin 0.5) (toNumber score)
    then Number (min (Fin 1)
                     (add (Fin 0.5)
                          (mul (sub (toNumber score) (Fin 0.5))
                               (toNumber modifier))))
    else if ltb (toNumber score) (Fin 0.5)
    then Number (max (Fin 0)
                     (sub (Fin 0.5)
                          (mul (sub (Fin 0.5) (toNumber score))
                               (toNumber modifier))))
    else score
  else score.

Definition advanceNegation (words : list jsstring) (i : nat) (st : Acc) : Acc :=
  if negationActive st then
    let distance := S (negationDistance st) in
    let window :=
      SentimentAnalyzer.negationWindow (SentimentAnalyzer.config a) in
    if (window <? distance)%nat
    then pushModifiers
           [NegationMarker
              (if (window <=? i)%nat then words !! (i - window)%nat else None)
              Ends]
           (setNegation false distance st)
    else setNegation true distance st
  else st.

(** The body of the token loop of [analyze]. *)
Definition scoreToken (words : list jsstring) (st : Acc) (i : nat) : Acc :=
  let word := nth i words [] in
  if Str.includes (SentimentAnalyzer.negationWords a) word
  then pushModifiers [NegationMarker (Some word) Starts]
                     (setNegation true 0 st)
  else
    let st := advanceNegation words i st in
    match wordScoreOf word with
    | None => st
    | Some wordScore =>
      let pm := prefixModifier words i word in
      let modifier := fst pm in
      let st := pushModifiers (snd pm) st in
      let score :=
        if negationActive st
        then applyNegation (negationDistance st) wordScore
        else wordScore in
      let score := applyModifier modifier score in
      let contextWords :=
        SentimentAnalyzer._getContextWords words i
          (SentimentAnalyzer.contextWindow (SentimentAnalyzer.config a)) in
      let contextScore := _analyzeWordContext contextWords word score in
      count contextScore 0.5
        (pushWord {| WordEvidence.word := word;
                     WordEvidence.originalScore := wordScore;
                     WordEvidence.modifiedScore := score;
                     WordEvidence.contextScore := contextScore;
                     WordEvidence.negated := negationActive st |} st)
    end.

(** The scores of [Object.entries(this.idioms)] are own values. *)
Definition countIdiom (st : Acc) (idiom : IdiomEvidence.t) : Acc :=
  count (Number (Fin (IdiomEvidence.score idiom))) 0.8 (pushIdiom idiom st).

Definition countEmoji (st : Acc) (emoji : jsstring) : Acc :=
  match get (SentimentAnalyzer.emojiSentiments a) emoji with
  | Some score =>
    count score 0.7
      (pushEmoji {| EmojiEvidence.emoji := emoji;
                    EmojiEvidence.score := score |} st)
  | None => st
  end.

(** [analyze] up to the end of its token loop. *)
Definition accumulate (text : jsstring) : Exc Acc :=
  let emojis := matchEmoji P text in
  let normalizedText := SentimentAnalyzer.normalize P text in
  detectedIdioms ←
    (if (0 <? size (SentimentAnalyzer.idiomPatterns a))%nat
     then _detectIdioms normalizedText
     else Ok (SentimentAnalyzer.simpleIdioms a normalizedText));
  let st := fold_left countIdiom detectedIdioms initial in
  let st := fold_left countEmoji emojis st in
  let words := Str.words normalizedText in
  Ok (fold_left (scoreToken words) (seq 0 (length words)) st).

(** [totalScore / wordCount]: a total that has become a string converts
    to [NaN]. *)
Definition finalScore (st : Acc) : number :=
  if (0 <? wordCount st)%nat
  then div (toNumber (totalScore st)) (Fin (Num.ofNat (wordCount st)))
  else Fin 0.5.

Definition finalConfidence (st : Acc) : Q :=
  if (0 <? wordCount st)%nat
  then Qmin 1 (confidence st / (Num.ofNat (wordCount st) * 0.8))
  else 0.

Definition result (st : Acc) : Result.t :=
  {| Result.score := round2 (finalScore st);
     Result.sentiment := _getSentimentFromScore (finalScore st);
     Result.confidence := Num.round2 (finalConfidence st);
     Result.details := details st |}.

Definition analyze (text : JsValue) : Exc Result.t :=
  if negb (truthy text) || negb (isString text) then Ok neutralResult
  else
    match text with
    | JString s => st ← accumulate s; Ok (result st)
    | _ => Ok neutralResult
    end.

End WithAnalyzer.

End Chain.

(** The results of the own-key definitions, as values of [Chain]. *)

Module Embed.

Definition ofWord (w : WordEvidence.t) : Chain.WordEvidence.t :=
  {| Chain.WordEvidence.word := WordEvidence.word w;
     Chain.WordEvidence.originalScore :=
       Chain.Number (Chain.Fin (WordEvidence.originalScore w));
     Chain.WordEvidence.modifiedScore :=
       Chain.Number (Chain.Fin (WordEvidence.modifiedScore w));
     Chain.WordEvidence.contextScore :=
       Chain.Number (Chain.Fin (WordEvidence.contextScore w));
     Chain.WordEvidence.negated := WordEvidence.negated w |}.

Definition ofModifier (m : ModifierEvidence) : Chain.ModifierEvidence :=
  match m with
  | PrefixModifier phrase target modification =>
    Chain.PrefixModifier phrase target (Chain.Number (Chain.Fin modification))
  | NegationMarker phrase scope => Chain.NegationMarker phrase scope
  end.

Definition ofEmoji (e : EmojiEvidence.t) : Chain.EmojiEvidence.t :=
  {| Chain.EmojiEvidence.emoji := EmojiEvidence.emoji e;
     Chain.EmojiEvidence.score :=
       Chain.Number (Chain.Fin (EmojiEvidence.score e)) |}.

Definition ofDetails (d : Details.t) : Chain.Details.t :=
  {| Chain.Details.words := map ofWord (Details.words d);
     Chain.Details.modifiers := map ofModifier (Details.modifiers d);
     Chain.Details.idioms := Details.idioms d;
     Chain.Details.emojis := map ofEmoji (Details.emojis d) |}.

Definition ofAcc (st : SentimentAnalyzer.Acc) : Chain.Acc :=
  {| Chain.negationActive := SentimentAnalyzer.negationActive st;
     Chain.negationDistance := SentimentAnalyzer.negationDistance st;
     Chain.totalScore :=
       Chain.Number (Chain.Fin (SentimentAnalyzer.totalScore st));
     Chain.wordCount := SentimentAnalyzer.wordCount st;
     Chain.confidence := SentimentAnalyzer.confidence st;
     Chain.details := ofDetails (SentimentAnalyzer.details st) |}.

Definition ofResult (r : BaseResult.t) : Chain.Result.t :=
  {| Chain.Result.score := Chain.Fin (BaseResult.score r);
     Chain.Result.sentiment := BaseResult.sentiment r;
     Chain.Result.confidence := BaseResult.confidence r;
     Chain.Result.details := ofDetails (BaseResult.details r) |}.

End Embed.

(** ** A reference host and a sample dictionary

    Concrete stand-ins for the host's built-ins, precise on the texts used
    below, so that the analyzers can be evaluated on concrete inputs. *)

Module Host.
Local Open Scope N_scope.

Definition lowerUnit (c : N) : N :=
  if (65 <=? c) && (c <=? 90) then c + 32
  else if (192 <=? c) && (c <=? 222) && negb (c =? 215) then c + 32
  else c.

Definition isHighSurrogate (c : N) : bool := (55296 <=? c) && (c <=? 56319).
Definition isLowSurrogate (c : N) : bool := (56320 <=? c) && (c <=? 57343).

(** Keycap bases, and the pictographs from U+2600 to U+27BF. *)
Definition isEmojiUnit (c : N) : bool :=
  (c =? 35) || (c =? 42) || (48 <=? c) && (c <=? 57)
  || (9728 <=? c) && (c <=? 10175).

(** Pictographs from U+1F300 to U+1FAFF, as surrogate pairs. *)
Definition isEmojiPair (hi lo : N) : bool :=
  let cp := 65536 + (hi - 55296) * 1024 + (lo - 56320) in
  (127744 <=? cp) && (cp <=? 129791).

Fixpoint emojisOf (s : jsstring) : list jsstring :=
  match s with
  | [] => []
  | c :: s' =>
    match s' with
    | d :: s'' =>
      if isHighSurrogate c && isLowSurrogate d
      then (if isEmojiPair c d then [[c; d]] else []) ++ emojisOf s''
      else (if isEmojiUnit c then [[c]] else []) ++ emojisOf s'
    | [] => if isEmojiUnit c then [[c]] else []
    end
  end.

(** Six decimals of the square root. *)
Definition sqrtApprox (x : Q) : Q :=
  (Z.sqrt (Qfloor (x * inject_Z (10 ^ 12))) # 1000000)%Q.

Definition isWordUnit (c : N) : bool :=
  (48 <=? c) && (c <=? 57) || (65 <=? c) && (c <=? 90)
  || (97 <=? c) && (c <=? 122) || (c =? 95).

Definition boundary (before after : option N) : bool :=
  xorb (from_option isWordUnit false before)
       (from_option isWordUnit false after).

(** Occurrences of a literal word between two word boundaries; [prev] is
    the unit before the current position. *)
Fixpoint countFrom (word : jsstring) (prev : option N) (s : jsstring) : nat :=
  match s with
  | [] => 0%nat
  | c :: s' =>
    ((if Str.startsWith s word
         && boundary prev (Some c)
         && boundary (last word) (s !! length word)
      then 1 else 0) + countFrom word (Some c) s')%nat
  end.

Definition platform : Platform :=
  {| toLowerCase := map lowerUnit;
     matchEmoji := emojisOf;
     sqrt := sqrtApprox;
     countMatches := fun word text => countFrom word None text |}.

Local Open Scope Q_scope.

Definition table (l : list (string * Q)) : gmap jsstring Q :=
  list_to_map (map (fun e => (Str.lit (fst e), snd e)) l).

Definition dictionary : Dictionary.t :=
  {| Dictionary.positiveWords :=
       Some (table [("excellent"%string, 0.9); ("bon"%string, 0.7);
                    ("impressionné"%string, 0.8)]);
     Dictionary.neutralWords :=
       Some (table [("normal"%string, 0.5); ("bof"%string, 0.5)]);
     Dictionary.negativeWords :=
       Some (table [("nul"%string, 0.1); ("bof"%string, 0.3);
                    ("déçu"%string, 0.2)]);
     Dictionary.compounds :=
       Some {| Dictionary.modifierPrefixes :=
                 Some (table [("très"%string, 1.5); ("pas"%string, - 1);
                              ("vraiment"%string, 1.3)]);
               Dictionary.idioms :=
                 Some [(Str.lit "avoir le cafard", 0.2);
                       (Str.lit "coup de foudre", 0.9)];
               Dictionary.idiomPatterns :=
                 Some (list_to_map
                         [(Str.lit "avoir",
                           [Str.lit "ai"; Str.lit "as"; Str.lit "a"]);
                          (Str.lit "pronouns",
                           [Str.lit "je"; Str.lit "tu"; Str.lit "il"])]);
               Dictionary.negationWords :=
                 Some [Str.lit "ne"; Str.lit "jamais"] |};
     Dictionary.emojiSentiments :=
       Some (table [("😀"%string, 0.9); ("😞"%string, 0.2)]);
     Dictionary.config := None |}.

Definition analyzer : SentimentAnalyzer.t :=
  SentimentAnalyzer.constructor dictionary.

Definition contextualAnalyzer : ContextualAnalyzer.t :=
  ContextualAnalyzer.constructor analyzer (Some dictionary).

Definition evaluator : SentimentEvaluator.t :=
  SentimentEvaluator.constructor analyzer contextualAnalyzer.

(** A dictionary with pattern data and one idiom, named like a member of
    [Object.prototype]. *)
Definition memberDictionary : Dictionary.t :=
  {| Dictionary.positiveWords := Some (table [("bon"%string, 0.7)]);
     Dictionary.neutralWords := None;
     Dictionary.negativeWords := None;
     Dictionary.compounds :=
       Some {| Dictionary.modifierPrefixes := None;
               Dictionary.idioms := Some [(Str.lit "constructor", 0.5)];
               Dictionary.idiomPatterns :=
                 Some (list_to_map [(Str.lit "avoir", [Str.lit "ai"])]);
               Dictionary.negationWords := None |};
     Dictionary.emojiSentiments := None;
     Dictionary.config := None |}.

Definition memberAnalyzer : SentimentAnalyzer.t :=
  SentimentAnalyzer.constructor memberDictionary.

End Host.

(** ** Vocabulary of the properties *)

Module Spec.
Import SentimentAnalyzer.
Local Open Scope Q_scope.

(** A polarity value of the lexicon lies in [[0,1]]. *)
Definition inUnit (x : Q) : bool := Num.leb 0 x && Num.leb x 1.

Definition tableInRange (m : gmap jsstring Q) : Prop :=
  map_Forall (fun _ s => inUnit s = true) m.

(** Every polarity value of the lexicon (words, idioms, emojis) lies in
    [[0,1]]. *)
Definition lexiconInRange (a : SentimentAnalyzer.t) : Prop :=
  tableInRange (positiveWords a) /\
  tableInRange (neutralWords a) /\
  tableInRange (negativeWords a) /\
  tableInRange (emojiSentiments a) /\
  Forall (fun entry => inUnit (snd entry) = true) (idioms a).

(** A number with at most two decimals. *)
Definition centesimal (x : Q) : Prop := exists n : Z, x == n # 100.

(** The totals of [analyze] stay between zero and the number of scored
    items. *)
Definition accInv (st : Acc) : Prop :=
  0 <= totalScore st <= Num.ofNat (wordCount st) /\ 0 <= confidence st.

(** The idiom index of [_detectIdioms] holds lexicon values only. *)
Definition infoOk (info : jsstring * Q) : Prop := inUnit (snd info) = true.
Definition tableOk (tbl : list (jsstring * list (jsstring * Q))) : Prop :=
  Forall (fun e => Forall infoOk (snd e)) tbl.
Definition idiomOk (e : IdiomEvidence.t) : Prop :=
  0 <= IdiomEvidence.score e <= 1.



(** The size of the first and of the last segment as the specification
    words it: a quarter of the sentences, rounded up. *)
Definition quarterAsClaimed (n : nat) : nat :=
  Z.to_nat (Qceiling (Num.ofNat n * 0.25)).

(** The state of the token loop of [analyze] before the token at index
    [i], from the state [st] in which the loop is entered. *)
Definition loopState (a : SentimentAnalyzer.t) (words : list jsstring)
    (st : Acc) (i : nat) : Acc :=
  fold_left (scoreToken a words) (seq 0 i) st.


End Spec.

(** ** Vocabulary of the further properties *)

Module Props.
Local Open Scope Q_scope.

(** Sum of a list of numbers. *)
Definition total (l : list Q) : Q := fold_right Qplus 0 l.

(** The scores of all the evidence a result itemizes: idioms, emojis and
    the context score of each word. *)
Definition evidenceScores (d : Details.t) : list Q :=
  map IdiomEvidence.score (Details.idioms d)
  ++ map EmojiEvidence.score (Details.emojis d)
  ++ map WordEvidence.contextScore (Details.words d).

(** The totals of [analyze] are those of the evidence pushed so far. *)
Definition accounted (st : SentimentAnalyzer.Acc) : Prop :=
  SentimentAnalyzer.wordCount st
  = length (evidenceScores (SentimentAnalyzer.details st)) /\
  SentimentAnalyzer.totalScore st
  == total (evidenceScores (SentimentAnalyzer.details st)) /\
  Num.ofNat (SentimentAnalyzer.wordCount st) * 0.5
  <= SentimentAnalyzer.confidence st
  <= Num.ofNat (SentimentAnalyzer.wordCount st) * 0.8.

(** Position of a label on the scale from "très négatif" to "très
    positif". *)
Definition rank (s : Sentiment) : nat :=
  match s with
  | TresNegatif => 0
  | Negatif => 1
  | PlutotNegatif => 2
  | LegerementNegatif => 3
  | Neutre => 4
  | LegerementPositif => 5
  | PlutotPositif => 6
  | Positif => 7
  | TresPositif => 8
  end.

(** The keyword under which [_detectIdioms] files an idiom, if it files
    it at all: the words after a leading "être", "avoir", "se" or "faire"
    when they make more than two characters, the whole idiom when it does
    not start with one of these verbs followed by more words. *)
Definition keywordOf (idiom : jsstring) : option jsstring :=
  let idiomWords := Str.words idiom in
  if (2 <=? length idiomWords)%nat
     && SentimentAnalyzer.commonVerb (nth 0 idiomWords [])
  then
    let keyword := Str.join Str.space (drop 1 idiomWords) in
    if (2 <? length keyword)%nat then Some keyword else None
  else Some idiom.

(** An idiom entry is filed under a keyword of the idiom index. *)
Definition filed (tbl : list (jsstring * list (jsstring * Q)))
    (keyword : jsstring) (info : jsstring * Q) : Prop :=
  exists infos, In (keyword, infos) tbl /\ In info infos.

(** The idiom index only holds entries of the lexicon, each under its
    keyword. *)
Definition indexSound (a : SentimentAnalyzer.t)
    (tbl : list (jsstring * list (jsstring * Q))) : Prop :=
  forall keyword infos info,
    In (keyword, infos) tbl -> In info infos ->
    In info (SentimentAnalyzer.idioms a) /\
    keywordOf (fst info) = Some keyword.

(** A lexicon in which no lookup succeeds. *)
Definition emptyLexicon (a : SentimentAnalyzer.t) : Prop :=
  SentimentAnalyzer.positiveWords a = ∅ /\
  SentimentAnalyzer.neutralWords a = ∅ /\
  SentimentAnalyzer.negativeWords a = ∅ /\
  SentimentAnalyzer.emojiSentiments a = ∅ /\
  SentimentAnalyzer.idioms a = [] /\
  SentimentAnalyzer.idiomPatterns a = ∅ /\
  SentimentAnalyzer.negationWords a = [].


(** The inputs on which the structural analyzer runs its stages: strings
    of at least ten units after trimming. *)
Definition structurallyAnalysed (v : JsValue) : bool :=
  match v with
  | JString s => (10 <=? length (Str.trim s))%nat
  | _ => false
  end.

(** A detail of an evaluation records what the two analyzers return on
    its text and whether each label is the expected one. *)
Definition records (P : Platform) (e : SentimentEvaluator.t)
    (d : SentimentEvaluator.Detail.t) : Prop :=
  exists basic contextual,
    (SentimentAnalyzer.analyze P (SentimentEvaluator.analyzer e)
       (SentimentEvaluator.Detail.text d) = Ok basic) /\
    (ContextualAnalyzer.analyze P (SentimentEvaluator.contextualAnalyzer e)
       (SentimentEvaluator.Detail.text d) = Ok contextual) /\
    (SentimentEvaluator.Detail.basicResult d
     = {| SentimentEvaluator.Summary.sentiment :=
            Some (BaseResult.sentiment basic);
          SentimentEvaluator.Summary.score := BaseResult.score basic;
          SentimentEvaluator.Summary.correct :=
            SentimentEvaluator.sameSentiment
              (Some (BaseResult.sentiment basic))
              (SentimentEvaluator.Detail.expected d) |}) /\
    (SentimentEvaluator.Detail.contextualResult d
     = {| SentimentEvaluator.Summary.sentiment :=
            ContextualResult.contextualSentiment contextual;
          SentimentEvaluator.Summary.score :=
            ContextualResult.contextualScore contextual;
          SentimentEvaluator.Summary.correct :=
            SentimentEvaluator.sameSentiment
              (ContextualResult.contextualSentiment contextual)
              (SentimentEvaluator.Detail.expected d) |}).

(** No string of the list names a member of [Object.prototype]. *)
Definition plainKeys (l : list jsstring) : bool :=
  forallb (fun key => negb (Chain.inherited key)) l.

(** No idiom of the lexicon is filed under the name of a member of
    [Object.prototype]. *)
Definition plainIdioms (a : SentimentAnalyzer.t) : bool :=
  forallb (fun entry : jsstring * Q =>
             match keywordOf (fst entry) with
             | Some keyword => negb (Chain.inherited keyword)
             | None => true
             end)
          (SentimentAnalyzer.idioms a).

(** A run of the lexical analysis that reads no inherited member: no
    token of the normalized text and no matched emoji names a member of
    [Object.prototype], nor does an idiom keyword when the idiom index is
    built. *)
Definition plain (P : Platform) (a : SentimentAnalyzer.t) (text : jsstring)
  : Prop :=
  plainKeys (Str.words (SentimentAnalyzer.normalize P text)) = true /\
  plainKeys (matchEmoji P text) = true /\
  ((0 <? size (SentimentAnalyzer.idiomPatterns a))%nat = true ->
   plainIdioms a = true).

(** How many pieces of evidence a result itemizes. *)
Definition evidenceCount (d : Chain.Details.t) : nat :=
  length (Chain.Details.idioms d) + length (Chain.Details.emojis d)
  + length (Chain.Details.words d).

(** The counters of [analyze] are those of the evidence pushed so far:
    one item counted per piece of evidence, 0.8 of confidence per idiom,
    0.7 per emoji and 0.5 per word. *)
Definition tallied (st : Chain.Acc) : Prop :=
  let d := Chain.details st in
  Chain.wordCount st = evidenceCount d /\
  Chain.confidence st
  == 0.8 * Num.ofNat (length (Chain.Details.idioms d))
     + 0.7 * Num.ofNat (length (Chain.Details.emojis d))
     + 0.5 * Num.ofNat (length (Chain.Details.words d)).

(** Impact factors listed by decreasing magnitude. *)
Fixpoint byDecreasingMagnitude (l : list SentimentEvaluator.ImpactFactor.t)
  : Prop :=
  match l with
  | [] => True
  | x :: l' =>
    Forall (fun y =>
              (Qabs (SentimentEvaluator.ImpactFactor.impact y)
               <= Qabs (SentimentEvaluator.ImpactFactor.impact x))%Q) l'
    /\ byDecreasingMagnitude l'
  end.

(** The texts in which no token can name a member of [Object.prototype]:
    tokens being lower-cased, only "constructor" and "__proto__" are such
    names, and every string that the structural stages analyse is a piece
    of the lower-cased text. *)
Definition memberFree (P : Platform) (text : jsstring) : bool :=
  negb (Str.contains (toLowerCase P text) (Str.lit "constructor"))
  && negb (Str.contains (toLowerCase P text) (Str.lit "__proto__")).

End Props.

(** * Properties *)

(** ** The embedding on sample values *)

Example lit_etre : Str.lit "être" = [234; 116; 114; 101]%N.
Proof. reflexivity. Qed.

Example split_words :
  Str.words (Str.lit "a  b") = [Str.lit "a"; []; Str.lit "b"].
Proof. reflexivity. Qed.

Example split_marker :
  Str.split (Str.lit "oui mais non mais si") (Str.lit "mais")
  = [Str.lit "oui "; Str.lit " non "; Str.lit " si"].
Proof. reflexivity. Qed.

Example split_sentences :
  ContextualAnalyzer._splitIntoSentences (Str.lit " Bon.. Très bon !  ")
  = [Str.lit "Bon"; Str.lit "Très bon"].
Proof. reflexivity. Qed.

Example round2_tie : (Num.round2 0.625 == 0.63)%Q.
Proof. reflexivity. Qed.

Example analyze_tres_bon :
  exists r,
    SentimentAnalyzer.analyze Host.platform Host.analyzer
      (JString (Str.lit "C'est très bon 😀 !")) = Ok r /\
    (BaseResult.score r == 0.85)%Q /\
    BaseResult.sentiment r = TresPositif /\
    (BaseResult.confidence r == 0.75)%Q /\
    map WordEvidence.word (Details.words (BaseResult.details r))
    = [Str.lit "bon"] /\
    map EmojiEvidence.emoji (Details.emojis (BaseResult.details r))
    = [Str.lit "😀"].
Proof. eexists. split; [vm_compute; reflexivity|]. repeat split. Qed.

Example analyze_idiom :
  exists r,
    SentimentAnalyzer.analyze Host.platform Host.analyzer
      (JString (Str.lit "Tu as le cafard")) = Ok r /\
    map IdiomEvidence.phrase (Details.idioms (BaseResult.details r))
    = [Str.lit "avoir le cafard"] /\
    BaseResult.sentiment r = Negatif.
Proof. eexists. split; [vm_compute; reflexivity|]. repeat split. Qed.

(** Negation and prefix modifier do not commute: the source's order
    (negation first) gives 0 here, the other order 0.1. *)
Example negation_then_modifier_order :
  (SentimentAnalyzer.applyModifier 3
     (SentimentAnalyzer.applyNegation Host.analyzer 1 0.9) == 0)%Q /\
  (SentimentAnalyzer.applyNegation Host.analyzer 1
     (SentimentAnalyzer.applyModifier 3 0.9) == 0.1)%Q.
Proof. split; reflexivity. Qed.

(** ** Numbers *)

Section NumFacts.
Local Open Scope Q_scope.

Lemma ltb_lt x y : Num.ltb x y = true <-> x < y.
Proof.
  unfold Num.ltb. rewrite negb_true_iff, <- not_true_iff_false, Qle_bool_iff.
  split; [apply Qnot_le_lt | apply Qlt_not_le].
Qed.

Lemma ltb_ge x y : Num.ltb x y = false <-> y <= x.
Proof.
  unfold Num.ltb. rewrite negb_false_iff. apply Qle_bool_iff.
Qed.

Lemma leb_le x y : Num.leb x y = true <-> x <= y.
Proof. apply Qle_bool_iff. Qed.

Lemma leb_gt x y : Num.leb x y = false <-> y < x.
Proof.
  unfold Num.leb. rewrite <- not_true_iff_false, Qle_bool_iff.
  split; [apply Qnot_le_lt | apply Qlt_not_le].
Qed.

Lemma eqb_eq x y : Num.eqb x y = true <-> x == y.
Proof. apply Qeq_bool_iff. Qed.

Lemma eqb_neq x y : Num.eqb x y = false <-> ~ x == y.
Proof.
  unfold Num.eqb. rewrite <- not_true_iff_false, Qeq_bool_iff. tauto.
Qed.

Lemma orElse_zero x : Num.orElse x 0 == x.
Proof.
  unfold Num.orElse. destruct (Num.eqb x 0) eqn:E; [|reflexivity].
  apply eqb_eq in E. symmetry. exact E.
Qed.

Lemma ofNat_nonneg n : 0 <= Num.ofNat n.
Proof. unfold Num.ofNat, Qle. simpl. lia. Qed.

Lemma ofNat_pos n : (0 < n)%nat -> 0 < Num.ofNat n.
Proof. unfold Num.ofNat, Qlt. simpl. lia. Qed.

Lemma ofNat_le n m : (n <= m)%nat -> Num.ofNat n <= Num.ofNat m.
Proof. unfold Num.ofNat, Qle. simpl. lia. Qed.

Lemma ofNat_S n : Num.ofNat (S n) == Num.ofNat n + 1.
Proof.
  unfold Num.ofNat. rewrite Nat2Z.inj_succ, <- Z.add_1_r, inject_Z_plus.
  reflexivity.
Qed.




Lemma toFixedUnits2_range x :
  0 <= x <= 1 -> (0 <= Num.toFixedUnits 2 x <= 100)%Z.
Proof.
  intros [H0 H1]. unfold Num.toFixedUnits.
  change (inject_Z (10 ^ 2)) with (inject_Z 100).
  split.
  - rewrite <- (Qfloor_Z 0). apply Qfloor_resp_le.
    change (inject_Z 0) with 0. change (inject_Z 100) with 100. lra.
  - assert (H : (Qfloor (x * inject_Z 100 + (1 # 2)) <= Qfloor (201 # 2))%Z).
    { apply Qfloor_resp_le. change (inject_Z 100) with 100. lra. }
    exact H.
Qed.

Lemma round2_unit x : 0 <= x <= 1 -> 0 <= Num.round2 x <= 1.
Proof.
  intros H. unfold Num.round2.
  destruct (Num.ltb x 0) eqn:E.
  - apply ltb_lt in E. lra.
  - pose proof (toFixedUnits2_range x H) as [A B].
    unfold Qle. simpl. lia.
Qed.

Lemma round2_centesimal x : Spec.centesimal (Num.round2 x).
Proof.
  unfold Num.round2. destruct (Num.ltb x 0).
  - exists (- Num.toFixedUnits 2 (- x))%Z. reflexivity.
  - eexists. reflexivity.
Qed.

End NumFacts.

(** ** The error monad *)

Lemma bind_Ok {A B} (m : Exc A) (f : A -> Exc B) (b : B) :
  m ≫= f = Ok b -> exists a, m = Ok a /\ f a = Ok b.
Proof. destruct m as [a|e]; [eauto | discriminate]. Qed.

Lemma mapM_total {A B} (f : A -> Exc B) (l : list A) :
  (forall x, In x l -> exists y, f x = Ok y) ->
  exists ys, mapM f l = Ok ys.
Proof.
  induction l as [|x l IH]; intros H; simpl.
  - eexists. reflexivity.
  - destruct (H x) as [y Hy]; [now left|].
    destruct IH as [ys Hys]; [intros z Hz; apply H; now right|].
    rewrite Hy. simpl. rewrite Hys. simpl. eexists. reflexivity.
Qed.

Lemma mapM_Ok {A B} (f : A -> Exc B) (l : list A) (ys : list B) :
  mapM f l = Ok ys -> Forall2 (fun x y => f x = Ok y) l ys.
Proof.
  revert ys. induction l as [|x l IH]; simpl; intros ys H.
  - injection H as <-. constructor.
  - apply bind_Ok in H as (y & Hy & H).
    apply bind_Ok in H as (k & Hk & H).
    injection H as <-. constructor; auto.
Qed.

Lemma bind_total {A B} (m : Exc A) (f : A -> Exc B) :
  (exists a, m = Ok a) -> (forall a, exists b, f a = Ok b) ->
  exists b, m ≫= f = Ok b.
Proof. intros [x ->] H. apply H. Qed.

Ltac inv_bind H :=
  let x := fresh "x" in
  let Hx := fresh "H" x in
  apply bind_Ok in H as (x & Hx & H).

(** ** The lexical scorer always returns *)

Section LexicalTotal.
Import SentimentAnalyzer.
Context (P : Platform) (a : SentimentAnalyzer.t).

Lemma candidateFound_total words i firstWord k :
  (k < i)%nat -> (i <= length words)%nat ->
  exists b, candidateFound a words i firstWord k = Ok b.
Proof.
  intros Hk Hi. unfold candidateFound.
  destruct (lookup_lt_is_Some_2 words k) as [w Hw]; [lia|].
  rewrite Hw.
  destruct (k + 1 <? i)%nat eqn:E.
  - apply Nat.ltb_lt in E.
    destruct (lookup_lt_is_Some_2 words (k + 1)) as [w' Hw']; [lia|].
    rewrite Hw'. unfold andM, orM, startsWithM. simpl.
    repeat (match goal with
            | |- context [if ?b then _ else _] => destruct b
            end; simpl); eauto.
  - unfold andM, orM, startsWithM. simpl.
    repeat (match goal with
            | |- context [if ?b then _ else _] => destruct b
            end; simpl); eauto.
Qed.

Lemma scanVerb_total words i firstWord ks :
  (i <= length words)%nat -> Forall (fun k => (k < i)%nat) ks ->
  exists b, scanVerb a words i firstWord ks = Ok b.
Proof.
  intros Hi. induction 1 as [|k ks Hk _ IH]; simpl; [eauto|].
  destruct (candidateFound_total words i firstWord k Hk Hi) as [b Hb].
  rewrite Hb. simpl. destruct b; eauto.
Qed.

Lemma registerIdiom_total words i keywordWords info :
  (i <= length words)%nat ->
  exists l, registerIdiom a words i keywordWords info = Ok l.
Proof.
  intros Hi. unfold registerIdiom.
  destruct (commonVerb _); [|eauto].
  edestruct (scanVerb_total words i) as [b Hb]; [exact Hi| |rewrite Hb].
  - apply List.Forall_forall. intros k Hk. apply in_seq in Hk. lia.
  - simpl. eauto.
Qed.

Lemma _detectIdioms_total text :
  exists l, _detectIdioms a text = Ok l.
Proof.
  unfold _detectIdioms.
  apply bind_total; [|intros; eexists; reflexivity].
  apply mapM_total. intros i Hi. apply in_seq in Hi.
  apply bind_total; [|intros; eexists; reflexivity].
  apply mapM_total. intros entry _.
  destruct (matchesKeyword _ _ _); [|eexists; reflexivity].
  apply bind_total; [|intros; eexists; reflexivity].
  apply mapM_total. intros info _. apply registerIdiom_total. lia.
Qed.

Lemma accumulate_total text : exists st, accumulate P a text = Ok st.
Proof.
  unfold accumulate.
  destruct (0 <? size (idiomPatterns a))%nat.
  - destruct (_detectIdioms_total (normalize P text)) as [l Hl].
    rewrite Hl. simpl. eauto.
  - simpl. eauto.
Qed.

Lemma analyze_total v : exists r, analyze P a v = Ok r.
Proof.
  unfold analyze.
  destruct (negb (truthy v) || negb (isString v)); [eauto|].
  destruct v; eauto.
  destruct (accumulate_total s) as [st Hst]. rewrite Hst. simpl. eauto.
Qed.

Lemma analyze_not_text v :
  isString v = false \/ v = JString [] ->
  analyze P a v = Ok neutralResult.
Proof.
  intros [H | ->]; unfold analyze.
  - rewrite H. rewrite orb_true_r. reflexivity.
  - reflexivity.
Qed.

Lemma analyze_text s :
  s <> [] ->
  analyze P a (JString s) = st ← accumulate P a s; Ok (result st).
Proof. destruct s; [congruence | reflexivity]. Qed.

End LexicalTotal.


(** ** Every score of the lexical scorer lies in the unit interval *)

Section QBounds.
Local Open Scope Q_scope.

Lemma Qmin_between lo hi b y :
  lo <= b -> lo <= y -> b <= hi -> lo <= Qmin b y <= hi.
Proof.
  intros. split; [apply Q.min_glb; assumption|].
  apply Qle_trans with b; [apply Q.le_min_l | assumption].
Qed.

Lemma Qmax_between lo hi b y :
  lo <= b -> b <= hi -> y <= hi -> lo <= Qmax b y <= hi.
Proof.
  intros. split; [|apply Q.max_lub; assumption].
  apply Qle_trans with b; [assumption | apply Q.le_max_l].
Qed.

Lemma inUnit_spec x : Spec.inUnit x = true <-> 0 <= x <= 1.
Proof.
  unfold Spec.inUnit. rewrite andb_true_iff, !leb_le. tauto.
Qed.

End QBounds.

(** Case analysis on a comparison of the source, with the comparison
    turned into an order fact. *)
Ltac qtest b :=
  let E := fresh "E" in
  lazymatch b with
  | Num.ltb ?x ?y =>
    destruct (Num.ltb x y) eqn:E;
    [apply ltb_lt in E | apply ltb_ge in E]
  | Num.leb ?x ?y =>
    destruct (Num.leb x y) eqn:E;
    [apply leb_le in E | apply leb_gt in E]
  | Num.eqb ?x ?y =>
    destruct (Num.eqb x y) eqn:E;
    [apply eqb_eq in E | apply eqb_neq in E]
  end; simpl.

Section LexicalBounds.
Import SentimentAnalyzer.
Local Open Scope Q_scope.
Context (P : Platform) (a : SentimentAnalyzer.t).
Hypothesis Hrange : Spec.lexiconInRange a.

Lemma wordScoreOf_range w s : wordScoreOf a w = Some s -> 0 <= s <= 1.
Proof.
  destruct Hrange as (Hp & Hn & Hg & _).
  unfold wordScoreOf. intros H. apply inUnit_spec.
  destruct (positiveWords a !! w) as [x|] eqn:E1.
  { injection H as <-. exact (Hp _ _ E1). }
  destruct (negativeWords a !! w) as [x|] eqn:E2.
  { injection H as <-. exact (Hg _ _ E2). }
  exact (Hn _ _ H).
Qed.

Lemma applyNegation_range d s :
  (1 <= d <= negationWindow (config a))%nat -> 0 <= s <= 1 ->
  0 <= applyNegation a d s <= 1.
Proof.
  intros [Hd HW] Hs. unfold applyNegation.
  set (W := negationWindow (config a)) in *.
  assert (HWpos : 0 < Num.ofNat W) by (apply ofNat_pos; lia).
  assert (Hq : 0 <= Num.ofNat d / Num.ofNat W <= 1).
  { split.
    - apply Qle_shift_div_l; [exact HWpos|]. pose proof (ofNat_nonneg d). lra.
    - apply Qle_shift_div_r; [exact HWpos|].
      pose proof (ofNat_le d W HW). lra. }
  set (q := Num.ofNat d / Num.ofNat W) in *. nra.
Qed.

Lemma applyModifier_range m s : 0 <= s <= 1 -> 0 <= applyModifier m s <= 1.
Proof.
  intros Hs. unfold applyModifier.
  qtest (Num.ltb m 0).
  { qtest (Num.eqb (1 - s) 0.5); lra. }
  qtest (Num.eqb m 1); [lra|].
  qtest (Num.ltb 0.5 s).
  { apply Qmin_between; [lra| nra |lra]. }
  qtest (Num.ltb s 0.5); [|lra].
  apply Qmax_between; [lra|lra| nra].
Qed.

Lemma contextual_range m s :
  0 <= s <= 1 ->
  0 <= (if Num.ltb 0 m && Num.ltb 0.5 s then Qmin 1 (s + m * 0.5)
        else if Num.ltb m 0 && Num.ltb s 0.5 then Qmax 0 (s + m * 0.5)
        else if Num.ltb 0 m && Num.ltb s 0.5 then Qmin 0.5 (s + m * 0.3)
        else if Num.ltb m 0 && Num.ltb 0.5 s then Qmax 0.5 (s + m * 0.3)
        else s) <= 1.
Proof.
  intros Hs.
  destruct (Num.ltb 0 m) eqn:E1; [apply ltb_lt in E1 | apply ltb_ge in E1];
  destruct (Num.ltb 0.5 s) eqn:E2;
    [apply ltb_lt in E2 | apply ltb_ge in E2 | apply ltb_lt in E2
     | apply ltb_ge in E2];
  destruct (Num.ltb m 0) eqn:E3;
    try (apply ltb_lt in E3); try (apply ltb_ge in E3);
  destruct (Num.ltb s 0.5) eqn:E4;
    try (apply ltb_lt in E4); try (apply ltb_ge in E4);
  simpl; try lra;
  first [ apply Qmin_between; lra | apply Qmax_between; lra ].
Qed.

Lemma _analyzeWordContext_range ctx w s :
  0 <= s <= 1 -> 0 <= _analyzeWordContext a ctx w s <= 1.
Proof.
  intros Hs. unfold _analyzeWordContext.
  destruct (length ctx =? 0)%nat; [exact Hs|].
  match goal with |- context [fold_left ?f ?l ?i] =>
    generalize (fold_left f l i) end.
  intros [m n]. simpl.
  destruct (n =? 0)%nat; [exact Hs|].
  apply (contextual_range m s Hs).
Qed.

End LexicalBounds.

Lemma fold_left_invariant {A B} (I : A -> Prop) (f : A -> B -> A) l st :
  (forall st x, In x l -> I st -> I (f st x)) ->
  I st -> I (fold_left f l st).
Proof.
  revert st. induction l as [|x l IH]; simpl; intros st Hf Hst; [exact Hst|].
  apply IH; [intros; apply Hf; auto | apply Hf; auto].
Qed.

Lemma mapM_Forall {A B} (f : A -> Exc B) (Q : B -> Prop) l ys :
  (forall x y, In x l -> f x = Ok y -> Q y) ->
  mapM f l = Ok ys -> Forall Q ys.
Proof.
  intros Hf H. apply mapM_Ok in H.
  induction H as [|x y l ys Hxy _ IH]; constructor.
  - apply (Hf x); [now left | exact Hxy].
  - apply IH. intros; eapply Hf; eauto. now right.
Qed.

Section LexicalInvariant.
Import SentimentAnalyzer.
Local Open Scope Q_scope.
Context (P : Platform) (a : SentimentAnalyzer.t).
Hypothesis Hrange : Spec.lexiconInRange a.

Lemma addKeyword_ok keyword info tbl :
  Spec.infoOk info -> Spec.tableOk tbl -> Spec.tableOk (addKeyword keyword info tbl).
Proof.
  intros Hi. induction 1 as [|[k infos] tbl Hk Ht IH]; simpl.
  - repeat constructor. exact Hi.
  - destruct (Str.eqb k keyword); constructor; simpl in *; auto.
    apply Forall_app. split; [exact Hk | repeat constructor; exact Hi].
Qed.

Lemma indexIdiom_ok tbl entry :
  Spec.infoOk entry -> Spec.tableOk tbl -> Spec.tableOk (indexIdiom tbl entry).
Proof.
  intros He Ht. unfold indexIdiom.
  repeat match goal with
         | |- context [if ?b then _ else _] => destruct b
         end; auto using addKeyword_ok.
Qed.

Lemma idiomKeywords_ok : Spec.tableOk (fold_left indexIdiom (idioms a) []).
Proof.
  destruct Hrange as (_ & _ & _ & _ & Hi).
  apply fold_left_invariant; [|constructor].
  intros tbl entry Hin Ht. apply indexIdiom_ok; [|exact Ht].
  rewrite List.Forall_forall in Hi. apply Hi, Hin.
Qed.

Lemma registerIdiom_range words i keywordWords info l :
  Spec.infoOk info ->
  registerIdiom a words i keywordWords info = Ok l -> Forall Spec.idiomOk l.
Proof.
  intros Hi. apply inUnit_spec in Hi. unfold registerIdiom.
  destruct (commonVerb _).
  - intros H. inv_bind H. injection H as <-.
    destruct x; repeat constructor; apply Hi.
  - intros H. injection H as <-. repeat constructor; apply Hi.
Qed.

Lemma _detectIdioms_range text l :
  _detectIdioms a text = Ok l -> Forall Spec.idiomOk l.
Proof.
  unfold _detectIdioms. intros H. inv_bind H. injection H as <-.
  apply Forall_concat.
  eapply mapM_Forall; [|exact Hx]. clear Hx x.
  intros i l _ H. simpl in H. inv_bind H. injection H as <-.
  apply Forall_concat.
  eapply mapM_Forall; [|exact Hx]. clear Hx x.
  intros entry l Hin H. simpl in H.
  destruct (matchesKeyword _ _ _); [|injection H as <-; constructor].
  inv_bind H. injection H as <-.
  apply Forall_concat.
  eapply mapM_Forall; [|exact Hx]. clear Hx x.
  intros info l Hinfo H.
  eapply registerIdiom_range; [|exact H].
  pose proof idiomKeywords_ok as Hok.
  unfold Spec.tableOk in Hok. rewrite List.Forall_forall in Hok.
  specialize (Hok entry Hin). rewrite List.Forall_forall in Hok.
  apply Hok, Hinfo.
Qed.

Lemma simpleIdioms_range text : Forall Spec.idiomOk (simpleIdioms a text).
Proof.
  destruct Hrange as (_ & _ & _ & _ & Hi).
  unfold simpleIdioms. induction Hi as [|entry l He _ IH]; simpl.
  - constructor.
  - destruct (Str.contains _ _); simpl; [constructor|]; auto.
    apply inUnit_spec, He.
Qed.

Lemma count_inv s w st :
  0 <= s <= 1 -> 0 <= w -> Spec.accInv st -> Spec.accInv (count s w st).
Proof.
  unfold Spec.accInv. intros Hs Hw [Ht Hc]. simpl.
  rewrite ofNat_S. split; lra.
Qed.

Lemma countIdiom_inv st idiom :
  Spec.idiomOk idiom -> Spec.accInv st -> Spec.accInv (countIdiom st idiom).
Proof. intros Hi Hst. apply count_inv; [exact Hi | lra | exact Hst]. Qed.

Lemma countEmoji_inv st emoji :
  Spec.accInv st -> Spec.accInv (countEmoji a st emoji).
Proof.
  destruct Hrange as (_ & _ & _ & He & _).
  intros Hst. unfold countEmoji.
  destruct (emojiSentiments a !! emoji) as [s|] eqn:E; [|exact Hst].
  apply count_inv; [|lra|exact Hst].
  apply inUnit_spec. exact (He _ _ E).
Qed.

Lemma advanceNegation_spec words i st :
  let st' := advanceNegation a words i st in
  totalScore st' = totalScore st /\ wordCount st' = wordCount st /\
  confidence st' = confidence st /\
  Details.words (details st') = Details.words (details st) /\
  (negationActive st' = true ->
   negationActive st = true /\
   negationDistance st' = S (negationDistance st) /\
   (1 <= negationDistance st' <= negationWindow (config a))%nat).
Proof.
  unfold advanceNegation.
  destruct (negationActive st) eqn:Hact.
  - destruct (_ <? _)%nat eqn:E; simpl.
    + repeat split; discriminate.
    + apply Nat.ltb_ge in E. repeat split; auto; lia.
  - simpl. rewrite Hact. repeat split; discriminate.
Qed.

Lemma scoreToken_inv words st i :
  Spec.accInv st -> Spec.accInv (scoreToken a words st i).
Proof.
  intros Hst. unfold scoreToken.
  destruct (Str.includes _ _); [exact Hst|].
  pose proof (advanceNegation_spec words i st) as (Ht & Hn & Hc & _ & Hact).
  set (st1 := advanceNegation a words i st) in *.
  assert (Hst1 : Spec.accInv st1).
  { unfold Spec.accInv. rewrite Ht, Hn, Hc. exact Hst. }
  destruct (wordScoreOf a (nth i words [])) as [ws|] eqn:Hw; [|exact Hst1].
  apply count_inv; [|lra|exact Hst1].
  apply _analyzeWordContext_range, applyModifier_range.
  simpl. destruct (negationActive st1) eqn:E.
  - apply applyNegation_range; [apply Hact; reflexivity|].
    eapply wordScoreOf_range; eauto.
  - eapply wordScoreOf_range; eauto.
Qed.

Lemma accumulate_inv text st :
  accumulate P a text = Ok st -> Spec.accInv st.
Proof.
  unfold accumulate. intros H. inv_bind H. injection H as <-.
  apply fold_left_invariant; [intros; apply scoreToken_inv; assumption|].
  apply fold_left_invariant; [intros; apply countEmoji_inv; assumption|].
  assert (Hx' : Forall Spec.idiomOk x).
  { destruct (0 <? size (idiomPatterns a))%nat.
    - eapply _detectIdioms_range; eauto.
    - injection Hx as <-. apply simpleIdioms_range. }
  rewrite List.Forall_forall in Hx'.
  apply fold_left_invariant.
  - intros; apply countIdiom_inv; auto.
  - repeat split; apply (Qle_refl 0).
Qed.

Lemma finalScore_range st :
  Spec.accInv st -> 0 <= finalScore st <= 1.
Proof.
  intros [[H0 H1] _]. unfold finalScore.
  destruct (0 <? wordCount st)%nat eqn:E; [|lra].
  apply Nat.ltb_lt in E. pose proof (ofNat_pos _ E) as Hpos. split.
  - apply Qle_shift_div_l; [exact Hpos | lra].
  - apply Qle_shift_div_r; [exact Hpos | lra].
Qed.

Lemma finalConfidence_range st :
  Spec.accInv st -> 0 <= finalConfidence st <= 1.
Proof.
  intros [_ Hc]. unfold finalConfidence.
  destruct (0 <? wordCount st)%nat eqn:E; [|lra].
  apply Nat.ltb_lt in E. pose proof (ofNat_pos _ E) as Hpos.
  apply Qmin_between; [lra| |lra].
  apply Qle_shift_div_l; [nra | lra].
Qed.

Lemma analyze_range v r :
  analyze P a v = Ok r ->
  0 <= BaseResult.score r <= 1 /\ 0 <= BaseResult.confidence r <= 1.
Proof.
  unfold analyze.
  destruct (negb (truthy v) || negb (isString v)).
  { intros H. injection H as <-. simpl. lra. }
  destruct v; try (intros H; injection H as <-; simpl; lra).
  intros H. inv_bind H. injection H as <-.
  apply accumulate_inv in Hx. simpl. split.
  - apply round2_unit, finalScore_range, Hx.
  - apply round2_unit, finalConfidence_range, Hx.
Qed.

End LexicalInvariant.

(** ** The structural analyzer always returns *)

Section StructuralTotal.
Import ContextualAnalyzer.
Local Open Scope Q_scope.
Context (P : Platform) (c : ContextualAnalyzer.t).

Lemma baseAnalyze_total text : exists r, baseAnalyze P c text = Ok r.
Proof. apply analyze_total. Qed.

Lemma scoreSegment_total segment : exists s, scoreSegment P c segment = Ok s.
Proof.
  unfold scoreSegment. apply bind_total; [apply baseAnalyze_total|].
  intros; eexists; reflexivity.
Qed.

Lemma _analyzeSegments_total segments :
  exists sa, _analyzeSegments P c segments = Ok sa.
Proof.
  unfold _analyzeSegments. apply bind_total.
  - apply mapM_total. intros; apply scoreSegment_total.
  - intros; eexists; reflexivity.
Qed.



Lemma firstOr_Some {A} (preferred all : list A) (i : nat) :
  (i < length all)%nat ->
  exists x,
    (if (0 <? length preferred)%nat then preferred !! 0%nat else all !! i)
    = Some x.
Proof.
  intros Hi. destruct (0 <? length preferred)%nat eqn:E.
  - apply Nat.ltb_lt in E. apply lookup_lt_is_Some_2, E.
  - apply lookup_lt_is_Some_2, Hi.
Qed.

Lemma _analyzeProgression_total sa :
  exists pf,
    _analyzeProgression sa = Ok pf /\
    ((1 < length (SegmentAnalysis.segments sa))%nat ->
     is_Some (ProgressionFactor.startScore pf) /\
     is_Some (ProgressionFactor.endScore pf)).
Proof.
  unfold _analyzeProgression.
  destruct (length (SegmentAnalysis.segments sa) <=? 1)%nat eqn:E.
  - apply Nat.leb_le in E. eexists. split; [reflexivity | lia].
  - apply Nat.leb_gt in E.
    match goal with |- context [required ?o ≫= _] =>
      destruct (firstOr_Some
                  (List.filter
                     (fun s => bool_decide (SegmentScore.type s = Beginning))
                     (SegmentAnalysis.segments sa))
                  (SegmentAnalysis.segments sa) 0) as [x Hx]; [lia|]
    end.
    rewrite Hx. simpl.
    destruct (firstOr_Some
                (List.filter
                   (fun s => bool_decide (SegmentScore.type s = End))
                   (SegmentAnalysis.segments sa))
                (SegmentAnalysis.segments sa)
                (length (SegmentAnalysis.segments sa) - 1)) as [y Hy]; [lia|].
    rewrite Hy. simpl.
    eexists. split; [reflexivity|]. simpl. eauto.
Qed.

Lemma _analyzeConclusion_total segments :
  exists cf, _analyzeConclusion P c segments = Ok cf.
Proof.
  unfold _analyzeConclusion.
  destruct (List.filter _ segments) as [|conclusion l];
    [eexists; reflexivity|].
  apply bind_total; [apply baseAnalyze_total|]. intros ca.
  apply bind_total; [|intros; eexists; reflexivity].
  destruct (0 <? _)%nat; [|eexists; reflexivity].
  apply bind_total; [|intros; eexists; reflexivity].
  apply mapM_total. intros; apply baseAnalyze_total.
Qed.

Lemma _analyzeTransitions_total text baseResult :
  exists tf, _analyzeTransitions P c text baseResult = Ok tf.
Proof.
  unfold _analyzeTransitions.
  destruct (sortByWeight _) as [|[strongest n] l]; [eexists; reflexivity|].
  destruct (_ || _); [eexists; reflexivity|].
  apply bind_total; [apply baseAnalyze_total|]. intros ba.
  apply bind_total; [apply baseAnalyze_total|]. intros aa.
  eexists; reflexivity.
Qed.

Lemma _analyzeTrends_total sa pf :
  ((1 < length (SegmentAnalysis.segments sa))%nat ->
   is_Some (ProgressionFactor.startScore pf) /\
   is_Some (ProgressionFactor.endScore pf)) ->
  exists tr, _analyzeTrends sa pf = Ok tr.
Proof.
  intros H. unfold _analyzeTrends.
  destruct (length (SegmentAnalysis.segments sa) <=? 1)%nat eqn:E;
    [eexists; reflexivity|].
  apply Nat.leb_gt in E. destruct (H E) as [[s Hs] [e He]].
  rewrite Hs, He. simpl. eexists; reflexivity.
Qed.

(** The stages of [analyze] on a long enough text, and how the result is
    assembled from them. *)
Lemma analyzeStructure_stages text baseResult :
  exists sa pf cf tf tr,
    _analyzeSegments P c (_segmentText (_splitIntoSentences text)) = Ok sa /\
    _analyzeProgression sa = Ok pf /\
    _analyzeConclusion P c (_segmentText (_splitIntoSentences text)) = Ok cf /\
    _analyzeTransitions P c text baseResult = Ok tf /\
    _analyzeTrends sa pf = Ok tr /\
    let score :=
      Qmax 0 (Qmin 1
        (_calculateContextualScore c (BaseResult.score baseResult) pf cf
           (_analyzeIntensity P baseResult) tf
           (_identifyNarrativePattern c pf))) in
    analyzeStructure P c text baseResult =
    Ok {| ContextualResult.score := BaseResult.score baseResult;
          ContextualResult.sentiment := BaseResult.sentiment baseResult;
          ContextualResult.confidence := BaseResult.confidence baseResult;
          ContextualResult.details := BaseResult.details baseResult;
          ContextualResult.baseScore := BaseResult.score baseResult;
          ContextualResult.contextualScore := score;
          ContextualResult.contextFactors :=
            {| ContextFactors.segments := Some sa;
               ContextFactors.progression := Some pf;
               ContextFactors.conclusion := Some cf;
               ContextFactors.intensity :=
                 Some (_analyzeIntensity P baseResult);
               ContextFactors.transitions := Some tf;
               ContextFactors.narrative :=
                 Some (_identifyNarrativePattern c pf) |};
          ContextualResult.contextualSentiment :=
            Some (_getSentimentFromScore score);
          ContextualResult.trends := Some tr |}.
Proof.
  destruct (_analyzeSegments_total (_segmentText (_splitIntoSentences text)))
    as [sa Hsa].
  destruct (_analyzeProgression_total sa) as (pf & Hpf & Hsome).
  destruct (_analyzeConclusion_total
              (_segmentText (_splitIntoSentences text))) as [cf Hcf].
  destruct (_analyzeTransitions_total text baseResult) as [tf Htf].
  destruct (_analyzeTrends_total sa pf Hsome) as [tr Htr].
  exists sa, pf, cf, tf, tr. repeat (split; [assumption|]).
  unfold analyzeStructure. rewrite Hsa. simpl. rewrite Hpf. simpl.
  rewrite Hcf. simpl. rewrite Htf. simpl. rewrite Htr. reflexivity.
Qed.

Lemma trim_length s : (length (Str.trim s) <= length s)%nat.
Proof.
  assert (H : forall u, (length (Str.trimStart u) <= length u)%nat).
  { induction u as [|x u IH]; simpl; [lia|].
    destruct (Str.isWhiteSpace x); simpl; lia. }
  unfold Str.trim. rewrite length_rev.
  etransitivity; [apply H|]. rewrite length_rev. apply H.
Qed.

Lemma analyze_short v :
  (isString v = false \/
   exists s, v = JString s /\ (length (Str.trim s) < 10)%nat) ->
  analyze P c v =
  baseResult ← SentimentAnalyzer.analyze P (baseAnalyzer c) v;
  Ok (enhance baseResult).
Proof.
  intros [H | (s & -> & H)]; unfold analyze.
  - destruct v; try reflexivity. discriminate.
  - apply Nat.ltb_lt in H. rewrite H, orb_true_r. reflexivity.
Qed.

Lemma analyze_long s :
  (10 <= length (Str.trim s))%nat ->
  analyze P c (JString s) =
  baseResult ← SentimentAnalyzer.analyze P (baseAnalyzer c) (JString s);
  analyzeStructure P c s baseResult.
Proof.
  intros H. unfold analyze.
  pose proof (trim_length s).
  destruct s as [|x s]; [simpl in H; lia|].
  apply Nat.ltb_ge in H. rewrite H. reflexivity.
Qed.

End StructuralTotal.

(** ** The composition of the contextual score *)

Section Composition.
Import ContextualAnalyzer.
Local Open Scope Q_scope.
Context (P : Platform).



End Composition.






Lemma host_lexicon_in_range : Spec.lexiconInRange Host.analyzer.
Proof.
  repeat split; unfold Spec.tableInRange;
    refine (bool_decide_unpack _ _); vm_compute; exact I.
Qed.

(** ** Narrative patterns *)

(** C9. The narrative pattern is "redemption" exactly when the progression
    exceeds 0.25, "downfall" exactly when it is below -0.25, "consistency"
    exactly when its magnitude is below 0.1, and "mixed" exactly when none
    of these holds; the three conditions exclude one another, so the four
    bands partition the progression values. *)
Theorem narrative_pattern_bands (c : ContextualAnalyzer.t)
    (pf : ProgressionFactor.t) :
  let p := ProgressionFactor.progression pf in
  let n :=
    NarrativePattern.pattern (ContextualAnalyzer._identifyNarrativePattern c pf)
  in
  ((n = Redemption <-> 0.25 < p) /\
   (n = Downfall <-> p < - 0.25) /\
   (n = Consistency <-> Qabs p < 0.1) /\
   (n = Mixed <-> ~ 0.25 < p /\ ~ p < - 0.25 /\ ~ Qabs p < 0.1) /\
   ~ (0.25 < p /\ p < - 0.25) /\
   ~ (0.25 < p /\ Qabs p < 0.1) /\
   ~ (p < - 0.25 /\ Qabs p < 0.1))%Q.
Proof.
  intros p n. subst n. unfold ContextualAnalyzer._identifyNarrativePattern.
  fold p. simpl. rewrite !Qabs_Qlt_condition.
  pose proof (Qabs_Qlt_condition p 0.1%Q) as Habs.
  qtest (Num.ltb 0.25%Q p).
  { repeat split; try discriminate; try tauto; intros; lra. }
  qtest (Num.ltb p (- 0.25)%Q).
  { repeat split; try discriminate; try tauto; intros; lra. }
  qtest (Num.ltb (Qabs p) 0.1%Q).
  - apply Habs in E1.
    repeat split; try discriminate; try tauto; intros; lra.
  - apply Qle_not_lt in E1. rewrite Habs in E1.
    repeat split; try discriminate; try tauto; intros; try lra.
Qed.

(** ** Token resolution *)

Section TokenFacts.
Import SentimentAnalyzer.
Local Open Scope Q_scope.
Context (a : SentimentAnalyzer.t).


Lemma scoreToken_unresolved words st i :
  Str.includes (negationWords a) (nth i words []) = false ->
  wordScoreOf a (nth i words []) = None ->
  Details.words (details (scoreToken a words st i)) =
  Details.words (details st).
Proof.
  intros Hneg Hw. unfold scoreToken. rewrite Hneg, Hw.
  apply (advanceNegation_spec a words i st).
Qed.

End TokenFacts.




(** ** Segmentation *)

Lemma quarter_floor n : Num.floorNat (Num.ofNat n * 0.25) = (n / 4)%nat.
Proof.
  unfold Num.floorNat, Num.ofNat, Qfloor, Qmult, inject_Z.
  cbn [Qnum Qden].
  change (Z.pos (1 * 100)) with (4 * 25)%Z.
  rewrite Z.div_mul_cancel_r by lia.
  change 4%Z with (Z.of_nat 4). rewrite <- Nat2Z.inj_div. apply Nat2Z.id.
Qed.

(** C3, as the code has it. A list of n >= 2 sentences is cut by sentence
    index into a "beginning" of the first q sentences and an "end" of the
    last q sentences, where q is a quarter of n rounded down, and at least
    one; the sentences in between, when there are any, form the "middle".
    A single sentence yields one "singleSentence" segment. *)
Theorem segmentation_by_quarters (sentences : list jsstring) :
  (forall s,
      ContextualAnalyzer._segmentText [s] =
      [ {| Segment.type := SingleSentence; Segment.content := s |} ]) /\
  ((2 <= length sentences)%nat ->
   let n := length sentences in
   let q := Nat.max 1 (n / 4) in
   let first := take q sentences in
   let between := take (n - q - q) (drop q sentences) in
   let last := drop (n - q) sentences in
   sentences = first ++ between ++ last /\
   length first = q /\ length last = q /\
   ContextualAnalyzer._segmentText sentences =
   [ {| Segment.type := Beginning;
        Segment.content := Str.join Str.space first |} ]
   ++ (if (0 <? length between)%nat
       then [ {| Segment.type := Middle;
                 Segment.content := Str.join Str.space between |} ]
       else [])
   ++ [ {| Segment.type := End;
           Segment.content := Str.join Str.space last |} ]).
Proof.
  split; [reflexivity|].
  intros Hn n q first between last.
  assert (Hq : (1 <= q /\ q + q <= n)%nat).
  { subst q. pose proof (Nat.Div0.mul_div_le n 4). lia. }
  assert (Hlen : length between = (n - q - q)%nat).
  { subst between. rewrite length_take, length_drop. fold n. lia. }
  split; [|split; [|split]].
  - subst first between last.
    rewrite <- (take_drop q sentences) at 1. f_equal.
    rewrite <- (take_drop (n - q - q) (drop q sentences)) at 1. f_equal.
    rewrite drop_drop. f_equal. lia.
  - subst first. rewrite length_take. fold n. lia.
  - subst last. rewrite length_drop. fold n. lia.
  - unfold ContextualAnalyzer._segmentText, ContextualAnalyzer.slice.
    rewrite quarter_floor. fold n. fold q.
    destruct (n <=? 1)%nat eqn:E; [apply Nat.leb_le in E; lia|].
    rewrite Hlen, Nat.sub_0_r, drop_0.
    fold first. fold between. fold last.
    destruct (q <? n - q)%nat eqn:E1, (0 <? n - q - q)%nat eqn:E2;
      try reflexivity.
    + apply Nat.ltb_lt in E1. apply Nat.ltb_ge in E2. lia.
    + apply Nat.ltb_ge in E1. apply Nat.ltb_lt in E2. lia.
Qed.

Lemma segmentation_by_quarters_witness :
  ContextualAnalyzer._segmentText
    (ContextualAnalyzer._splitIntoSentences
       (Str.lit "Un. Deux. Trois. Quatre. Cinq.")) =
  [ {| Segment.type := Beginning; Segment.content := Str.lit "Un" |};
    {| Segment.type := Middle;
       Segment.content := Str.lit "Deux Trois Quatre" |};
    {| Segment.type := End; Segment.content := Str.lit "Cinq" |} ].
Proof.
  apply (segmentation_by_quarters
           (ContextualAnalyzer._splitIntoSentences
              (Str.lit "Un. Deux. Trois. Quatre. Cinq."))).
  vm_compute. lia.
Defined.

(** C3 as stated fails on five sentences: a quarter of five rounded up is
    two, but the "beginning" and the "end" hold one sentence each and the
    "middle" three. *)
Lemma segmentation_by_quarters_counterexample :
  let sentences :=
    ContextualAnalyzer._splitIntoSentences
      (Str.lit "Un. Deux. Trois. Quatre. Cinq.") in
  length sentences = 5%nat /\
  Spec.quarterAsClaimed (length sentences) = 2%nat /\
  exists first middle last,
    ContextualAnalyzer._segmentText sentences =
    [ {| Segment.type := Beginning; Segment.content := first |};
      {| Segment.type := Middle; Segment.content := middle |};
      {| Segment.type := End; Segment.content := last |} ] /\
    first = Str.join Str.space (take 1 sentences) /\
    last = Str.join Str.space (drop 4 sentences) /\
    first <> Str.join Str.space
               (take (Spec.quarterAsClaimed (length sentences)) sentences) /\
    last <> Str.join Str.space
              (drop (length sentences
                     - Spec.quarterAsClaimed (length sentences)) sentences).
Proof.
  vm_compute. split; [reflexivity|]. split; [reflexivity|].
  do 3 eexists. split; [reflexivity|].
  repeat split; discriminate.
Qed.

(** ** Negation and prefix modifiers in the token loop *)

Section NegationScope.
Import SentimentAnalyzer.
Local Open Scope Q_scope.
Context (a : SentimentAnalyzer.t).


Lemma loopState_S words st i :
  Spec.loopState a words st (S i) =
  scoreToken a words (Spec.loopState a words st i) i.
Proof.
  unfold Spec.loopState. rewrite seq_S, fold_left_app. reflexivity.
Qed.

Lemma scoreToken_trigger words st i :
  Str.includes (negationWords a) (nth i words []) = true ->
  negationActive (scoreToken a words st i) = true /\
  negationDistance (scoreToken a words st i) = 0%nat.
Proof. intros H. unfold scoreToken. rewrite H. split; reflexivity. Qed.

Lemma scoreToken_other words st i :
  Str.includes (negationWords a) (nth i words []) = false ->
  negationActive (scoreToken a words st i)
  = negationActive (advanceNegation a words i st) /\
  negationDistance (scoreToken a words st i)
  = negationDistance (advanceNegation a words i st).
Proof.
  intros H. unfold scoreToken. rewrite H.
  destruct (wordScoreOf a (nth i words [])); split; reflexivity.
Qed.

Lemma advanceNegation_within words i st :
  negationActive st = true ->
  (S (negationDistance st) <= negationWindow (config a))%nat ->
  negationActive (advanceNegation a words i st) = true /\
  negationDistance (advanceNegation a words i st) = S (negationDistance st).
Proof.
  intros Hact Hd. unfold advanceNegation. rewrite Hact.
  apply Nat.ltb_ge in Hd. rewrite Hd. split; reflexivity.
Qed.

(** After a trigger at index [j] and [d] further tokens, none of them a
    negation word, the scope is active at distance [d], as long as [d]
    does not exceed the window. *)
Lemma after_trigger words st j d :
  Str.includes (negationWords a) (nth j words []) = true ->
  (forall k, (j < k <= j + d)%nat ->
             Str.includes (negationWords a) (nth k words []) = false) ->
  (d <= negationWindow (config a))%nat ->
  negationActive (Spec.loopState a words st (S (j + d))) = true /\
  negationDistance (Spec.loopState a words st (S (j + d))) = d.
Proof.
  intros Hj. induction d as [|d IH]; intros Hk Hd.
  - rewrite Nat.add_0_r, loopState_S. apply scoreToken_trigger, Hj.
  - destruct IH as [Hact Hdist]; [intros; apply Hk; lia | lia|].
    replace (j + S d)%nat with (S (j + d)) by lia.
    rewrite (loopState_S words st (S (j + d))).
    destruct (scoreToken_other words
                (Spec.loopState a words st (S (j + d))) (S (j + d)))
      as [-> ->]; [apply Hk; lia|].
    destruct (advanceNegation_within words (S (j + d))
                (Spec.loopState a words st (S (j + d))) Hact)
      as [-> ->]; [lia|].
    rewrite Hdist. split; reflexivity.
Qed.

End NegationScope.





(** ** Scores are reported with two decimals *)

Section Rounding.
Import ContextualAnalyzer.
Local Open Scope Q_scope.
Context (P : Platform) (c : ContextualAnalyzer.t).

Lemma analyze_rounded a s r :
  s <> [] ->
  SentimentAnalyzer.analyze P a (JString s) = Ok r ->
  exists st,
    SentimentAnalyzer.accumulate P a s = Ok st /\
    BaseResult.score r = Num.round2 (SentimentAnalyzer.finalScore st) /\
    BaseResult.confidence r
    = Num.round2 (SentimentAnalyzer.finalConfidence st).
Proof.
  intros Hs. rewrite analyze_text by exact Hs. intros H. inv_bind H.
  injection H as <-. exists x. repeat split. exact Hx.
Qed.

Lemma analyze_centesimal a v r :
  SentimentAnalyzer.analyze P a v = Ok r ->
  Spec.centesimal (BaseResult.score r) /\
  Spec.centesimal (BaseResult.confidence r).
Proof.
  assert (Hn : Spec.centesimal 0.5 /\ Spec.centesimal 0).
  { split; [exists 50%Z | exists 0%Z]; reflexivity. }
  unfold SentimentAnalyzer.analyze.
  destruct (negb (truthy v) || negb (isString v));
    [intros H; injection H as <-; exact Hn|].
  destruct v; try (intros H; injection H as <-; exact Hn).
  intros H. inv_bind H. injection H as <-.
  split; apply round2_centesimal.
Qed.

Lemma baseAnalyze_centesimal text r :
  baseAnalyze P c text = Ok r -> Spec.centesimal (BaseResult.score r).
Proof. intros H. apply (analyze_centesimal _ _ _ H). Qed.

Lemma scoreSegment_score segment ss :
  scoreSegment P c segment = Ok ss ->
  exists r,
    baseAnalyze P c (SegmentScore.content ss) = Ok r /\
    SegmentScore.score ss = BaseResult.score r.
Proof.
  unfold scoreSegment. intros H. inv_bind H. injection H as <-.
  exists x. split; [exact Hx | reflexivity].
Qed.

Lemma _analyzeSegments_scores segments sa :
  _analyzeSegments P c segments = Ok sa ->
  Forall (fun ss =>
            exists r,
              baseAnalyze P c (SegmentScore.content ss) = Ok r /\
              SegmentScore.score ss = BaseResult.score r)
         (SegmentAnalysis.segments sa).
Proof.
  unfold _analyzeSegments. intros H. inv_bind H. injection H as <-. simpl.
  eapply mapM_Forall; [|exact Hx].
  intros seg ss _. apply scoreSegment_score.
Qed.

Lemma firstOr_In {A} (keep : A -> bool) (all : list A) (i : nat) (x : A) :
  (if (0 <? length (List.filter keep all))%nat
   then List.filter keep all !! 0%nat else all !! i) = Some x ->
  In x all.
Proof.
  destruct (0 <? _)%nat; intros H; apply list_elem_of_lookup_2 in H;
    apply list_elem_of_In in H; [|exact H].
  apply filter_In in H. tauto.
Qed.

Lemma _analyzeProgression_scores sa pf x y :
  _analyzeProgression sa = Ok pf ->
  ProgressionFactor.startScore pf = Some x ->
  ProgressionFactor.endScore pf = Some y ->
  (exists first last,
      In first (SegmentAnalysis.segments sa) /\
      In last (SegmentAnalysis.segments sa) /\
      x = SegmentScore.score first /\ y = SegmentScore.score last) /\
  ProgressionFactor.progression pf = Num.round2 (y - x).
Proof.
  unfold _analyzeProgression.
  destruct (_ <=? 1)%nat; [intros H; injection H as <-; discriminate|].
  intros H. inv_bind H. inv_bind H. injection H as <-. simpl.
  intros Hs He. injection Hs as <-. injection He as <-.
  split; [|reflexivity]. exists x0, x1.
  unfold required in Hx0, Hx1.
  destruct (if (0 <? _)%nat then _ else _) as [f|] eqn:Ef in Hx0;
    [injection Hx0 as ->|discriminate].
  destruct (if (0 <? _)%nat then _ else _) as [l|] eqn:El in Hx1;
    [injection Hx1 as ->|discriminate].
  apply firstOr_In in Ef. apply firstOr_In in El. auto.
Qed.

Lemma _analyzeConclusion_score segments cf x :
  _analyzeConclusion P c segments = Ok cf ->
  ConclusionFactor.score cf = Some x -> Spec.centesimal x.
Proof.
  unfold _analyzeConclusion.
  destruct (List.filter _ segments) as [|conclusion l];
    [intros H; injection H as <-; discriminate|].
  intros H. inv_bind H. inv_bind H. injection H as <-. simpl.
  intros Hs. injection Hs as <-. eapply baseAnalyze_centesimal, Hx0.
Qed.

Lemma _analyzeTransitions_scores text baseResult tf x y :
  _analyzeTransitions P c text baseResult = Ok tf ->
  TransitionFactor.beforeScore tf = Some x ->
  TransitionFactor.afterScore tf = Some y ->
  Spec.centesimal x /\ Spec.centesimal y /\
  TransitionFactor.shift tf = Some (Num.round2 (y - x)).
Proof.
  unfold _analyzeTransitions.
  destruct (sortByWeight _) as [|[strongest n] l];
    [intros H; injection H as <-; discriminate|].
  destruct (_ || _); [intros H; injection H as <-; discriminate|].
  intros H. inv_bind H. inv_bind H. injection H as <-. simpl.
  intros Hs He. injection Hs as <-. injection He as <-.
  split; [eapply baseAnalyze_centesimal, Hx0|].
  split; [eapply baseAnalyze_centesimal, Hx1 | reflexivity].
Qed.

End Rounding.


(** * Further properties of the code *)

(** ** The per-token transforms *)

Section Transforms.
Import SentimentAnalyzer.
Local Open Scope Q_scope.
Context (a : SentimentAnalyzer.t).

Lemma contextual_side m s :
  let r :=
    if Num.ltb 0 m && Num.ltb 0.5 s then Qmin 1 (s + m * 0.5)
    else if Num.ltb m 0 && Num.ltb s 0.5 then Qmax 0 (s + m * 0.5)
    else if Num.ltb 0 m && Num.ltb s 0.5 then Qmin 0.5 (s + m * 0.3)
    else if Num.ltb m 0 && Num.ltb 0.5 s then Qmax 0.5 (s + m * 0.3)
    else s in
  (0.5 < s -> 0.5 <= r) /\ (s < 0.5 -> r <= 0.5) /\ (s == 0.5 -> r = s).
Proof.
  intros r. subst r.
  qtest (Num.ltb 0 m); qtest (Num.ltb 0.5 s); qtest (Num.ltb m 0);
    qtest (Num.ltb s 0.5); try lra;
    repeat split; intros; try lra;
    first [ apply Q.min_glb; lra
          | apply Q.max_lub; lra
          | apply Q.le_min_l
          | apply Q.le_max_l
          | idtac ].
Qed.

Lemma context_fold_unresolved ctx acc :
  Forall (fun w => wordScoreOf a w = None) ctx ->
  fold_left (fun (acc : Q * nat) (w : jsstring) =>
               match wordScoreOf a w with
               | Some wordScore =>
                 (fst acc + (wordScore - 0.5) * 0.2, S (snd acc))
               | None => acc
               end) ctx acc = acc.
Proof.
  intros H. revert acc. induction H as [|w ctx Hw _ IH]; intros acc; simpl.
  - reflexivity.
  - rewrite Hw. apply IH.
Qed.

End Transforms.

(** X1. The context re-scoring never carries a score across 0.5: a score
    above 0.5 stays at or above it, a score below stays at or below it, a
    score of exactly 0.5 is returned as it is; and when no context word is
    in the lexicon the score is returned as it is. *)
Theorem context_never_crosses_neutral (a : SentimentAnalyzer.t)
    (contextWords : list jsstring) (centralWord : jsstring) (s : Q) :
  let r :=
    SentimentAnalyzer._analyzeWordContext a contextWords centralWord s in
  ((0.5 < s -> 0.5 <= r) /\ (s < 0.5 -> r <= 0.5) /\ (s == 0.5 -> r = s) /\
   (Forall (fun w => SentimentAnalyzer.wordScoreOf a w = None) contextWords ->
    r = s))%Q.
Proof.
  intros r. subst r. unfold SentimentAnalyzer._analyzeWordContext.
  destruct (length contextWords =? 0)%nat.
  { repeat split; intros; try lra. }
  assert (Hlast :
            Forall (fun w => SentimentAnalyzer.wordScoreOf a w = None)
                   contextWords ->
            (let acc :=
               fold_left
                 (fun (acc : Q * nat) (w : jsstring) =>
                    match SentimentAnalyzer.wordScoreOf a w with
                    | Some wordScore =>
                      ((fst acc + (wordScore - 0.5) * 0.2)%Q, S (snd acc))
                    | None => acc
                    end) contextWords (0%Q, 0%nat) in
             if (snd acc =? 0)%nat then s
             else if Num.ltb 0 (fst acc) && Num.ltb 0.5 s
             then Qmin 1 (s + fst acc * 0.5)
             else if Num.ltb (fst acc) 0 && Num.ltb s 0.5
             then Qmax 0 (s + fst acc * 0.5)
             else if Num.ltb 0 (fst acc) && Num.ltb s 0.5
             then Qmin 0.5 (s + fst acc * 0.3)
             else if Num.ltb (fst acc) 0 && Num.ltb 0.5 s
             then Qmax 0.5 (s + fst acc * 0.3)
             else s)%Q = s).
  { intros H. rewrite (context_fold_unresolved a contextWords _ H).
    reflexivity. }
  simpl in Hlast.
  match goal with |- context [fold_left ?f ?l ?i] =>
    generalize dependent (fold_left f l i) end.
  intros [m n] Hlast. simpl in *.
  destruct (n =? 0)%nat.
  { repeat split; intros; try lra. }
  pose proof (contextual_side m s) as (H1 & H2 & H3). simpl in *.
  repeat split; assumption.
Qed.

Lemma context_never_crosses_neutral_witness :
  (0.5 <= SentimentAnalyzer._analyzeWordContext Host.analyzer
            [Str.lit "nul"; Str.lit "nul"; Str.lit "nul"] (Str.lit "bon") 0.6)%Q.
Proof.
  apply (context_never_crosses_neutral Host.analyzer
           [Str.lit "nul"; Str.lit "nul"; Str.lit "nul"] (Str.lit "bon") 0.6%Q).
  reflexivity.
Defined.

Section NegationPower.
Local Open Scope Q_scope.

Lemma ofNat_lt n m : (n < m)%nat -> Num.ofNat n < Num.ofNat m.
Proof. unfold Num.ofNat, Qlt. simpl. lia. Qed.

Lemma ofNat_ratio d W :
  (0 < W)%nat ->
  let q := Num.ofNat d / Num.ofNat W in
  0 <= q /\ ((d < W)%nat -> q < 1) /\ ((1 <= d)%nat -> 0 < q) /\
  (d = W -> q == 1).
Proof.
  intros HW q. subst q. pose proof (ofNat_pos W HW) as Hpos.
  pose proof (ofNat_nonneg d) as Hd.
  repeat split.
  - apply Qle_shift_div_l; [exact Hpos | lra].
  - intros H. apply Qlt_shift_div_r; [exact Hpos|].
    pose proof (ofNat_lt _ _ H). lra.
  - intros H. apply Qlt_shift_div_l; [exact Hpos|].
    pose proof (ofNat_pos d H). lra.
  - intros ->. field. lra.
Qed.

Lemma ofNat_ratio_lt d1 d2 W :
  (0 < W)%nat -> (d1 < d2)%nat ->
  Num.ofNat d1 / Num.ofNat W < Num.ofNat d2 / Num.ofNat W.
Proof.
  intros HW H. pose proof (ofNat_pos W HW) as Hpos.
  unfold Qdiv. apply Qmult_lt_compat_r; [apply Qinv_lt_0_compat, Hpos|].
  apply ofNat_lt, H.
Qed.

End NegationPower.

(** X2. The negation blend fades with distance: at the last token of the
    window the score is exactly 0.5; at any earlier token a score above
    0.5 lands strictly below 0.5 (and one below lands above), moving
    toward 0.5 as the distance grows; and from the first scored token on
    (distance 1) the inversion is never complete. *)
Theorem negation_fades_with_distance (a : SentimentAnalyzer.t)
    (d1 d2 : nat) (s : Q) :
  let W := SentimentAnalyzer.negationWindow (SentimentAnalyzer.config a) in
  (1 <= W)%nat ->
  (SentimentAnalyzer.applyNegation a W s == 0.5)%Q /\
  ((d1 < W)%nat ->
   (0.5 < s -> SentimentAnalyzer.applyNegation a d1 s < 0.5)%Q /\
   (s < 0.5 -> 0.5 < SentimentAnalyzer.applyNegation a d1 s)%Q) /\
  ((d1 < d2)%nat ->
   (0.5 < s -> SentimentAnalyzer.applyNegation a d1 s
               < SentimentAnalyzer.applyNegation a d2 s)%Q /\
   (s < 0.5 -> SentimentAnalyzer.applyNegation a d2 s
               < SentimentAnalyzer.applyNegation a d1 s)%Q) /\
  ((1 <= d1)%nat ->
   (0.5 < s -> 1 - s < SentimentAnalyzer.applyNegation a d1 s)%Q /\
   (s < 0.5 -> SentimentAnalyzer.applyNegation a d1 s < 1 - s)%Q).
Proof.
  intros W HW. unfold SentimentAnalyzer.applyNegation. fold W.
  pose proof (ofNat_ratio d1 W HW) as (Hq0 & Hq1 & Hq2 & _).
  pose proof (ofNat_ratio W W HW) as (_ & _ & _ & HqW).
  simpl in *. rewrite (HqW eq_refl).
  set (q1 := (Num.ofNat d1 / Num.ofNat W)%Q) in *.
  split; [ring|]. split; [|split].
  - intros H. specialize (Hq1 H). split; intros; nra.
  - intros H. pose proof (ofNat_ratio_lt d1 d2 W HW H) as Hlt. fold q1 in Hlt.
    set (q2 := (Num.ofNat d2 / Num.ofNat W)%Q) in *. split; intros; nra.
  - intros H. specialize (Hq2 H). split; intros; nra.
Qed.

Lemma negation_fades_with_distance_witness :
  (SentimentAnalyzer.applyNegation Host.analyzer 5 0.9 == 0.5)%Q.
Proof.
  apply (negation_fades_with_distance Host.analyzer 1 2 0.9%Q).
  vm_compute. lia.
Defined.


(** X4. A positive modifier keeps a score on its side of 0.5: with a
    factor of at least 1 a score in [[0,1]] moves away from 0.5 (up to the
    bound 0 or 1), with a factor between 0 and 1 it moves toward 0.5. *)
Theorem intensifier_direction (m s : Q) :
  (0 <= s <= 1)%Q ->
  let r := SentimentAnalyzer.applyModifier m s in
  ((1 <= m -> (0.5 < s -> s <= r <= 1) /\ (s < 0.5 -> 0 <= r <= s)) /\
   (0 <= m <= 1 -> (0.5 < s -> 0.5 <= r <= s) /\ (s < 0.5 -> s <= r <= 0.5)))%Q.
Proof.
  intros Hs r. subst r. unfold SentimentAnalyzer.applyModifier.
  split; intros Hm.
  - assert (E : Num.ltb m 0 = false) by (apply ltb_ge; lra). rewrite E.
    qtest (Num.eqb m 1%Q); [split; intros; lra|].
    qtest (Num.ltb 0.5%Q s).
    + split; [|intros; lra]. intros _.
      split; [apply Q.min_glb; [lra | nra] | apply Q.le_min_l].
    + qtest (Num.ltb s 0.5%Q); [|split; intros; lra].
      split; [intros; lra|]. intros _.
      split; [apply Q.le_max_l | apply Q.max_lub; [lra | nra]].
  - assert (E : Num.ltb m 0 = false) by (apply ltb_ge; lra). rewrite E.
    qtest (Num.eqb m 1%Q); [split; intros; lra|].
    qtest (Num.ltb 0.5%Q s).
    + split; [|intros; lra]. intros _.
      split; [apply Q.min_glb; [lra | nra]|].
      apply Qle_trans with (0.5 + (s - 0.5) * m)%Q; [apply Q.le_min_r | nra].
    + qtest (Num.ltb s 0.5%Q); [|split; intros; lra].
      split; [intros; lra|]. intros _.
      split; [|apply Q.max_lub; [lra | nra]].
      apply Qle_trans with (0.5 - (0.5 - s) * m)%Q; [nra | apply Q.le_max_r].
Qed.

Lemma intensifier_direction_witness :
  (0.7 <= SentimentAnalyzer.applyModifier 1.5 0.7 <= 1)%Q.
Proof.
  apply (intensifier_direction 1.5%Q 0.7%Q); vm_compute; intuition discriminate.
Defined.

(** ** The totals of the lexical scorer and its evidence *)

Section Accounting.
Import SentimentAnalyzer.
Local Open Scope Q_scope.
Context (P : Platform) (a : SentimentAnalyzer.t).

Lemma total_app l1 l2 :
  Props.total (l1 ++ l2) == Props.total l1 + Props.total l2.
Proof.
  induction l1 as [|x l1 IH]; simpl; [ring|]. rewrite IH. ring.
Qed.

Lemma round2_comp x y : x == y -> Num.round2 x = Num.round2 y.
Proof.
  intros H. unfold Num.round2, Num.toFixedUnits, Num.ltb.
  rewrite (Qleb_comp 0 0 (Qeq_refl 0) x y H).
  destruct (negb (Qle_bool 0 y)).
  - assert (E : - x * inject_Z (10 ^ 2) + (1 # 2)
                == - y * inject_Z (10 ^ 2) + (1 # 2)) by (rewrite H; reflexivity).
    rewrite (Qfloor_comp _ _ E). reflexivity.
  - assert (E : x * inject_Z (10 ^ 2) + (1 # 2)
                == y * inject_Z (10 ^ 2) + (1 # 2)) by (rewrite H; reflexivity).
    rewrite (Qfloor_comp _ _ E). reflexivity.
Qed.

Lemma accounted_initial : Props.accounted initial.
Proof.
  unfold Props.accounted. simpl. repeat split; try reflexivity;
    vm_compute; discriminate.
Qed.

Lemma accounted_modifiers ms st :
  Props.accounted st -> Props.accounted (pushModifiers ms st).
Proof. intros H. exact H. Qed.

Lemma accounted_negation b d st :
  Props.accounted st -> Props.accounted (setNegation b d st).
Proof. intros H. exact H. Qed.

Lemma accounted_idiom st idiom :
  Props.accounted st -> Props.accounted (countIdiom st idiom).
Proof.
  unfold Props.accounted, Props.evidenceScores. intros (Hn & Ht & Hc).
  simpl. rewrite map_app. simpl.
  rewrite ?length_app in *. simpl. rewrite ?length_app in *. simpl.
  rewrite ofNat_S. rewrite ?total_app in Ht. rewrite ?total_app. simpl.
  split; [lia|]. split; lra.
Qed.

Lemma accounted_emoji st emoji :
  Props.accounted st -> Props.accounted (countEmoji a st emoji).
Proof.
  intros H. unfold countEmoji.
  destruct (emojiSentiments a !! emoji) as [s|]; [|exact H].
  revert H. unfold Props.accounted, Props.evidenceScores.
  intros (Hn & Ht & Hc).
  simpl. rewrite map_app. simpl.
  rewrite ?length_app in *. simpl. rewrite ?length_app in *. simpl.
  rewrite ofNat_S. rewrite ?total_app in Ht. rewrite ?total_app. simpl.
  split; [lia|]. split; lra.
Qed.

Lemma accounted_word st w :
  Props.accounted st ->
  Props.accounted (count (WordEvidence.contextScore w) 0.5 (pushWord w st)).
Proof.
  unfold Props.accounted, Props.evidenceScores. intros (Hn & Ht & Hc).
  simpl. rewrite map_app. simpl.
  rewrite ?length_app in *. simpl. rewrite ?length_app in *. simpl.
  rewrite ofNat_S. rewrite ?total_app in Ht. rewrite ?total_app. simpl.
  split; [lia|]. split; lra.
Qed.

Lemma accounted_advance words i st :
  Props.accounted st -> Props.accounted (advanceNegation a words i st).
Proof.
  intros H. unfold advanceNegation.
  destruct (negationActive st); [|exact H].
  destruct (_ <? _)%nat; exact H.
Qed.

Lemma accounted_token words st i :
  Props.accounted st -> Props.accounted (scoreToken a words st i).
Proof.
  intros H. unfold scoreToken.
  destruct (Str.includes _ _); [exact H|].
  destruct (wordScoreOf a (nth i words [])) as [ws|];
    [|apply accounted_advance, H].
  match goal with
  | |- Props.accounted (count ?x _ (pushWord ?w ?s)) =>
    change x with (WordEvidence.contextScore w)
  end.
  apply accounted_word, accounted_modifiers, accounted_advance, H.
Qed.

Lemma accumulate_accounted text st :
  accumulate P a text = Ok st -> Props.accounted st.
Proof.
  unfold accumulate. intros H. inv_bind H. injection H as <-.
  apply fold_left_invariant; [intros; apply accounted_token; assumption|].
  apply fold_left_invariant; [intros; apply accounted_emoji; assumption|].
  apply fold_left_invariant; [intros; apply accounted_idiom; assumption|].
  apply accounted_initial.
Qed.

End Accounting.



(** ** The end of a negation scope *)

Section ScopeEnd.
Import SentimentAnalyzer.
Local Open Scope Q_scope.
Context (a : SentimentAnalyzer.t).


Lemma advanceNegation_beyond words i st :
  negationActive st = true ->
  (negationWindow (config a) < S (negationDistance st))%nat ->
  negationActive (advanceNegation a words i st) = false /\
  Details.modifiers (details (advanceNegation a words i st))
  = Details.modifiers (details st)
    ++ [NegationMarker
          (if (negationWindow (config a) <=? i)%nat
           then words !! (i - negationWindow (config a))%nat else None)
          Ends].
Proof.
  intros Hact Hd. unfold advanceNegation. rewrite Hact.
  apply Nat.ltb_lt in Hd. rewrite Hd. split; reflexivity.
Qed.


Lemma scoreToken_modifiers words st i :
  Str.includes (negationWords a) (nth i words []) = false ->
  exists rest,
    Details.modifiers (details (scoreToken a words st i))
    = Details.modifiers (details (advanceNegation a words i st)) ++ rest.
Proof.
  intros H. unfold scoreToken. rewrite H.
  destruct (wordScoreOf a (nth i words [])).
  - eexists. reflexivity.
  - exists []. rewrite app_nil_r. reflexivity.
Qed.

End ScopeEnd.



(** X8. When a scope lapses, which happens at the first token beyond the
    window if the text has one, the "ends" marker pushed to the modifier
    evidence names the token [negationWindow] places back, that is the
    token right after the negation word. *)
Theorem scope_end_marker (a : SentimentAnalyzer.t)
    (words : list jsstring) (st : SentimentAnalyzer.Acc) (j i : nat) :
  Str.includes (SentimentAnalyzer.negationWords a) (nth j words []) = true ->
  (forall k, (j < k <= i)%nat ->
     Str.includes (SentimentAnalyzer.negationWords a) (nth k words [])
     = false) ->
  i = (j + SentimentAnalyzer.negationWindow (SentimentAnalyzer.config a) + 1)%nat ->
  exists rest,
    Details.modifiers
      (SentimentAnalyzer.details (Spec.loopState a words st (S i)))
    = Details.modifiers
        (SentimentAnalyzer.details (Spec.loopState a words st i))
      ++ NegationMarker (words !! S j) Ends :: rest.
Proof.
  intros Hj Hk Hi.
  set (W := SentimentAnalyzer.negationWindow (SentimentAnalyzer.config a)) in *.
  destruct (after_trigger a words st j W Hj) as [Hact Hdist];
    [intros; apply Hk; lia | lia|].
  replace (S (j + W)) with i in * by lia.
  destruct (advanceNegation_beyond a words i (Spec.loopState a words st i) Hact)
    as [_ Hm]; [fold W; lia|].
  destruct (scoreToken_modifiers a words (Spec.loopState a words st i) i)
    as [rest Hrest]; [apply Hk; lia|].
  exists rest. rewrite loopState_S, Hrest, Hm. fold W.
  assert (E : (W <=? i)%nat = true) by (apply Nat.leb_le; lia).
  rewrite E. replace (i - W)%nat with (S j) by lia.
  rewrite <- app_assoc. reflexivity.
Qed.

Lemma scope_end_marker_witness :
  exists rest,
    Details.modifiers
      (SentimentAnalyzer.details
         (Spec.loopState Host.analyzer
            (Str.words (Str.lit "jamais a b c d e bon"))
            SentimentAnalyzer.initial 7))
    = Details.modifiers
        (SentimentAnalyzer.details
           (Spec.loopState Host.analyzer
              (Str.words (Str.lit "jamais a b c d e bon"))
              SentimentAnalyzer.initial 6))
      ++ NegationMarker
           (Str.words (Str.lit "jamais a b c d e bon") !! 1%nat) Ends :: rest.
Proof.
  apply (scope_end_marker Host.analyzer
           (Str.words (Str.lit "jamais a b c d e bon"))
           SentimentAnalyzer.initial 0 6).
  - vm_compute. reflexivity.
  - intros k Hk.
    assert (k = 1 \/ k = 2 \/ k = 3 \/ k = 4 \/ k = 5 \/ k = 6)%nat
      as [-> | [-> | [-> | [-> | [-> | ->]]]]] by lia;
      vm_compute; reflexivity.
  - vm_compute. reflexivity.
Defined.



(** ** The context window *)

Section ContextWindow.

Lemma indexed_filter_all {A} (start p o : nat) (l : list A) :
  (p < start + o)%nat ->
  map snd
    (List.filter (fun iw : nat * A => negb (start + fst iw =? p)%nat)
                 (imap (fun i x => ((o + i)%nat, x)) l)) = l.
Proof.
  revert o. induction l as [|x l IH]; intros o Ho; [reflexivity|].
  rewrite imap_cons. simpl.
  destruct (start + (o + 0) =? p)%nat eqn:E; [apply Nat.eqb_eq in E; lia|].
  simpl. f_equal.
  rewrite (imap_ext _ (fun i y => ((S o + i)%nat, y))).
  - apply (IH (S o)). lia.
  - intros i y _. simpl. f_equal. lia.
Qed.

Lemma indexed_filter_one {A} (start p o : nat) (l : list A) :
  (start + o <= p)%nat ->
  map snd
    (List.filter (fun iw : nat * A => negb (start + fst iw =? p)%nat)
                 (imap (fun i x => ((o + i)%nat, x)) l))
  = take (p - start - o) l ++ drop (S (p - start - o)) l.
Proof.
  revert o. induction l as [|x l IH]; intros o Ho.
  - simpl. rewrite take_nil. reflexivity.
  - rewrite imap_cons. simpl.
    rewrite (imap_ext _ (fun i y => ((S o + i)%nat, y)))
      by (intros i y _; simpl; f_equal; lia).
    destruct (start + (o + 0) =? p)%nat eqn:E; simpl.
    + apply Nat.eqb_eq in E.
      replace (p - start - o)%nat with 0%nat by lia. simpl.
      apply (indexed_filter_all start p (S o) l). lia.
    + apply Nat.eqb_neq in E.
      replace (p - start - o)%nat with (S (p - start - S o)) by lia.
      simpl. f_equal. apply (IH (S o)). lia.
Qed.

End ContextWindow.

(** X10. The context of the token at [position] is made of the (up to)
    [windowSize] tokens before it and the (up to) [windowSize] tokens
    after it, in text order; the token itself is left out, other
    occurrences of the same word are kept; so there are at most
    [2 * windowSize] of them. *)
Theorem context_words_window (words : list jsstring)
    (position windowSize : nat) :
  (position < length words)%nat ->
  SentimentAnalyzer._getContextWords words position windowSize
  = drop (position - windowSize) (take position words)
    ++ take windowSize (drop (S position) words) /\
  (length (SentimentAnalyzer._getContextWords words position windowSize)
   <= 2 * windowSize)%nat.
Proof.
  intros Hpos.
  assert (Heq :
            SentimentAnalyzer._getContextWords words position windowSize
            = drop (position - windowSize) (take position words)
              ++ take windowSize (drop (S position) words)).
  { unfold SentimentAnalyzer._getContextWords.
    rewrite Nat.max_0_l.
    set (start := (position - windowSize)%nat).
    set (end_ := Nat.min (length words) (position + windowSize + 1)).
    rewrite (imap_ext pair (fun i x => ((0 + i)%nat, x)))
      by (intros; reflexivity).
    rewrite indexed_filter_one by lia.
    rewrite Nat.sub_0_r.
    rewrite take_take, skipn_firstn_comm, drop_drop.
    replace (Nat.min (position - start) (end_ - start))
      with (position - start)%nat by lia.
    replace (start + S (position - start))%nat with (S position) by lia.
    f_equal.
    - rewrite skipn_firstn_comm. reflexivity.
    - destruct (Nat.le_gt_cases (length words) (position + windowSize + 1))
        as [Hle | Hgt].
      + rewrite !take_ge; [reflexivity | | ]; rewrite length_drop; lia.
      + f_equal. lia. }
  split; [exact Heq|].
  rewrite Heq, length_app, length_drop, !length_take, length_drop. lia.
Qed.

Lemma context_words_window_witness :
  SentimentAnalyzer._getContextWords
    (Str.words (Str.lit "a bon b bon c")) 1 1
  = [Str.lit "a"; Str.lit "b"].
Proof.
  apply (context_words_window (Str.words (Str.lit "a bon b bon c")) 1 1).
  vm_compute. lia.
Defined.

(** ** Sentences and segments *)

Section Sentences.

Lemma trimStart_head s :
  match Str.trimStart s with
  | c :: _ => Str.isWhiteSpace c = false
  | [] => True
  end.
Proof.
  induction s as [|c s IH]; simpl; [exact I|].
  destruct (Str.isWhiteSpace c) eqn:E; [exact IH | exact E].
Qed.

Lemma trimStart_fixed s :
  match s with
  | c :: _ => Str.isWhiteSpace c = false
  | [] => True
  end ->
  Str.trimStart s = s.
Proof. destruct s as [|c s]; simpl; [reflexivity|]. intros ->. reflexivity. Qed.

Lemma trimStart_suffix s : exists p, s = p ++ Str.trimStart s.
Proof.
  induction s as [|c s [p Hp]]; simpl.
  - exists []. reflexivity.
  - destruct (Str.isWhiteSpace c).
    + exists (c :: p). simpl. f_equal. exact Hp.
    + exists []. reflexivity.
Qed.

Lemma trimStart_Forall (Q : N -> Prop) s :
  Forall Q s -> Forall Q (Str.trimStart s).
Proof.
  intros H. destruct (trimStart_suffix s) as [p Hp].
  rewrite Hp in H. apply Forall_app in H. tauto.
Qed.

Lemma trim_Forall (Q : N -> Prop) s : Forall Q s -> Forall Q (Str.trim s).
Proof.
  intros H. unfold Str.trim.
  apply List.Forall_rev, trimStart_Forall, List.Forall_rev, trimStart_Forall, H.
Qed.

Lemma trim_idempotent s : Str.trim (Str.trim s) = Str.trim s.
Proof.
  unfold Str.trim.
  set (t := Str.trimStart s). set (u := Str.trimStart (rev t)).
  assert (H1 : Str.trimStart (rev u) = rev u).
  { apply trimStart_fixed.
    destruct (trimStart_suffix (rev t)) as [p Hp]. fold u in Hp.
    assert (Ht : t = rev u ++ rev p).
    { rewrite <- (rev_involutive t), Hp, rev_app_distr. reflexivity. }
    pose proof (trimStart_head s) as Hh. fold t in Hh.
    destruct (rev u) as [|c r]; [exact I|].
    rewrite Ht in Hh. exact Hh. }
  rewrite H1, rev_involutive.
  assert (H2 : Str.trimStart u = u).
  { apply trimStart_fixed. apply trimStart_head. }
  rewrite H2. reflexivity.
Qed.

Lemma splitRuns_Forall inRun cur s :
  Forall (fun c => Str.isTerminator c = false) cur ->
  Forall (Forall (fun c => Str.isTerminator c = false))
         (Str.splitRuns inRun cur s).
Proof.
  revert inRun cur. induction s as [|c s IH]; intros inRun cur Hcur; simpl.
  - constructor; [apply List.Forall_rev, Hcur | constructor].
  - destruct (Str.isTerminator c) eqn:E.
    + destruct inRun.
      * apply IH. constructor.
      * constructor; [apply List.Forall_rev, Hcur|]. apply IH. constructor.
    + apply IH. constructor; assumption.
Qed.

End Sentences.

(** X11. Every sentence produced by the splitter is non-empty, has no
    white space at either end (trimming it again changes nothing), and
    holds none of the terminators '.', '!' and '?'. *)
Theorem sentences_are_clean (text : jsstring) :
  Forall (fun sentence =>
            sentence <> [] /\
            Str.trim sentence = sentence /\
            Forall (fun c => Str.isTerminator c = false) sentence)
         (ContextualAnalyzer._splitIntoSentences text).
Proof.
  unfold ContextualAnalyzer._splitIntoSentences.
  apply List.Forall_forall. intros sentence Hin.
  apply filter_In in Hin. destruct Hin as [Hin Hlen].
  apply in_map_iff in Hin. destruct Hin as (piece & <- & Hpiece).
  split; [|split].
  - intros E. rewrite E in Hlen. discriminate.
  - apply trim_idempotent.
  - apply trim_Forall.
    pose proof (splitRuns_Forall false [] text (List.Forall_nil _)) as H.
    rewrite List.Forall_forall in H. apply H, Hpiece.
Qed.

Section Segments.

Lemma join_cons sep s l :
  l <> [] -> Str.join sep (s :: l) = s ++ sep ++ Str.join sep l.
Proof. destruct l; [congruence | reflexivity]. Qed.

Lemma join_app sep l1 l2 :
  l1 <> [] -> l2 <> [] ->
  Str.join sep (l1 ++ l2) = Str.join sep l1 ++ sep ++ Str.join sep l2.
Proof.
  intros H1 H2. induction l1 as [|x l1 IH]; [congruence|].
  destruct l1 as [|y l1].
  - simpl app. rewrite join_cons by exact H2. reflexivity.
  - change ((x :: y :: l1) ++ l2) with (x :: ((y :: l1) ++ l2)).
    rewrite join_cons by discriminate.
    rewrite IH by discriminate.
    rewrite (join_cons sep x (y :: l1)) by discriminate.
    rewrite <- !app_assoc. reflexivity.
Qed.

Lemma nonempty_length {A} (l : list A) : (0 < length l)%nat -> l <> [].
Proof. destruct l; simpl; [lia | discriminate]. Qed.

End Segments.

(** X12. Segmentation loses and reorders nothing: joining the contents of
    the segments with single spaces gives back the sentences joined with
    single spaces. The segments are, in this order, one "singleSentence"
    for at most one sentence, "beginning" and "end" for two sentences,
    and "beginning", "middle", "end" for three or more. *)
Theorem segments_keep_every_sentence (sentences : list jsstring) :
  Str.join Str.space
    (map Segment.content (ContextualAnalyzer._segmentText sentences))
  = Str.join Str.space sentences /\
  map Segment.type (ContextualAnalyzer._segmentText sentences)
  = (if (length sentences <=? 1)%nat then [SingleSentence]
     else if (length sentences =? 2)%nat then [Beginning; End]
     else [Beginning; Middle; End]).
Proof.
  unfold ContextualAnalyzer._segmentText, ContextualAnalyzer.slice.
  rewrite quarter_floor.
  set (n := length sentences).
  destruct (n <=? 1)%nat eqn:E1; [split; reflexivity|].
  apply Nat.leb_gt in E1.
  set (q := Nat.max 1 (n / 4)).
  assert (Hq : (1 <= q /\ q + q <= n)%nat).
  { subst q. pose proof (Nat.Div0.mul_div_le n 4). lia. }
  rewrite Nat.sub_0_r, drop_0.
  assert (Hfirst : take q sentences <> []).
  { apply nonempty_length. rewrite length_take. fold n. lia. }
  assert (Hlast : drop (n - q) sentences <> []).
  { apply nonempty_length. rewrite length_drop. fold n. lia. }
  destruct (q <? n - q)%nat eqn:E2.
  - apply Nat.ltb_lt in E2.
    assert (Hmid : take (n - q - q) (drop q sentences) <> []).
    { apply nonempty_length. rewrite length_take, length_drop. fold n. lia. }
    split.
    + simpl map.
      rewrite <- (take_drop q sentences) at 4.
      rewrite <- (take_drop (n - q - q) (drop q sentences)) at 2.
      rewrite drop_drop. replace (q + (n - q - q))%nat with (n - q)%nat by lia.
      rewrite (join_app _ (take q sentences)); [|exact Hfirst|].
      * rewrite (join_app _ (take (n - q - q) (drop q sentences)));
          [reflexivity | exact Hmid | exact Hlast].
      * intros E. apply app_eq_nil in E. tauto.
    + destruct (n =? 2)%nat eqn:E3; [apply Nat.eqb_eq in E3; lia|].
      reflexivity.
  - apply Nat.ltb_ge in E2.
    assert (Hn : n = 2%nat /\ q = 1%nat).
    { subst q. pose proof (Nat.Div0.mul_div_le n 4). lia. }
    destruct Hn as [Hn Hq1]. split.
    + simpl map. rewrite Hn, Hq1 in *.
      rewrite <- (take_drop 1 sentences) at 3.
      rewrite (join_app _ (take 1 sentences)); [reflexivity | | ]; assumption.
    + rewrite Hn. reflexivity.
Qed.

(** ** Idiom detection *)

Section IdiomIndex.
Import SentimentAnalyzer.
Context (a : SentimentAnalyzer.t).

Lemma indexIdiom_keywordOf tbl entry :
  indexIdiom tbl entry
  = match Props.keywordOf (fst entry) with
    | Some keyword => addKeyword keyword entry tbl
    | None => tbl
    end.
Proof.
  unfold indexIdiom, Props.keywordOf.
  destruct (_ && _); [|reflexivity].
  destruct (_ <? _)%nat; reflexivity.
Qed.

Lemma eqb_true s u : Str.eqb s u = true -> s = u.
Proof. unfold Str.eqb. intros H. apply bool_decide_eq_true in H. exact H. Qed.

Lemma eqb_refl s : Str.eqb s s = true.
Proof. unfold Str.eqb. apply bool_decide_eq_true. reflexivity. Qed.

Lemma addKeyword_sound keyword info tbl :
  In info (idioms a) -> Props.keywordOf (fst info) = Some keyword ->
  Props.indexSound a tbl -> Props.indexSound a (addKeyword keyword info tbl).
Proof.
  intros Hin Hk. induction tbl as [|[k infos] tbl IH]; intros Hs; simpl.
  - intros k' infos' info' [E | []] Hi. injection E as <- <-.
    destruct Hi as [<- | []]. auto.
  - assert (Htl : Props.indexSound a tbl).
    { intros k' infos' info' H1 H2. apply (Hs k' infos' info'); auto.
      now right. }
    destruct (Str.eqb k keyword) eqn:E.
    + apply eqb_true in E. subst k.
      intros k' infos' info' [E | H1] Hi.
      * injection E as <- <-. apply in_app_or in Hi.
        destruct Hi as [Hi | [<- | []]]; [|auto].
        apply (Hs keyword infos info'); [now left | exact Hi].
      * apply (Htl k' infos' info'); assumption.
    + intros k' infos' info' [E' | H1] Hi.
      * injection E' as <- <-. apply (Hs k infos info'); [now left | exact Hi].
      * apply (IH Htl k' infos' info'); assumption.
Qed.

Lemma idiomKeywords_sound : Props.indexSound a (fold_left indexIdiom (idioms a) []).
Proof.
  apply fold_left_invariant.
  - intros tbl entry Hin Hs. rewrite indexIdiom_keywordOf.
    destruct (Props.keywordOf (fst entry)) eqn:E; [|exact Hs].
    apply addKeyword_sound; assumption.
  - intros k infos info [].
Qed.

Lemma addKeyword_filed_new keyword info tbl :
  Props.filed (addKeyword keyword info tbl) keyword info.
Proof.
  induction tbl as [|[k infos] tbl IH]; simpl.
  - exists [info]. split; now left.
  - destruct (Str.eqb k keyword) eqn:E.
    + apply eqb_true in E. subst k. exists (infos ++ [info]).
      split; [now left|]. apply in_or_app. right. now left.
    + destruct IH as (infos' & H1 & H2). exists infos'.
      split; [now right | exact H2].
Qed.

Lemma addKeyword_filed_keep keyword info tbl k' info' :
  Props.filed tbl k' info' ->
  Props.filed (addKeyword keyword info tbl) k' info'.
Proof.
  induction tbl as [|[k infos] tbl IH]; intros (infos' & H1 & H2); simpl.
  - destruct H1.
  - destruct (Str.eqb k keyword) eqn:E.
    + destruct H1 as [E1 | H1].
      * injection E1 as -> ->. exists (infos' ++ [info]).
        split; [now left|]. apply in_or_app. now left.
      * exists infos'. split; [now right | exact H2].
    + destruct H1 as [E1 | H1].
      * injection E1 as -> ->. exists infos'. split; [now left | exact H2].
      * destruct IH as (infos'' & H3 & H4); [exists infos'; auto|].
        exists infos''. split; [now right | exact H4].
Qed.

Lemma fold_filed l tbl keyword info :
  Props.keywordOf (fst info) = Some keyword ->
  Props.filed tbl keyword info \/ In info l ->
  Props.filed (fold_left indexIdiom l tbl) keyword info.
Proof.
  intros Hk. revert tbl. induction l as [|e l IH]; intros tbl H; simpl.
  - destruct H as [H | []]. exact H.
  - apply IH. rewrite indexIdiom_keywordOf.
    destruct H as [H | [-> | H]].
    + left. destruct (Props.keywordOf (fst e)); [|exact H].
      apply addKeyword_filed_keep, H.
    + left. rewrite Hk. apply addKeyword_filed_new.
    + right. exact H.
Qed.

Lemma matchesKeyword_spec words i keywordWords :
  matchesKeyword words i keywordWords = true <->
  forall j w, keywordWords !! j = Some w -> (i + j < length words)%nat ->
              nth (i + j) words [] = w.
Proof.
  unfold matchesKeyword. rewrite forallb_forall. split.
  - intros H j w Hj Hlt.
    specialize (H (j, w)). simpl in H.
    apply Nat.ltb_lt in Hlt. rewrite Hlt in H.
    apply eqb_true, H. apply list_elem_of_In.
    apply elem_of_lookup_imap. exists j, w. auto.
  - intros H [j w] Hin. simpl.
    apply list_elem_of_In, elem_of_lookup_imap in Hin.
    destruct Hin as (j' & w' & E & Hj). injection E as -> ->.
    destruct (i + j' <? length words)%nat eqn:Hlt; [|reflexivity].
    apply Nat.ltb_lt in Hlt. rewrite (H j' w' Hj Hlt). apply eqb_refl.
Qed.

Lemma mapM_In {A B} (f : A -> Exc B) l ys x :
  mapM f l = Ok ys -> In x l -> exists y, f x = Ok y /\ In y ys.
Proof.
  intros H. apply mapM_Ok in H.
  induction H as [|x' y' l ys Hxy _ IH]; intros Hin; [destruct Hin|].
  destruct Hin as [-> | Hin].
  - exists y'. split; [exact Hxy | now left].
  - destruct (IH Hin) as (y & Hy & Hiny). exists y. split; [exact Hy | now right].
Qed.

Lemma mapM_In_inv {A B} (f : A -> Exc B) l ys y :
  mapM f l = Ok ys -> In y ys -> exists x, In x l /\ f x = Ok y.
Proof.
  intros H. apply mapM_Ok in H.
  induction H as [|x' y' l ys Hxy _ IH]; intros Hin; [destruct Hin|].
  destruct Hin as [-> | Hin].
  - exists x'. split; [now left | exact Hxy].
  - destruct (IH Hin) as (x & Hx & Hy). exists x. split; [now right | exact Hy].
Qed.

Lemma registerIdiom_evidence words i keywordWords info l ev :
  registerIdiom a words i keywordWords info = Ok l -> In ev l ->
  IdiomEvidence.phrase ev = fst info /\
  IdiomEvidence.score ev = snd info /\
  IdiomEvidence.position ev = Some (i, (i + length keywordWords - 1)%nat).
Proof.
  unfold registerIdiom. destruct (commonVerb _).
  - intros H. inv_bind H. injection H as <-.
    destruct x; [intros [<- | []]; repeat split | intros []].
  - intros H. injection H as <-. intros [<- | []]. repeat split.
Qed.

End IdiomIndex.

(** X13. Pattern-aware idiom detection reports lexicon entries only: each
    detected idiom is an idiom of the lexicon with its lexicon score, and
    sits at a token position where the idiom's keyword matches; so an
    idiom that starts with "être", "avoir", "se" or "faire" and whose
    remaining words make two characters or fewer is never detected. *)
Theorem detected_idioms_are_lexicon_entries (a : SentimentAnalyzer.t)
    (text : jsstring) (detected : list IdiomEvidence.t) :
  SentimentAnalyzer._detectIdioms a text = Ok detected ->
  Forall (fun ev =>
            In (IdiomEvidence.phrase ev, IdiomEvidence.score ev)
               (SentimentAnalyzer.idioms a) /\
            exists i keyword,
              (i < length (Str.words text))%nat /\
              Props.keywordOf (IdiomEvidence.phrase ev) = Some keyword /\
              SentimentAnalyzer.matchesKeyword (Str.words text) i
                (Str.words keyword) = true /\
              IdiomEvidence.position ev
              = Some (i, (i + length (Str.words keyword) - 1)%nat))
         detected.
Proof.
  unfold SentimentAnalyzer._detectIdioms. intros H. inv_bind H.
  injection H as <-. apply List.Forall_forall. intros ev Hev.
  apply in_concat in Hev. destruct Hev as (perPos & Hpp & Hev).
  destruct (mapM_In_inv _ _ _ _ Hx Hpp) as (i & Hi & Hrun). clear Hx Hpp.
  apply in_seq in Hi. simpl in Hrun. inv_bind Hrun. injection Hrun as <-.
  apply in_concat in Hev. destruct Hev as (perKw & Hpk & Hev).
  destruct (mapM_In_inv _ _ _ _ Hx0 Hpk) as ([keyword infos] & Hentry & Hrun).
  clear Hx0 Hpk. simpl in Hrun.
  destruct (SentimentAnalyzer.matchesKeyword _ _ _) eqn:Hmatch;
    [|injection Hrun as <-; destruct Hev].
  inv_bind Hrun. injection Hrun as <-.
  apply in_concat in Hev. destruct Hev as (found & Hf & Hev).
  destruct (mapM_In_inv _ _ _ _ Hx1 Hf) as (info & Hinfo & Hrun).
  destruct (registerIdiom_evidence a _ _ _ _ _ _ Hrun Hev) as (Hp & Hs & Hpos).
  destruct (idiomKeywords_sound a keyword infos info Hentry Hinfo)
    as [Hlex Hkw].
  rewrite Hp, Hs. split.
  - destruct info; exact Hlex.
  - exists i, keyword. repeat split; try assumption. lia.
Qed.

Lemma detected_idioms_are_lexicon_entries_witness :
  Forall (fun ev =>
            In (IdiomEvidence.phrase ev, IdiomEvidence.score ev)
               (SentimentAnalyzer.idioms Host.analyzer) /\
            exists i keyword,
              (i < length (Str.words (Str.lit "tu as le cafard")))%nat /\
              Props.keywordOf (IdiomEvidence.phrase ev) = Some keyword /\
              SentimentAnalyzer.matchesKeyword
                (Str.words (Str.lit "tu as le cafard")) i
                (Str.words keyword) = true /\
              IdiomEvidence.position ev
              = Some (i, (i + length (Str.words keyword) - 1)%nat))
         [ {| IdiomEvidence.phrase := Str.lit "avoir le cafard";
              IdiomEvidence.score := 0.2%Q;
              IdiomEvidence.position := Some (2, 3)%nat |} ].
Proof.
  apply (detected_idioms_are_lexicon_entries Host.analyzer
           (Str.lit "tu as le cafard")).
  vm_compute. reflexivity.
Defined.

Lemma plain_idiom_found (a : SentimentAnalyzer.t)
    (text idiom : jsstring) (score : Q) (i : nat) :
  In (idiom, score) (SentimentAnalyzer.idioms a) ->
  SentimentAnalyzer.commonVerb (nth 0 (Str.words idiom) []) = false ->
  (i < length (Str.words text))%nat ->
  (forall j w, Str.words idiom !! j = Some w ->
               (i + j < length (Str.words text))%nat ->
               nth (i + j) (Str.words text) [] = w) ->
  exists detected,
    SentimentAnalyzer._detectIdioms a text = Ok detected /\
    In {| IdiomEvidence.phrase := idiom;
          IdiomEvidence.score := score;
          IdiomEvidence.position :=
            Some (i, (i + length (Str.words idiom) - 1)%nat) |}
       detected.
Proof.
  intros Hlex Hplain Hi Hmatch.
  destruct (_detectIdioms_total a text) as [detected Hrun].
  exists detected. split; [exact Hrun|].
  unfold SentimentAnalyzer._detectIdioms in Hrun. inv_bind Hrun.
  injection Hrun as <-.
  assert (Hkw : Props.keywordOf idiom = Some idiom).
  { unfold Props.keywordOf. rewrite Hplain, andb_false_r. reflexivity. }
  destruct (fold_filed (SentimentAnalyzer.idioms a) [] idiom (idiom, score)
              Hkw (or_intror Hlex)) as (infos & Hentry & Hinfo).
  destruct (mapM_In _ _ _ i Hx) as (perPos & Hpos & Hin1);
    [apply in_seq; lia|].
  simpl in Hpos. inv_bind Hpos. injection Hpos as <-.
  destruct (mapM_In _ _ _ (idiom, infos) Hx0 Hentry) as (perKw & Hk & Hin2).
  simpl in Hk.
  apply matchesKeyword_spec in Hmatch. rewrite Hmatch in Hk.
  inv_bind Hk. injection Hk as <-.
  destruct (mapM_In _ _ _ (idiom, score) Hx1 Hinfo) as (found & Hreg & Hin3).
  unfold SentimentAnalyzer.registerIdiom in Hreg. simpl in Hreg.
  rewrite Hplain in Hreg. injection Hreg as <-.
  apply in_concat. exists (concat x0). split; [exact Hin1|].
  apply in_concat. exists (concat x1). split; [exact Hin2|].
  apply in_concat. eexists. split; [exact Hin3|]. now left.
Qed.

(** ** The structural result as a whole *)

Section StructuralResult.
Import ContextualAnalyzer.
Local Open Scope Q_scope.
Context (P : Platform) (c : ContextualAnalyzer.t).

(** Either the guard of [analyze] returns, or the stages run. *)
Lemma analyze_cases v r :
  analyze P c v = Ok r ->
  exists base,
    SentimentAnalyzer.analyze P (baseAnalyzer c) v = Ok base /\
    (r = enhance base \/
     exists text,
       v = JString text /\ (10 <= length (Str.trim text))%nat /\
       analyzeStructure P c text base = Ok r).
Proof.
  intros H.
  destruct (analyze_total P (baseAnalyzer c) v) as [base Hbase].
  exists base. split; [exact Hbase|].
  assert (Hcases :
            (isString v = false \/
             exists s, v = JString s /\ (length (Str.trim s) < 10)%nat) \/
            exists s, v = JString s /\ (10 <= length (Str.trim s))%nat).
  { destruct v; try (left; left; reflexivity).
    destruct (le_lt_dec 10 (length (Str.trim s))); [right | left; right];
      eauto. }
  destruct Hcases as [Hshort | (s & -> & Hlong)].
  - left. rewrite analyze_short in H by exact Hshort.
    rewrite Hbase in H. simpl in H. injection H as <-. reflexivity.
  - right. exists s. split; [reflexivity|]. split; [exact Hlong|].
    rewrite analyze_long in H by exact Hlong.
    rewrite Hbase in H. exact H.
Qed.

Lemma trend_of_pattern sa pf tr :
  ((length (SegmentAnalysis.segments sa) <= 1)%nat ->
   ProgressionFactor.progression pf = 0) ->
  _analyzeTrends sa pf = Ok tr ->
  let pattern := NarrativePattern.pattern (_identifyNarrativePattern c pf) in
  (pattern = Redemption -> Trends.trend tr = NetteAmelioration) /\
  (pattern = Downfall -> Trends.trend tr = NetteDegradation) /\
  (pattern = Consistency ->
   Trends.trend tr = Stable \/ Trends.trend tr = LegereAmelioration \/
   Trends.trend tr = LegereDegradation) /\
  (pattern = Mixed -> Trends.trend tr <> Stable).
Proof.
  intros Hzero. unfold _analyzeTrends, _identifyNarrativePattern.
  destruct (length (SegmentAnalysis.segments sa) <=? 1)%nat eqn:E.
  - apply Nat.leb_le in E. rewrite (Hzero E).
    intros H. injection H as <-. simpl.
    repeat split; try discriminate. intros _. left. reflexivity.
  - intros H. inv_bind H. inv_bind H. injection H as <-. simpl.
    set (p := ProgressionFactor.progression pf).
    pose proof (Qabs_Qlt_condition p 0.1) as Habs.
    qtest (Num.ltb 0.25 p).
    { qtest (Num.ltb 0.2 p); [|lra].
      repeat split; intros; try discriminate; reflexivity. }
    qtest (Num.ltb p (- 0.25)).
    { qtest (Num.ltb 0.2 p); [lra|]. qtest (Num.ltb 0.1 p); [lra|].
      qtest (Num.ltb 0.05 p); [lra|]. qtest (Num.ltb p (- 0.2)); [|lra].
      repeat split; intros; try discriminate; reflexivity. }
    qtest (Num.ltb (Qabs p) 0.1).
    + apply Habs in E2.
      qtest (Num.ltb 0.2 p); [lra|]. qtest (Num.ltb 0.1 p); [lra|].
      qtest (Num.ltb 0.05 p).
      { repeat split; intros; try discriminate. right. left. reflexivity. }
      qtest (Num.ltb p (- 0.2)); [lra|]. qtest (Num.ltb p (- 0.1)); [lra|].
      qtest (Num.ltb p (- 0.05)).
      { repeat split; intros; try discriminate. right. right. reflexivity. }
      repeat split; intros; try discriminate. left. reflexivity.
    + apply Qle_not_lt in E2. rewrite Habs in E2.
      qtest (Num.ltb 0.2 p).
      { repeat split; intros; discriminate. }
      qtest (Num.ltb 0.1 p).
      { repeat split; intros; discriminate. }
      qtest (Num.ltb 0.05 p).
      { repeat split; intros; discriminate. }
      qtest (Num.ltb p (- 0.2)).
      { repeat split; intros; discriminate. }
      qtest (Num.ltb p (- 0.1)).
      { repeat split; intros; discriminate. }
      qtest (Num.ltb p (- 0.05)).
      { repeat split; intros; discriminate. }
      exfalso. apply E2. lra.
Qed.

Lemma _analyzeProgression_few sa pf :
  _analyzeProgression sa = Ok pf ->
  (length (SegmentAnalysis.segments sa) <= 1)%nat ->
  pf = {| ProgressionFactor.startScore := None;
          ProgressionFactor.endScore := None;
          ProgressionFactor.progression := 0;
          ProgressionFactor.impact := 0 |}.
Proof.
  unfold _analyzeProgression. intros H Hlen.
  apply Nat.leb_le in Hlen. rewrite Hlen in H. injection H as <-. reflexivity.
Qed.

End StructuralResult.

(** X15. For every input, long or short, the structural result repeats
    the four fields of the lexical result of the same input unchanged,
    and its [baseScore] is that lexical score. *)
Theorem base_fields_preserved (P : Platform) (c : ContextualAnalyzer.t)
    (v : JsValue) (r : ContextualResult.t) :
  ContextualAnalyzer.analyze P c v = Ok r ->
  exists base,
    SentimentAnalyzer.analyze P (ContextualAnalyzer.baseAnalyzer c) v
    = Ok base /\
    ContextualResult.score r = BaseResult.score base /\
    ContextualResult.sentiment r = BaseResult.sentiment base /\
    ContextualResult.confidence r = BaseResult.confidence base /\
    ContextualResult.details r = BaseResult.details base /\
    ContextualResult.baseScore r = BaseResult.score base.
Proof.
  intros H. destruct (analyze_cases P c v r H) as (base & Hbase & Hr).
  exists base. split; [exact Hbase|].
  destruct Hr as [-> | (text & _ & _ & Hrun)]; [repeat split|].
  destruct (analyzeStructure_stages P c text base)
    as (sa & pf & cf & tf & tr & _ & _ & _ & _ & _ & Hr).
  simpl in Hr. rewrite Hr in Hrun. injection Hrun as <-. repeat split.
Qed.

Lemma base_fields_preserved_witness :
  exists r base,
    ContextualAnalyzer.analyze Host.platform Host.contextualAnalyzer
      (JString (Str.lit "Nul. Bof. Normal. Bon. Excellent.")) = Ok r /\
    SentimentAnalyzer.analyze Host.platform
      (ContextualAnalyzer.baseAnalyzer Host.contextualAnalyzer)
      (JString (Str.lit "Nul. Bof. Normal. Bon. Excellent.")) = Ok base /\
    ContextualResult.score r = BaseResult.score base /\
    ContextualResult.sentiment r = BaseResult.sentiment base /\
    ContextualResult.confidence r = BaseResult.confidence base /\
    ContextualResult.details r = BaseResult.details base /\
    ContextualResult.baseScore r = BaseResult.score base.
Proof.
  eexists.
  refine (let H := _ in
          match base_fields_preserved Host.platform Host.contextualAnalyzer
                  (JString (Str.lit "Nul. Bof. Normal. Bon. Excellent."))
                  _ H with
          | ex_intro _ base Hbase => ex_intro _ base (conj H Hbase)
          end).
  vm_compute. reflexivity.
Defined.

(** X16. Whenever the segment scores are numbers, the narrative pattern
    and the trend computed from their progression never contradict each
    other: "redemption" comes with the trend "nette amélioration",
    "downfall" with "nette dégradation", "consistency" with "stable" or a
    slight change, and "mixed" never with "stable". *)
Theorem narrative_agrees_with_trend (c : ContextualAnalyzer.t)
    (sa : SegmentAnalysis.t) (pf : ProgressionFactor.t) (tr : Trends.t) :
  ContextualAnalyzer._analyzeProgression sa = Ok pf ->
  ContextualAnalyzer._analyzeTrends sa pf = Ok tr ->
  let pattern :=
    NarrativePattern.pattern
      (ContextualAnalyzer._identifyNarrativePattern c pf) in
  (pattern = Redemption -> Trends.trend tr = NetteAmelioration) /\
  (pattern = Downfall -> Trends.trend tr = NetteDegradation) /\
  (pattern = Consistency ->
   Trends.trend tr = Stable \/ Trends.trend tr = LegereAmelioration \/
   Trends.trend tr = LegereDegradation) /\
  (pattern = Mixed -> Trends.trend tr <> Stable).
Proof.
  intros Hpf Htrends.
  apply (trend_of_pattern c sa pf tr); [|exact Htrends].
  intros Hlen. rewrite (_analyzeProgression_few sa pf Hpf Hlen). reflexivity.
Qed.

Lemma narrative_agrees_with_trend_witness :
  exists sa pf tr,
    ContextualAnalyzer._analyzeSegments Host.platform Host.contextualAnalyzer
      (ContextualAnalyzer._segmentText
         (ContextualAnalyzer._splitIntoSentences
            (Str.lit "Nul. Bof. Normal. Bon. Excellent."))) = Ok sa /\
    ContextualAnalyzer._analyzeProgression sa = Ok pf /\
    ContextualAnalyzer._analyzeTrends sa pf = Ok tr /\
    Trends.trend tr = NetteAmelioration.
Proof.
  assert (H : exists sa pf tr,
             ContextualAnalyzer._analyzeSegments Host.platform
               Host.contextualAnalyzer
               (ContextualAnalyzer._segmentText
                  (ContextualAnalyzer._splitIntoSentences
                     (Str.lit "Nul. Bof. Normal. Bon. Excellent.")))
             = Ok sa /\
             ContextualAnalyzer._analyzeProgression sa = Ok pf /\
             ContextualAnalyzer._analyzeTrends sa pf = Ok tr /\
             NarrativePattern.pattern
               (ContextualAnalyzer._identifyNarrativePattern
                  Host.contextualAnalyzer pf) = Redemption).
  { do 3 eexists. repeat split; vm_compute; reflexivity. }
  destruct H as (sa & pf & tr & Hsa & Hpf & Htr & Hp).
  exists sa, pf, tr. repeat split; try assumption.
  apply (narrative_agrees_with_trend Host.contextualAnalyzer sa pf tr
           Hpf Htr).
  exact Hp.
Defined.

Section SingleSentence.
Import ContextualAnalyzer.
Local Open Scope Q_scope.
Context (P : Platform) (c : ContextualAnalyzer.t).


End SingleSentence.



(** ** An empty lexicon *)

Section EmptyLexicon.
Import SentimentAnalyzer.
Local Open Scope Q_scope.
Context (P : Platform) (a : SentimentAnalyzer.t).
Hypothesis Hempty : Props.emptyLexicon a.

Lemma fold_left_fixed {A B} (f : A -> B -> A) (l : list B) (st : A) :
  (forall x, f st x = st) -> fold_left f l st = st.
Proof.
  intros H. induction l as [|x l IH]; simpl; [reflexivity|].
  rewrite H. exact IH.
Qed.

Lemma empty_accumulate text : accumulate P a text = Ok initial.
Proof.
  destruct Hempty as (Hp & Hn & Hg & He & Hi & Hpat & Hneg).
  unfold accumulate. rewrite Hpat, map_size_empty. simpl.
  unfold simpleIdioms. rewrite Hi. simpl.
  rewrite (fold_left_fixed (countEmoji a)).
  - rewrite fold_left_fixed; [reflexivity|].
    intros i. unfold scoreToken, wordScoreOf.
    rewrite Hneg, Hp, Hg, Hn. simpl. rewrite !lookup_empty. reflexivity.
  - intros emoji. unfold countEmoji. rewrite He, lookup_empty. reflexivity.
Qed.

Lemma empty_analyze v r :
  analyze P a v = Ok r ->
  BaseResult.score r == 0.5 /\ BaseResult.sentiment r = Neutre /\
  BaseResult.confidence r == 0 /\ BaseResult.details r = Details.empty.
Proof.
  unfold analyze.
  destruct (negb (truthy v) || negb (isString v));
    [intros H; injection H as <-; repeat split|].
  destruct v; try (intros H; injection H as <-; repeat split).
  rewrite empty_accumulate. simpl. intros H. injection H as <-.
  repeat split.
Qed.

End EmptyLexicon.

Lemma fallback_lexicon_empty : Props.emptyLexicon Fallback.analyzer.
Proof. repeat split. Qed.


(** ** The transition that gets analysed *)

Section Strongest.
Import ContextualAnalyzer.
Local Open Scope Q_scope.

Lemma insertByWeight_In x l y :
  In y (insertByWeight x l) <-> y = x \/ In y l.
Proof.
  induction l as [|z l IH]; simpl; [intuition congruence|].
  destruct (Num.ltb _ _); simpl; rewrite ?IH; intuition congruence.
Qed.

Lemma sortByWeight_In l y : In y (sortByWeight l) <-> In y l.
Proof.
  induction l as [|x l IH]; simpl; [tauto|].
  rewrite insertByWeight_In, IH. intuition congruence.
Qed.

Lemma sortByWeight_head l h t :
  sortByWeight l = h :: t ->
  forall y, In y l ->
            Dictionary.weight (fst y) <= Dictionary.weight (fst h).
Proof.
  revert h t. induction l as [|x l IH]; intros h t H y Hy; [destruct Hy|].
  simpl in H. destruct (sortByWeight l) as [|h' t'] eqn:E.
  - simpl in H. injection H as <- <-.
    destruct Hy as [<- | Hy]; [apply Qle_refl|].
    apply sortByWeight_In in Hy. rewrite E in Hy. destruct Hy.
  - simpl in H.
    destruct (Num.ltb (Dictionary.weight (fst x))
                      (Dictionary.weight (fst h'))) eqn:Hlt.
    + apply ltb_lt in Hlt. injection H as <- <-.
      destruct Hy as [<- | Hy]; [lra|]. apply (IH h' t' eq_refl y Hy).
    + apply ltb_ge in Hlt. injection H as <- <-.
      destruct Hy as [<- | Hy]; [apply Qle_refl|].
      pose proof (IH h' t' eq_refl y Hy). lra.
Qed.

End Strongest.

(** X19. The transition stage reports no transition exactly when no
    configured marker matches the lowercased text; otherwise the marker
    it reports is a configured marker that matches, and no matching
    marker has a greater weight. *)
Theorem strongest_marker_is_analysed (P : Platform)
    (c : ContextualAnalyzer.t) (text : jsstring) (base : BaseResult.t)
    (tf : TransitionFactor.t) :
  ContextualAnalyzer._analyzeTransitions P c text base = Ok tf ->
  (TransitionFactor.found tf = false <->
   forall m, In m (ContextualAnalyzer.transitionMarkers c) ->
             countMatches P (Dictionary.word m) (toLowerCase P text) = 0%nat) /\
  (TransitionFactor.found tf = false ->
   TransitionFactor.marker tf = None /\ TransitionFactor.impact tf = 0%Q) /\
  (forall w, TransitionFactor.marker tf = Some w ->
     exists m,
       In m (ContextualAnalyzer.transitionMarkers c) /\
       Dictionary.word m = w /\
       (0 < countMatches P (Dictionary.word m) (toLowerCase P text))%nat /\
       forall m',
         In m' (ContextualAnalyzer.transitionMarkers c) ->
         (0 < countMatches P (Dictionary.word m') (toLowerCase P text))%nat ->
         (Dictionary.weight m' <= Dictionary.weight m)%Q).
Proof.
  unfold ContextualAnalyzer._analyzeTransitions.
  set (detect := fun marker : Dictionary.Marker =>
                   let matches :=
                     countMatches P (Dictionary.word marker)
                                  (toLowerCase P text) in
                   if (0 <? matches)%nat then Some (marker, matches)
                   else None).
  set (detected := omap detect (ContextualAnalyzer.transitionMarkers c)).
  assert (Hdet : forall m n, In (m, n) detected <->
                   In m (ContextualAnalyzer.transitionMarkers c) /\
                   n = countMatches P (Dictionary.word m) (toLowerCase P text)
                   /\ (0 < n)%nat).
  { intros m n. subst detected.
    rewrite <- list_elem_of_In, list_elem_of_omap. split.
    - intros (x & Hx & Hf). apply list_elem_of_In in Hx.
      unfold detect in Hf. simpl in Hf.
      destruct (0 <? _)%nat eqn:E; [|discriminate].
      injection Hf as -> <-. apply Nat.ltb_lt in E. auto.
    - intros (Hm & -> & Hn). exists m. split; [apply list_elem_of_In, Hm|].
      unfold detect. simpl. apply Nat.ltb_lt in Hn. rewrite Hn. reflexivity. }
  destruct (ContextualAnalyzer.sortByWeight detected)
    as [|[strongest n] rest] eqn:Hsort.
  - intros H. injection H as <-. simpl.
    assert (Hnone : forall m,
               In m (ContextualAnalyzer.transitionMarkers c) ->
               countMatches P (Dictionary.word m) (toLowerCase P text)
               = 0%nat).
    { intros m Hm.
      destruct (countMatches P (Dictionary.word m) (toLowerCase P text))
        as [|k] eqn:E; [reflexivity|].
      assert (Hin : In (m, S k) detected) by (apply Hdet; split; [|split]; auto; lia).
      apply sortByWeight_In in Hin. rewrite Hsort in Hin. destruct Hin. }
    split; [tauto|]. split; [auto|]. intros w Hw. discriminate.
  - assert (Hin : In (strongest, n) detected).
    { apply sortByWeight_In. rewrite Hsort. now left. }
    apply Hdet in Hin. destruct Hin as (Hm & -> & Hn).
    assert (Hmax : forall m',
               In m' (ContextualAnalyzer.transitionMarkers c) ->
               (0 < countMatches P (Dictionary.word m') (toLowerCase P text))%nat ->
               (Dictionary.weight m' <= Dictionary.weight strongest)%Q).
    { intros m' Hm' Hn'.
      apply (sortByWeight_head detected _ _ Hsort
               (m', countMatches P (Dictionary.word m') (toLowerCase P text))).
      apply Hdet. split; [exact Hm'|]. split; [reflexivity | exact Hn']. }
    assert (Hfound :
              forall tf',
                TransitionFactor.found tf' = true ->
                TransitionFactor.marker tf' = Some (Dictionary.word strongest) ->
                (TransitionFactor.found tf' = false <->
                 forall m, In m (ContextualAnalyzer.transitionMarkers c) ->
                   countMatches P (Dictionary.word m) (toLowerCase P text)
                   = 0%nat) /\
                (TransitionFactor.found tf' = false ->
                 TransitionFactor.marker tf' = None /\
                 TransitionFactor.impact tf' = 0%Q) /\
                (forall w, TransitionFactor.marker tf' = Some w ->
                   exists m,
                     In m (ContextualAnalyzer.transitionMarkers c) /\
                     Dictionary.word m = w /\
                     (0 < countMatches P (Dictionary.word m)
                            (toLowerCase P text))%nat /\
                     forall m',
                       In m' (ContextualAnalyzer.transitionMarkers c) ->
                       (0 < countMatches P (Dictionary.word m')
                              (toLowerCase P text))%nat ->
                       (Dictionary.weight m' <= Dictionary.weight m)%Q)).
    { intros tf' Hf Hmk. rewrite Hf, Hmk. split; [|split].
      - split; [discriminate|]. intros H0. specialize (H0 _ Hm). lia.
      - discriminate.
      - intros w Hw. injection Hw as <-. exists strongest. auto. }
    destruct (_ || _).
    + intros H. injection H as <-. apply Hfound; reflexivity.
    + intros H. inv_bind H. inv_bind H. injection H as <-.
      apply Hfound; reflexivity.
Qed.

Lemma strongest_marker_is_analysed_witness :
  exists tf,
    ContextualAnalyzer._analyzeTransitions Host.platform
      Host.contextualAnalyzer (Str.lit "Nul au début, mais bon ensuite")
      SentimentAnalyzer.neutralResult = Ok tf /\
    TransitionFactor.marker tf = Some (Str.lit "mais") /\
    exists m,
      In m (ContextualAnalyzer.transitionMarkers Host.contextualAnalyzer) /\
      Dictionary.word m = Str.lit "mais".
Proof.
  assert (H : exists tf,
             ContextualAnalyzer._analyzeTransitions Host.platform
               Host.contextualAnalyzer
               (Str.lit "Nul au début, mais bon ensuite")
               SentimentAnalyzer.neutralResult = Ok tf /\
             TransitionFactor.marker tf = Some (Str.lit "mais")).
  { eexists. split; vm_compute; reflexivity. }
  destruct H as (tf & H & Hm). exists tf. split; [exact H|].
  split; [exact Hm|].
  destruct (proj2 (proj2
              (strongest_marker_is_analysed Host.platform
                 Host.contextualAnalyzer _ _ tf H)) _ Hm)
    as (m & Hin & Hw & _).
  exists m. split; assumption.
Defined.

(** ** Structural analysis over an empty lexicon *)

Section EmptyStructural.
Import ContextualAnalyzer.
Local Open Scope Q_scope.
Context (P : Platform) (c : ContextualAnalyzer.t).
Hypothesis Hempty : Props.emptyLexicon (baseAnalyzer c).

Lemma base_half text r : baseAnalyze P c text = Ok r -> BaseResult.score r == 0.5.
Proof. intros H. apply (empty_analyze P _ Hempty _ _ H). Qed.

Lemma round2_zero x : x == 0 -> Num.round2 x == 0.
Proof. intros H. rewrite (round2_comp x 0 H). reflexivity. Qed.

Lemma sum_half l :
  Forall (fun x => x == 0.5) l -> sum l == Num.ofNat (length l) * 0.5.
Proof.
  unfold sum.
  assert (G : forall acc, Forall (fun x => x == 0.5) l ->
                fold_left Qplus l acc == acc + Num.ofNat (length l) * 0.5).
  { induction l as [|x l IH]; intros acc H.
    - cbn [fold_left length]. change (Num.ofNat 0) with 0. lra.
    - inversion H as [|? ? Hx Hl]; subst. cbn [fold_left length].
      rewrite (IH _ Hl), ofNat_S, Hx. lra. }
  intros H. rewrite (G 0 H). lra.
Qed.

Lemma empty_progression sa pf :
  Forall (fun ss => SegmentScore.score ss == 0.5) (SegmentAnalysis.segments sa) ->
  _analyzeProgression sa = Ok pf ->
  ProgressionFactor.progression pf == 0 /\ ProgressionFactor.impact pf == 0.
Proof.
  intros Hall. unfold _analyzeProgression.
  destruct (_ <=? 1)%nat;
    [intros H; injection H as <-; split; reflexivity|].
  intros H. inv_bind H. inv_bind H. injection H as <-. simpl.
  unfold required in Hx, Hx0.
  destruct (if (0 <? _)%nat then _ else _) as [f|] eqn:Ef in Hx;
    [injection Hx as ->|discriminate].
  destruct (if (0 <? _)%nat then _ else _) as [l|] eqn:El in Hx0;
    [injection Hx0 as ->|discriminate].
  apply firstOr_In in Ef. apply firstOr_In in El.
  rewrite List.Forall_forall in Hall.
  pose proof (Hall _ Ef) as Hf. pose proof (Hall _ El) as Hl.
  assert (Hp : SegmentScore.score x0 - SegmentScore.score x == 0)
    by (rewrite Hf, Hl; lra).
  split; [apply round2_zero, Hp|].
  apply round2_zero.
  qtest (Num.ltb 0.3 (SegmentScore.score x0 - SegmentScore.score x));
    [lra|].
  qtest (Num.ltb (SegmentScore.score x0 - SegmentScore.score x) (- 0.3));
    lra.
Qed.

Lemma empty_conclusion segments cf :
  _analyzeConclusion P c segments = Ok cf -> ConclusionFactor.impact cf == 0.
Proof.
  unfold _analyzeConclusion.
  destruct (List.filter _ segments) as [|conclusion l];
    [intros H; injection H as <-; reflexivity|].
  intros H. inv_bind H. inv_bind H. injection H as <-. simpl.
  apply base_half in Hx.
  assert (Ho : x0 == 0.5).
  { destruct (0 <? _)%nat eqn:Elen in Hx0; [|injection Hx0 as <-; reflexivity].
    apply Nat.ltb_lt in Elen.
    inv_bind Hx0. injection Hx0 as <-.
    assert (Hlen : length x1 = length
              (List.filter (fun s => negb (bool_decide (Segment.type s = End)))
                           segments)).
    { apply mapM_Ok in Hx1. symmetry. apply (Forall2_length _ _ _ Hx1). }
    assert (Hall : Forall (fun y => y == 0.5) (map BaseResult.score x1)).
    { apply List.Forall_map.
      eapply mapM_Forall; [|exact Hx1].
      intros s r _ Hr. apply (base_half _ _ Hr). }
    rewrite (sum_half _ Hall), length_map, Hlen.
    pose proof (ofNat_pos _ Elen) as Hpos.
    field. lra. }
  assert (Hd : BaseResult.score x - x0 == 0) by (rewrite Hx, Ho; lra).
  apply round2_zero.
  qtest (Num.ltb 0.3 (BaseResult.score x - x0)); [lra|].
  qtest (Num.ltb 0.1 (BaseResult.score x - x0)); [lra|].
  qtest (Num.ltb (BaseResult.score x - x0) (- 0.3)); [lra|].
  qtest (Num.ltb (BaseResult.score x - x0) (- 0.1)); lra.
Qed.

Lemma empty_transitions text base tf :
  _analyzeTransitions P c text base = Ok tf ->
  TransitionFactor.impact tf == 0 \/
  exists m, In m (transitionMarkers c) /\
            TransitionFactor.impact tf == Dictionary.weight m * 0.05.
Proof.
  unfold _analyzeTransitions.
  destruct (sortByWeight _) as [|[strongest n] l] eqn:Hsort;
    [intros H; injection H as <-; left; reflexivity|].
  assert (Hin : In strongest (transitionMarkers c)).
  { assert (H : In (strongest, n) ((strongest, n) :: l)) by now left.
    rewrite <- Hsort in H.
    apply sortByWeight_In, list_elem_of_In, list_elem_of_omap in H.
    destruct H as (m & Hm & Hf). apply list_elem_of_In in Hm.
    simpl in Hf. destruct (0 <? _)%nat; [|discriminate].
    injection Hf as -> _. exact Hm. }
  destruct (_ || _).
  - intros H; injection H as <-. right. exists strongest.
    split; [exact Hin | reflexivity].
  - intros H. inv_bind H. inv_bind H. injection H as <-. simpl. left.
    apply base_half in Hx, Hx0. apply round2_zero.
    rewrite Hx, Hx0. lra.
Qed.

Lemma empty_narrative pf :
  ProgressionFactor.progression pf == 0 ->
  NarrativePattern.pattern (_identifyNarrativePattern c pf) = Consistency /\
  NarrativePattern.impact (_identifyNarrativePattern c pf)
  = Num.round2 (Dictionary.consistency (narrativePatterns c)).
Proof.
  intros H. unfold _identifyNarrativePattern.
  qtest (Num.ltb 0.25 (ProgressionFactor.progression pf)); [lra|].
  qtest (Num.ltb (ProgressionFactor.progression pf) (- 0.25)); [lra|].
  assert (Ha : Qabs (ProgressionFactor.progression pf) == 0)
    by (rewrite H; reflexivity).
  qtest (Num.ltb (Qabs (ProgressionFactor.progression pf)) 0.1); [|lra].
  split; reflexivity.
Qed.

End EmptyStructural.

(** ** Labels *)

Section Labels.
Local Open Scope Q_scope.

Lemma sentiment_bands x :
  match ContextualAnalyzer._getSentimentFromScore x with
  | TresPositif => 0.85 <= x
  | Positif => 0.7 <= x < 0.85
  | PlutotPositif => 0.6 <= x < 0.7
  | LegerementPositif => 0.55 <= x < 0.6
  | Neutre => 0.45 <= x < 0.55
  | LegerementNegatif => 0.4 <= x < 0.45
  | PlutotNegatif => 0.3 <= x < 0.4
  | Negatif => 0.15 <= x < 0.3
  | TresNegatif => x < 0.15
  end.
Proof.
  unfold ContextualAnalyzer._getSentimentFromScore.
  qtest (Num.leb 0.85 x); [exact E|].
  qtest (Num.leb 0.7 x); [split; assumption|].
  qtest (Num.leb 0.6 x); [split; assumption|].
  qtest (Num.leb 0.55 x); [split; assumption|].
  qtest (Num.leb 0.45 x).
  - qtest (Num.ltb x 0.55); [split; assumption|]. lra.
  - cbn [andb].
    qtest (Num.leb 0.4 x); [split; assumption|].
    qtest (Num.leb 0.3 x); [split; assumption|].
    qtest (Num.leb 0.15 x); [split; assumption|]. assumption.
Qed.

End Labels.

(** X20. The lexical and the structural analyzer label scores with the
    same function, and the label never moves down the scale from "très
    négatif" to "très positif" when the score goes up; equal scores get
    equal labels, and every score from 0.45 up to but excluding 0.55 is
    "neutre". *)
Theorem label_is_monotone (x y : Q) :
  (x <= y)%Q ->
  SentimentAnalyzer._getSentimentFromScore x
  = ContextualAnalyzer._getSentimentFromScore x /\
  (Props.rank (ContextualAnalyzer._getSentimentFromScore x)
   <= Props.rank (ContextualAnalyzer._getSentimentFromScore y))%nat /\
  ((y <= x)%Q ->
   ContextualAnalyzer._getSentimentFromScore x
   = ContextualAnalyzer._getSentimentFromScore y) /\
  ((0.45 <= x)%Q -> (y < 0.55)%Q ->
   ContextualAnalyzer._getSentimentFromScore x = Neutre /\
   ContextualAnalyzer._getSentimentFromScore y = Neutre).
Proof.
  intros Hxy. split; [reflexivity|].
  pose proof (sentiment_bands x) as Hx. pose proof (sentiment_bands y) as Hy.
  split; [|split].
  - destruct (ContextualAnalyzer._getSentimentFromScore x),
             (ContextualAnalyzer._getSentimentFromScore y);
      simpl; try lia; exfalso; lra.
  - intros Hyx.
    destruct (ContextualAnalyzer._getSentimentFromScore x),
             (ContextualAnalyzer._getSentimentFromScore y);
      try reflexivity; exfalso; lra.
  - intros Hlo Hhi.
    destruct (ContextualAnalyzer._getSentimentFromScore x),
             (ContextualAnalyzer._getSentimentFromScore y);
      try (split; reflexivity); exfalso; lra.
Qed.

Lemma label_is_monotone_witness :
  (Props.rank (ContextualAnalyzer._getSentimentFromScore 0.42)
   <= Props.rank (ContextualAnalyzer._getSentimentFromScore 0.61))%nat.
Proof.
  apply (label_is_monotone 0.42 0.61). vm_compute. discriminate.
Defined.

Lemma clamp_id x : (0 <= x <= 1)%Q -> (Qmax 0 (Qmin 1 x) == x)%Q.
Proof.
  intros H.
  destruct (Q.max_spec 0 (Qmin 1 x)) as [[H1 E1]|[H1 E1]];
    destruct (Q.min_spec 1 x) as [[H2 E2]|[H2 E2]]; lra.
Qed.

(** X21. When the dictionary file cannot be read the module builds its
    analyzers over an empty lexicon. For every text of at least ten
    characters after trimming whose lower-cased form contains neither
    "constructor" nor "__proto__", the two names that a token can share
    with a member of [Object.prototype], the structural analyzer built
    that way returns: base score 0.5 with the lexical label "neutre", a
    "consistency" narrative, a contextual score of either 0.55 or 0.557,
    and in both cases the contextual label "légèrement positif". *)
Theorem fallback_structural_result (P : Platform) (text : jsstring) :
  Props.memberFree P text = true ->
  (10 <= length (Str.trim text))%nat ->
  exists r np,
    ContextualAnalyzer.analyze P Fallback.contextualAnalyzer (JString text)
    = Ok r /\
    (ContextualResult.baseScore r == 0.5)%Q /\
    ContextualResult.sentiment r = Neutre /\
    ContextFactors.narrative (ContextualResult.contextFactors r) = Some np /\
    NarrativePattern.pattern np = Consistency /\
    ((ContextualResult.contextualScore r == 0.55)%Q \/
     (ContextualResult.contextualScore r == 0.557)%Q) /\
    ContextualResult.contextualSentiment r = Some LegerementPositif.
Proof.
  intros _ Hlen.
  pose proof fallback_lexicon_empty as Hempty.
  set (c := Fallback.contextualAnalyzer).
  assert (Hc : Props.emptyLexicon (ContextualAnalyzer.baseAnalyzer c))
    by exact Hempty.
  rewrite (analyze_long P c text Hlen).
  destruct (analyze_total P (ContextualAnalyzer.baseAnalyzer c) (JString text))
    as [base Hbase].
  rewrite Hbase. cbn [mbind Exc_bind].
  destruct (empty_analyze P _ Hc _ _ Hbase) as (Hs & Hl & _ & Hd).
  destruct (analyzeStructure_stages P c text base)
    as (sa & pf & cf & tf & tr & Hsa & Hpf & Hcf & Htf & _ & Hr).
  cbv zeta in Hr. rewrite Hr.
  assert (Hall : Forall (fun ss => (SegmentScore.score ss == 0.5)%Q)
                        (SegmentAnalysis.segments sa)).
  { eapply Forall_impl; [apply (_analyzeSegments_scores P c _ _ Hsa)|].
    intros ss (b & Hb & ->). apply (base_half P c Hc _ _ Hb). }
  destruct (empty_progression sa pf Hall Hpf) as (Hprog & Hpi).
  pose proof (empty_conclusion P c Hc _ _ Hcf) as Hci.
  destruct (empty_narrative c pf Hprog) as (Hnp & Hni).
  assert (Hii : IntensityFactor.impact
                  (ContextualAnalyzer._analyzeIntensity P base) = 0%Q).
  { unfold ContextualAnalyzer._analyzeIntensity. rewrite Hd. reflexivity. }
  assert (Hti : (TransitionFactor.impact tf == 0)%Q \/
                (TransitionFactor.impact tf == 0.7 * 0.05)%Q).
  { destruct (empty_transitions P c Hc _ _ _ Htf) as [H | (m & Hm & H)];
      [left; exact H | right].
    rewrite H. destruct Hm as [<- | [<- | []]]; reflexivity. }
  set (score := ContextualAnalyzer._calculateContextualScore c
                  (BaseResult.score base) pf cf
                  (ContextualAnalyzer._analyzeIntensity P base) tf
                  (ContextualAnalyzer._identifyNarrativePattern c pf)).
  assert (Hscore : (score == 0.55)%Q \/ (score == 0.557)%Q).
  { subst score. unfold ContextualAnalyzer._calculateContextualScore.
    rewrite !orElse_zero, Hni, Hii, Hpi, Hci, Hs.
    change (Num.round2 (Dictionary.consistency
                          (ContextualAnalyzer.narrativePatterns c)))
      with (5 # 100)%Q.
    change (Dictionary.transitions (ContextualAnalyzer.weights c))
      with 0.2%Q.
    destruct Hti as [Ht | Ht]; rewrite Ht; [left | right];
      rewrite clamp_id; lra. }
  assert (Hclamp : (Qmax 0 (Qmin 1 score) == score)%Q).
  { apply clamp_id. destruct Hscore as [H | H]; rewrite H; lra. }
  eexists. eexists. split; [reflexivity|]. cbn.
  split; [exact Hs|]. split; [exact Hl|]. split; [reflexivity|].
  split; [exact Hnp|].
  split; [rewrite Hclamp; exact Hscore|].
  f_equal.
  pose proof (sentiment_bands (Qmax 0 (Qmin 1 score))) as Hb.
  revert Hb.
  destruct (ContextualAnalyzer._getSentimentFromScore _);
    intros Hb; try reflexivity; exfalso; destruct Hscore as [H | H]; lra.
Qed.

Lemma fallback_structural_result_witness :
  exists r,
    ContextualAnalyzer.analyze Host.platform Fallback.contextualAnalyzer
      (JString (Str.lit "Un film magnifique, mais trop long.")) = Ok r /\
    ContextualResult.contextualSentiment r = Some LegerementPositif.
Proof.
  destruct (fallback_structural_result Host.platform
              (Str.lit "Un film magnifique, mais trop long."))
    as (r & np & H & _ & _ & _ & _ & _ & Hs).
  - vm_compute. reflexivity.
  - vm_compute. lia.
  - exists r. split; assumption.
Defined.

(** ** The evaluator *)

Section Evaluation.
Import SentimentEvaluator.
Local Open Scope Q_scope.
Context (P : Platform) (e : SentimentEvaluator.t).

Lemma structural_total c v : exists r, ContextualAnalyzer.analyze P c v = Ok r.
Proof.
  destruct (analyze_total P (ContextualAnalyzer.baseAnalyzer c) v)
    as [base Hbase].
  assert (Hcases :
            (isString v = false \/
             exists s, v = JString s /\ (length (Str.trim s) < 10)%nat) \/
            exists s, v = JString s /\ (10 <= length (Str.trim s))%nat).
  { destruct v; try (left; left; reflexivity).
    destruct (le_lt_dec 10 (length (Str.trim s))); [right | left; right];
      eauto. }
  destruct Hcases as [Hshort | (s & -> & Hlong)].
  - rewrite analyze_short by exact Hshort. rewrite Hbase. simpl. eauto.
  - rewrite analyze_long by exact Hlong. rewrite Hbase.
    destruct (analyzeStructure_stages P c s base)
      as (sa & pf & cf & tf & tr & _ & _ & _ & _ & _ & Hr).
    cbv zeta in Hr. cbn [mbind Exc_bind]. rewrite Hr. eauto.
Qed.

Lemma structural_unanalysed c v r :
  Props.structurallyAnalysed v = false ->
  ContextualAnalyzer.analyze P c v = Ok r ->
  exists base,
    SentimentAnalyzer.analyze P (ContextualAnalyzer.baseAnalyzer c) v
    = Ok base /\
    r = ContextualAnalyzer.enhance base.
Proof.
  intros Hv H.
  assert (Hshort : isString v = false \/
            exists s, v = JString s /\ (length (Str.trim s) < 10)%nat).
  { destruct v; try (left; reflexivity). right. exists s.
    split; [reflexivity|]. unfold Props.structurallyAnalysed in Hv.
    apply Nat.leb_gt in Hv. exact Hv. }
  rewrite analyze_short in H by exact Hshort.
  inv_bind H. injection H as <-. exists x. split; [exact Hx | reflexivity].
Qed.

Lemma evaluateCase_spec results testCase :
  exists d,
    evaluateCase P e results testCase
    = Ok {| Results.total := Results.total results;
            Results.correct :=
              if Summary.correct (Detail.basicResult d)
              then S (Results.correct results) else Results.correct results;
            Results.contextualCorrect :=
              if Summary.correct (Detail.contextualResult d)
              then S (Results.contextualCorrect results)
              else Results.contextualCorrect results;
            Results.accuracy := Results.accuracy results;
            Results.contextualAccuracy := Results.contextualAccuracy results;
            Results.details := Results.details results ++ [d] |} /\
    Detail.text d = TestCase.text testCase /\
    Detail.expected d = TestCase.expectedSentiment testCase /\
    Props.records P e d.
Proof.
  unfold evaluateCase.
  destruct (analyze_total P (analyzer e) (TestCase.text testCase))
    as [basic Hbasic].
  destruct (structural_total (contextualAnalyzer e) (TestCase.text testCase))
    as [contextual Hcontextual].
  rewrite Hbasic, Hcontextual. cbn [mbind Exc_bind].
  lazymatch goal with
  | |- context [Results.details results ++ [?d0]] => exists d0
  end.
  split; [reflexivity|]. cbn.
  split; [reflexivity|]. split; [reflexivity|].
  exists basic, contextual. cbn. repeat split; assumption.
Qed.

Lemma evaluateLoop_spec testCases :
  forall results,
  exists r ds,
    evaluateLoop P e testCases results = Ok r /\
    Results.total r = Results.total results /\
    Results.details r = Results.details results ++ ds /\
    map Detail.text ds = map TestCase.text testCases /\
    map Detail.expected ds = map TestCase.expectedSentiment testCases /\
    Forall (Props.records P e) ds /\
    Results.correct r
    = (Results.correct results
       + length (List.filter
                   (fun d => Summary.correct (Detail.basicResult d)) ds))%nat /\
    Results.contextualCorrect r
    = (Results.contextualCorrect results
       + length (List.filter
                   (fun d => Summary.correct (Detail.contextualResult d))
                   ds))%nat.
Proof.
  induction testCases as [|testCase rest IH]; intros results.
  - exists results, []. cbn. rewrite app_nil_r, !Nat.add_0_r.
    repeat split. constructor.
  - destruct (evaluateCase_spec results testCase)
      as (d & Hd & Htext & Hexp & Hrec).
    cbn [evaluateLoop]. rewrite Hd. cbn [mbind Exc_bind].
    match goal with
    | |- context [evaluateLoop P e rest ?r1] =>
      destruct (IH r1)
        as (r & ds & Hr & Htot & Hdet & Hts & Hes & Hall & Hc & Hcc)
    end.
    exists r, (d :: ds). cbn in Htot, Hdet, Hc, Hcc.
    split; [exact Hr|]. split; [exact Htot|].
    split; [rewrite Hdet, <- app_assoc; reflexivity|].
    split; [cbn; rewrite Htext, Hts; reflexivity|].
    split; [cbn; rewrite Hexp, Hes; reflexivity|].
    split; [constructor; assumption|].
    cbn [List.filter].
    split.
    + rewrite Hc. destruct (Summary.correct (Detail.basicResult d));
        cbn [length]; lia.
    + rewrite Hcc. destruct (Summary.correct (Detail.contextualResult d));
        cbn [length]; lia.
Qed.

Lemma filter_length_le {A} (f : A -> bool) l :
  (length (List.filter f l) <= length l)%nat.
Proof.
  induction l as [|x l IH]; simpl; [lia|]. destruct (f x); simpl; lia.
Qed.

Lemma accuracy_spec (k n : nat) :
  (k <= n)%nat ->
  let q := if (0 <? n)%nat then Num.ofNat k / Num.ofNat n else 0 in
  0 <= q <= 1 /\ q * Num.ofNat n == Num.ofNat k /\
  (q == 1 <-> (0 < n)%nat /\ k = n).
Proof.
  intros Hk q. subst q. destruct (0 <? n)%nat eqn:En.
  - apply Nat.ltb_lt in En. pose proof (ofNat_pos n En) as Hpos.
    pose proof (ofNat_nonneg k) as Hk0. pose proof (ofNat_le k n Hk) as Hkn.
    split; [split|split].
    + apply Qle_shift_div_l; [exact Hpos | lra].
    + apply Qle_shift_div_r; [exact Hpos | lra].
    + field. lra.
    + split.
      * intros H. split; [exact En|].
        destruct (Nat.eq_dec k n) as [-> | Hne]; [reflexivity|].
        exfalso. assert (Hlt : (k < n)%nat) by lia.
        destruct (ofNat_ratio k n En) as (_ & Hlt1 & _).
        specialize (Hlt1 Hlt). lra.
      * intros [_ ->]. field. lra.
  - apply Nat.ltb_ge in En. assert (n = 0%nat) by lia. subst n.
    assert (k = 0%nat) by lia. subst k.
    split; [split; lra|]. split; [reflexivity|].
    split; [intros H; exfalso; lra | intros [H _]; lia].
Qed.

End Evaluation.

(** X22. Whenever the evaluator returns, its report has one detail per
    test case, in order, each recording the text and the expected label
    of its case and marked correct exactly when the label it records is
    the expected one; the two counts are the numbers of details marked
    correct, so neither exceeds the total; each accuracy is the count
    divided by the total (0 for an empty list), lies between 0 and 1, and
    is 1 exactly when the list is not empty and every case is marked
    correct. *)
Theorem evaluation_report_is_consistent (P : Platform)
    (e : SentimentEvaluator.t)
    (testCases : list SentimentEvaluator.TestCase.t)
    (r : SentimentEvaluator.Results.t) :
  SentimentEvaluator.evaluate P e testCases = Ok r ->
  SentimentEvaluator.Results.total r = length testCases /\
  map SentimentEvaluator.Detail.text (SentimentEvaluator.Results.details r)
  = map SentimentEvaluator.TestCase.text testCases /\
  map SentimentEvaluator.Detail.expected
      (SentimentEvaluator.Results.details r)
  = map SentimentEvaluator.TestCase.expectedSentiment testCases /\
  Forall
    (fun d =>
       SentimentEvaluator.Summary.correct
         (SentimentEvaluator.Detail.basicResult d)
       = SentimentEvaluator.sameSentiment
           (SentimentEvaluator.Summary.sentiment
              (SentimentEvaluator.Detail.basicResult d))
           (SentimentEvaluator.Detail.expected d) /\
       SentimentEvaluator.Summary.correct
         (SentimentEvaluator.Detail.contextualResult d)
       = SentimentEvaluator.sameSentiment
           (SentimentEvaluator.Summary.sentiment
              (SentimentEvaluator.Detail.contextualResult d))
           (SentimentEvaluator.Detail.expected d))
    (SentimentEvaluator.Results.details r) /\
  SentimentEvaluator.Results.correct r
  = length (List.filter
              (fun d => SentimentEvaluator.Summary.correct
                          (SentimentEvaluator.Detail.basicResult d))
              (SentimentEvaluator.Results.details r)) /\
  SentimentEvaluator.Results.contextualCorrect r
  = length (List.filter
              (fun d => SentimentEvaluator.Summary.correct
                          (SentimentEvaluator.Detail.contextualResult d))
              (SentimentEvaluator.Results.details r)) /\
  (SentimentEvaluator.Results.correct r <= length testCases)%nat /\
  (SentimentEvaluator.Results.contextualCorrect r
   <= length testCases)%nat /\
  (0 <= SentimentEvaluator.Results.accuracy r <= 1)%Q /\
  (0 <= SentimentEvaluator.Results.contextualAccuracy r <= 1)%Q /\
  SentimentEvaluator.Results.accuracy r
  = (if (0 <? length testCases)%nat
     then Num.ofNat (SentimentEvaluator.Results.correct r)
          / Num.ofNat (length testCases)
     else 0)%Q /\
  SentimentEvaluator.Results.contextualAccuracy r
  = (if (0 <? length testCases)%nat
     then Num.ofNat (SentimentEvaluator.Results.contextualCorrect r)
          / Num.ofNat (length testCases)
     else 0)%Q /\
  ((SentimentEvaluator.Results.accuracy r == 1)%Q <->
   testCases <> [] /\
   SentimentEvaluator.Results.correct r = length testCases).
Proof.
  intros Hrun. unfold SentimentEvaluator.evaluate in Hrun.
  match type of Hrun with
  | context [SentimentEvaluator.evaluateLoop P e testCases ?r0] =>
    destruct (evaluateLoop_spec P e testCases r0)
      as (r' & ds & Hr & Htot & Hdet & Hts & Hes & Hall & Hc & Hcc)
  end.
  rewrite Hr in Hrun. cbn [mbind Exc_bind] in Hrun. injection Hrun as <-.
  cbn in Htot, Hdet, Hc, Hcc. cbn.
  rewrite Htot, Hdet, Hc, Hcc.
  assert (Hlen : length ds = length testCases).
  { rewrite <- (length_map SentimentEvaluator.Detail.text ds), Hts.
    apply length_map. }
  pose proof (filter_length_le
                (fun d => SentimentEvaluator.Summary.correct
                            (SentimentEvaluator.Detail.basicResult d)) ds)
    as Hb.
  pose proof (filter_length_le
                (fun d => SentimentEvaluator.Summary.correct
                            (SentimentEvaluator.Detail.contextualResult d)) ds)
    as Hx.
  rewrite Hlen in Hb, Hx.
  destruct (accuracy_spec _ _ Hb) as (Ha1 & _ & Ha3).
  destruct (accuracy_spec _ _ Hx) as (Hc1 & _ & _).
  cbv zeta in Ha1, Ha3, Hc1.
  assert (Hmarked :
            Forall
              (fun d =>
                 SentimentEvaluator.Summary.correct
                   (SentimentEvaluator.Detail.basicResult d)
                 = SentimentEvaluator.sameSentiment
                     (SentimentEvaluator.Summary.sentiment
                        (SentimentEvaluator.Detail.basicResult d))
                     (SentimentEvaluator.Detail.expected d) /\
                 SentimentEvaluator.Summary.correct
                   (SentimentEvaluator.Detail.contextualResult d)
                 = SentimentEvaluator.sameSentiment
                     (SentimentEvaluator.Summary.sentiment
                        (SentimentEvaluator.Detail.contextualResult d))
                     (SentimentEvaluator.Detail.expected d)) ds).
  { eapply Forall_impl; [exact Hall|].
    intros d (basic & contextual & _ & _ & Hbr & Hcr).
    rewrite Hbr, Hcr. split; reflexivity. }
  repeat (split; [first [reflexivity | assumption | lia]|]).
  rewrite Ha3. split; intros [H1 H2]; (split; [|exact H2]).
  - intros ->. simpl in H1. lia.
  - destruct testCases; [congruence | simpl; lia].
Qed.

Lemma evaluation_report_is_consistent_witness :
  exists r,
    SentimentEvaluator.evaluate Host.platform Host.evaluator
      [ {| SentimentEvaluator.TestCase.text := JString (Str.lit "bon");
           SentimentEvaluator.TestCase.expectedSentiment :=
             JString (Str.lit "positif") |};
        {| SentimentEvaluator.TestCase.text :=
             JString (Str.lit "Un film magnifique, mais trop long.");
           SentimentEvaluator.TestCase.expectedSentiment :=
             JString (Str.lit "neutre") |} ] = Ok r /\
    SentimentEvaluator.Results.total r = 2%nat /\
    (0 <= SentimentEvaluator.Results.accuracy r <= 1)%Q.
Proof.
  assert (H : exists r,
             SentimentEvaluator.evaluate Host.platform Host.evaluator
               [ {| SentimentEvaluator.TestCase.text :=
                      JString (Str.lit "bon");
                    SentimentEvaluator.TestCase.expectedSentiment :=
                      JString (Str.lit "positif") |};
                 {| SentimentEvaluator.TestCase.text :=
                      JString (Str.lit "Un film magnifique, mais trop long.");
                    SentimentEvaluator.TestCase.expectedSentiment :=
                      JString (Str.lit "neutre") |} ] = Ok r).
  { eexists. vm_compute. reflexivity. }
  destruct H as (r & H). exists r. split; [exact H|].
  destruct (evaluation_report_is_consistent Host.platform Host.evaluator
              _ r H)
    as (Ht & _ & _ & _ & _ & _ & _ & _ & Ha & _).
  split; [exact Ht | exact Ha].
Defined.

Section ShortCases.
Import SentimentEvaluator.
Context (P : Platform) (e : SentimentEvaluator.t).

Lemma unanalysed_not_correct d x :
  Props.records P e d ->
  Detail.expected d = JString x ->
  Summary.correct (Detail.contextualResult d) = true ->
  Props.structurallyAnalysed (Detail.text d) = true.
Proof.
  intros (basic & contextual & _ & Hc & _ & Hr) Hx Hcorrect.
  destruct (Props.structurallyAnalysed (Detail.text d)) eqn:Hs;
    [reflexivity|].
  destruct (structural_unanalysed P _ _ _ Hs Hc) as (base & _ & ->).
  rewrite Hr, Hx in Hcorrect. discriminate.
Qed.

Lemma contextual_count_bound ds :
  Forall (Props.records P e) ds ->
  Forall (fun d => exists x, Detail.expected d = JString x) ds ->
  (length (List.filter
             (fun d => Summary.correct (Detail.contextualResult d)) ds)
   <= length (List.filter Props.structurallyAnalysed (map Detail.text ds)))%nat.
Proof.
  induction ds as [|d ds IH]; intros Hrec Hexp; [simpl; lia|].
  inversion Hrec as [|? ? Hd Hds]; subst.
  inversion Hexp as [|? ? [x Hx] Hxs]; subst.
  specialize (IH Hds Hxs). cbn [List.filter map].
  destruct (Summary.correct (Detail.contextualResult d)) eqn:Hc.
  - rewrite (unanalysed_not_correct d x Hd Hx Hc). cbn [length]. lia.
  - destruct (Props.structurallyAnalysed (Detail.text d)); cbn [length]; lia.
Qed.

End ShortCases.

(** X23. In an evaluation whose expected labels are strings, a test
    case whose text is not a string, or has fewer than ten characters
    after trimming, is never counted correct for the structural analyzer,
    whatever label is expected: the structural count is at most the
    number of longer texts, and when there is none the structural
    accuracy is 0. *)
Theorem short_cases_never_contextually_correct (P : Platform)
    (e : SentimentEvaluator.t)
    (testCases : list SentimentEvaluator.TestCase.t)
    (r : SentimentEvaluator.Results.t) :
  Forall (fun testCase =>
            exists x,
              SentimentEvaluator.TestCase.expectedSentiment testCase
              = JString x) testCases ->
  SentimentEvaluator.evaluate P e testCases = Ok r ->
  (SentimentEvaluator.Results.contextualCorrect r
   <= length (List.filter Props.structurallyAnalysed
                (map SentimentEvaluator.TestCase.text testCases)))%nat /\
  (Forall (fun testCase =>
             Props.structurallyAnalysed
               (SentimentEvaluator.TestCase.text testCase) = false)
          testCases ->
   SentimentEvaluator.Results.contextualCorrect r = 0%nat /\
   (SentimentEvaluator.Results.contextualAccuracy r == 0)%Q /\
   Forall (fun d =>
             SentimentEvaluator.Summary.sentiment
               (SentimentEvaluator.Detail.contextualResult d) = None)
          (SentimentEvaluator.Results.details r)).
Proof.
  intros Hexp. unfold SentimentEvaluator.evaluate.
  match goal with
  | |- context [SentimentEvaluator.evaluateLoop P e testCases ?r0] =>
    destruct (evaluateLoop_spec P e testCases r0)
      as (r' & ds & Hr & Htot & Hdet & Hts & Hes & Hall & Hc & Hcc)
  end.
  rewrite Hr. cbn [mbind Exc_bind]. cbn in Htot, Hdet, Hc, Hcc.
  intros H. injection H as <-. cbn.
  assert (Hexp' : Forall (fun d => exists x,
                     SentimentEvaluator.Detail.expected d = JString x) ds).
  { apply List.Forall_forall. intros d Hd.
    apply (in_map SentimentEvaluator.Detail.expected) in Hd.
    rewrite Hes in Hd. apply in_map_iff in Hd as (tc & Htc & Hin).
    rewrite List.Forall_forall in Hexp. destruct (Hexp _ Hin) as [x Hx].
    exists x. congruence. }
  pose proof (contextual_count_bound P e ds Hall Hexp') as Hbound.
  rewrite Hts in Hbound. rewrite ?Hcc, ?Hdet, ?Htot.
  split; [exact Hbound|].
  intros Hshort.
  assert (Hnone : List.filter Props.structurallyAnalysed
                    (map SentimentEvaluator.TestCase.text testCases) = []).
  { clear -Hshort. induction Hshort as [|tc l Htc _ IH]; [reflexivity|].
    cbn [map List.filter]. rewrite Htc. exact IH. }
  rewrite Hnone in Hbound. cbn [length] in Hbound.
  assert (Hzero : length (List.filter
             (fun d => SentimentEvaluator.Summary.correct
                         (SentimentEvaluator.Detail.contextualResult d)) ds)
           = 0%nat) by lia.
  rewrite Hzero. split; [reflexivity|]. split.
  - destruct (length testCases); [reflexivity|].
    change (Num.ofNat 0) with 0%Q. unfold Qdiv. lra.
  - apply List.Forall_forall. intros d Hd.
    assert (Hs : Props.structurallyAnalysed
                   (SentimentEvaluator.Detail.text d) = false).
    { apply (in_map SentimentEvaluator.Detail.text) in Hd.
      rewrite Hts in Hd. apply in_map_iff in Hd as (tc & Htc & Hin).
      rewrite List.Forall_forall in Hshort. rewrite <- Htc.
      apply Hshort, Hin. }
    rewrite List.Forall_forall in Hall.
    destruct (Hall _ Hd) as (basic & contextual & _ & Hctx & _ & Hres).
    destruct (structural_unanalysed P _ _ _ Hs Hctx) as (base & _ & ->).
    rewrite Hres. reflexivity.
Qed.

Lemma short_cases_never_contextually_correct_witness :
  exists r,
    SentimentEvaluator.evaluate Host.platform Host.evaluator
      [ {| SentimentEvaluator.TestCase.text := JString (Str.lit "bon");
           SentimentEvaluator.TestCase.expectedSentiment :=
             JString (Str.lit "positif") |} ] = Ok r /\
    SentimentEvaluator.Results.correct r = 1%nat /\
    SentimentEvaluator.Results.contextualCorrect r = 0%nat.
Proof.
  assert (H : exists r,
             SentimentEvaluator.evaluate Host.platform Host.evaluator
               [ {| SentimentEvaluator.TestCase.text :=
                      JString (Str.lit "bon");
                    SentimentEvaluator.TestCase.expectedSentiment :=
                      JString (Str.lit "positif") |} ] = Ok r /\
             SentimentEvaluator.Results.correct r = 1%nat).
  { eexists. split; vm_compute; reflexivity. }
  destruct H as (r & Hr & Hc). exists r. split; [exact Hr|].
  split; [exact Hc|].
  refine (proj1 (proj2 (short_cases_never_contextually_correct
                          Host.platform Host.evaluator _ r _ Hr) _)).
  - repeat constructor. eexists. reflexivity.
  - repeat constructor.
Defined.

Section Comparison.
Import SentimentEvaluator.
Local Open Scope Q_scope.

Lemma insertByImpact_In x l y :
  In y (insertByImpact x l) <-> y = x \/ In y l.
Proof.
  induction l as [|z l IH]; simpl; [intuition congruence|].
  destruct (Num.ltb _ _); simpl; rewrite ?IH; intuition congruence.
Qed.

Lemma sortByImpact_In l y : In y (sortByImpact l) <-> In y l.
Proof.
  induction l as [|x l IH]; simpl; [tauto|].
  rewrite insertByImpact_In, IH. intuition congruence.
Qed.

Lemma insertByImpact_length x l :
  length (insertByImpact x l) = S (length l).
Proof.
  induction l as [|z l IH]; simpl; [reflexivity|].
  destruct (Num.ltb _ _); simpl; rewrite ?IH; reflexivity.
Qed.

Lemma sortByImpact_length l : length (sortByImpact l) = length l.
Proof.
  induction l as [|x l IH]; simpl; [reflexivity|].
  rewrite insertByImpact_length, IH. reflexivity.
Qed.

Lemma insertByImpact_sorted x l :
  Props.byDecreasingMagnitude l ->
  Props.byDecreasingMagnitude (insertByImpact x l).
Proof.
  induction l as [|z l IH]; intros H; [simpl; auto|].
  destruct H as (Hz & Hl). cbn [insertByImpact].
  qtest (Num.ltb (Qabs (ImpactFactor.impact x)) (Qabs (ImpactFactor.impact z))).
  - split; [|apply IH, Hl].
    apply List.Forall_forall. intros y Hy.
    apply insertByImpact_In in Hy as [-> | Hy]; [lra|].
    rewrite List.Forall_forall in Hz. apply Hz, Hy.
  - split; [|split; assumption].
    constructor; [exact E|].
    eapply Forall_impl; [exact Hz|]. intros y Hy. simpl in Hy. lra.
Qed.

Lemma sortByImpact_sorted l : Props.byDecreasingMagnitude (sortByImpact l).
Proof.
  induction l as [|x l IH]; [exact I|]. apply insertByImpact_sorted, IH.
Qed.

Lemma listedFactors_spec factors f :
  In f (listedFactors factors) ->
  0.05 < Qabs (ImpactFactor.impact f) /\
  ((ImpactFactor.name f = Str.lit "Progression" /\
    exists pf, ContextFactors.progression factors = Some pf /\
               ImpactFactor.impact f = ProgressionFactor.impact pf) \/
   (ImpactFactor.name f = Str.lit "Conclusion" /\
    exists cf, ContextFactors.conclusion factors = Some cf /\
               ImpactFactor.impact f = ConclusionFactor.impact cf) \/
   (ImpactFactor.name f = Str.lit "Transitions" /\
    exists tf, ContextFactors.transitions factors = Some tf /\
               ImpactFactor.impact f = TransitionFactor.impact tf) \/
   (ImpactFactor.name f = Str.lit "Structure narrative" /\
    exists np, ContextFactors.narrative factors = Some np /\
               ImpactFactor.impact f = NarrativePattern.impact np)).
Proof.
  unfold listedFactors. rewrite !in_app_iff.
  intros [H | [H | [H | H]]].
  - destruct (ContextFactors.progression factors) as [pf|]; [|destruct H].
    qtest (Num.ltb 0.05 (Qabs (ProgressionFactor.impact pf))); [|destruct H].
    destruct H as [<- | []]. split; [exact E|]. left. eauto.
  - destruct (ContextFactors.conclusion factors) as [cf|]; [|destruct H].
    qtest (Num.ltb 0.05 (Qabs (ConclusionFactor.impact cf))); [|destruct H].
    destruct H as [<- | []]. split; [exact E|]. right; left. eauto.
  - destruct (ContextFactors.transitions factors) as [tf|]; [|destruct H].
    qtest (Num.ltb 0.05 (Qabs (TransitionFactor.impact tf))); [|destruct H].
    destruct H as [<- | []]. split; [exact E|]. right; right; left. eauto.
  - destruct (ContextFactors.narrative factors) as [np|]; [|destruct H].
    qtest (Num.ltb 0.05 (Qabs (NarrativePattern.impact np))); [|destruct H].
    destruct H as [<- | []]. split; [exact E|]. right; right; right. eauto.
Qed.

Lemma listedFactors_length factors : (length (listedFactors factors) <= 4)%nat.
Proof.
  unfold listedFactors. rewrite !length_app.
  destruct (ContextFactors.progression factors) as [pf|];
    [destruct (Num.ltb _ _)|];
    (destruct (ContextFactors.conclusion factors) as [cf|];
     [destruct (Num.ltb _ _)|]);
    (destruct (ContextFactors.transitions factors) as [tf|];
     [destruct (Num.ltb _ _)|]);
    (destruct (ContextFactors.narrative factors) as [np|];
     [destruct (Num.ltb _ _)|]); simpl; lia.
Qed.

End Comparison.

(** X24. Whenever the comparison of the two analyzers returns, the impact
    factors it lists are ordered by decreasing magnitude; each has a
    magnitude above 0.05 and is the impact of the progression,
    conclusion, transition or narrative stage of the structural result
    returned alongside, under the matching name; there are at most four,
    and the intensity stage is never listed. *)
Theorem impact_factors_are_ranked (P : Platform) (e : SentimentEvaluator.t)
    (v : JsValue) (r : SentimentEvaluator.CompareResult.t) :
  SentimentEvaluator.compareAnalyzers P e v = Ok r ->
  let factors :=
    ContextualResult.contextFactors
      (SentimentEvaluator.CompareResult.contextualAnalysis r) in
  let listed :=
    SentimentEvaluator.Comparison.impactFactors
      (SentimentEvaluator.CompareResult.comparison r) in
  Props.byDecreasingMagnitude listed /\
  (length listed <= 4)%nat /\
  forall f, In f listed ->
    (0.05 < Qabs (SentimentEvaluator.ImpactFactor.impact f))%Q /\
    ((SentimentEvaluator.ImpactFactor.name f = Str.lit "Progression" /\
      exists pf, ContextFactors.progression factors = Some pf /\
                 SentimentEvaluator.ImpactFactor.impact f
                 = ProgressionFactor.impact pf) \/
     (SentimentEvaluator.ImpactFactor.name f = Str.lit "Conclusion" /\
      exists cf, ContextFactors.conclusion factors = Some cf /\
                 SentimentEvaluator.ImpactFactor.impact f
                 = ConclusionFactor.impact cf) \/
     (SentimentEvaluator.ImpactFactor.name f = Str.lit "Transitions" /\
      exists tf, ContextFactors.transitions factors = Some tf /\
                 SentimentEvaluator.ImpactFactor.impact f
                 = TransitionFactor.impact tf) \/
     (SentimentEvaluator.ImpactFactor.name f
      = Str.lit "Structure narrative" /\
      exists np, ContextFactors.narrative factors = Some np /\
                 SentimentEvaluator.ImpactFactor.impact f
                 = NarrativePattern.impact np)).
Proof.
  intros Hrun. unfold SentimentEvaluator.compareAnalyzers in Hrun.
  inv_bind Hrun. inv_bind Hrun. injection Hrun as <-. cbn.
  split; [apply sortByImpact_sorted|].
  split; [rewrite sortByImpact_length; apply listedFactors_length|].
  intros f Hf. apply (proj1 (sortByImpact_In _ _)) in Hf.
  apply (listedFactors_spec _ _ Hf).
Qed.

Lemma impact_factors_are_ranked_witness :
  exists r,
    SentimentEvaluator.compareAnalyzers Host.platform Host.evaluator
      (JString (Str.lit "Nul. Bof. Normal. Bon. Excellent.")) = Ok r /\
    Props.byDecreasingMagnitude
      (SentimentEvaluator.Comparison.impactFactors
         (SentimentEvaluator.CompareResult.comparison r)).
Proof.
  assert (H : exists r,
             SentimentEvaluator.compareAnalyzers Host.platform Host.evaluator
               (JString (Str.lit "Nul. Bof. Normal. Bon. Excellent."))
             = Ok r).
  { eexists. vm_compute. reflexivity. }
  destruct H as (r & H). exists r. split; [exact H|].
  apply (impact_factors_are_ranked Host.platform Host.evaluator _ r H).
Defined.

(** X25. Whenever the two analyzers are compared on an input that is not
    a string, or has fewer than ten characters after trimming, and the
    comparison returns, it lists no impact factor and reports a sentiment
    change, the structural result carrying no contextual label, no
    context factor and no trend on such inputs. *)
Theorem comparison_on_short_input (P : Platform) (e : SentimentEvaluator.t)
    (v : JsValue) (r : SentimentEvaluator.CompareResult.t) :
  Props.structurallyAnalysed v = false ->
  SentimentEvaluator.compareAnalyzers P e v = Ok r ->
  let comparison := SentimentEvaluator.CompareResult.comparison r in
  let contextual := SentimentEvaluator.CompareResult.contextualAnalysis r in
  SentimentEvaluator.Comparison.impactFactors comparison = [] /\
  SentimentEvaluator.Comparison.sentimentChange comparison = true /\
  ContextualResult.contextualSentiment contextual = None /\
  ContextualResult.contextFactors contextual = ContextFactors.empty /\
  ContextualResult.trends contextual = None.
Proof.
  intros Hshort Hrun. unfold SentimentEvaluator.compareAnalyzers in Hrun.
  inv_bind Hrun. inv_bind Hrun. injection Hrun as <-.
  destruct (structural_unanalysed P _ _ _ Hshort Hx0) as (base & _ & ->).
  cbn. repeat split.
Qed.

Lemma comparison_on_short_input_witness :
  exists r,
    SentimentEvaluator.compareAnalyzers Host.platform Host.evaluator
      (JString (Str.lit "bon")) = Ok r /\
    SentimentEvaluator.Comparison.sentimentChange
      (SentimentEvaluator.CompareResult.comparison r) = true.
Proof.
  assert (H : exists r,
             SentimentEvaluator.compareAnalyzers Host.platform Host.evaluator
               (JString (Str.lit "bon")) = Ok r).
  { eexists. vm_compute. reflexivity. }
  destruct H as (r & H). exists r. split; [exact H|].
  apply (comparison_on_short_input Host.platform Host.evaluator
           (JString (Str.lit "bon")) r);
    [vm_compute; reflexivity | exact H].
Defined.

(** ** Which segments the progression and the conclusion read *)

Section FirstAndLast.
Import ContextualAnalyzer.
Local Open Scope Q_scope.
Context (P : Platform) (c : ContextualAnalyzer.t).



End FirstAndLast.



(** ** The intensity stage *)

Section Intensity.
Import ContextualAnalyzer.
Local Open Scope Q_scope.







End Intensity.



(** * The analysis through the prototype chain *)

(** ** Runs that read no inherited member *)

Section ChainAgreement.
Import SentimentAnalyzer.
Local Open Scope Q_scope.
Context (P : Platform) (a : SentimentAnalyzer.t).

Lemma get_own (table : gmap jsstring Q) (key : jsstring) :
  Chain.inherited key = false ->
  Chain.get table key
  = (fun q => Chain.Number (Chain.Fin q)) <$> table !! key.
Proof.
  intros H. unfold Chain.get. rewrite H. destruct (table !! key); reflexivity.
Qed.

Lemma wordScoreOf_own w :
  Chain.inherited w = false ->
  Chain.wordScoreOf a w
  = (fun q => Chain.Number (Chain.Fin q)) <$> wordScoreOf a w.
Proof.
  intros H. unfold Chain.wordScoreOf, wordScoreOf.
  rewrite !(get_own _ _ H).
  destruct (positiveWords a !! w); [reflexivity|].
  destruct (negativeWords a !! w); reflexivity.
Qed.

Lemma plainKeys_In l w :
  Props.plainKeys l = true -> In w l -> Chain.inherited w = false.
Proof.
  unfold Props.plainKeys. rewrite forallb_forall. intros H Hw.
  apply negb_true_iff, H, Hw.
Qed.

Lemma members_no_space :
  forallb (fun m : jsstring => negb (existsb (N.eqb 32) m)) Chain.members
  = true.
Proof. vm_compute. reflexivity. Qed.

Lemma spaced_not_inherited (u v : jsstring) :
  Chain.inherited (u ++ Str.space ++ v) = false.
Proof.
  destruct (Chain.inherited (u ++ Str.space ++ v)) eqn:E; [|reflexivity].
  unfold Chain.inherited, Str.includes in E.
  apply existsb_exists in E as (m & Hm & E).
  unfold Str.eqb in E. apply bool_decide_eq_true_1 in E. subst m.
  pose proof members_no_space as H. rewrite forallb_forall in H.
  specialize (H _ Hm). apply negb_true_iff in H.
  assert (Hex : existsb (N.eqb 32) (u ++ Str.space ++ v) = true).
  { apply existsb_exists. exists 32%N. split; [|reflexivity].
    apply in_or_app. right. left. reflexivity. }
  congruence.
Qed.

Lemma fold_context_own contextWords :
  Props.plainKeys contextWords = true ->
  forall (m : Q) (n : nat),
    fold_left (fun (acc : Chain.number * nat) (w : jsstring) =>
                 match Chain.wordScoreOf a w with
                 | Some wordScore =>
                   (Chain.add (fst acc)
                      (Chain.mul
                         (Chain.sub (Chain.toNumber wordScore)
                                    (Chain.Fin 0.5))
                         (Chain.Fin 0.2)),
                    S (snd acc))
                 | None => acc
                 end)
              contextWords (Chain.Fin m, n)
    = let acc :=
        fold_left (fun (acc : Q * nat) (w : jsstring) =>
                     match wordScoreOf a w with
                     | Some wordScore =>
                       (fst acc + (wordScore - 0.5) * 0.2, S (snd acc))
                     | None => acc
                     end)
                  contextWords (m, n) in
      (Chain.Fin (fst acc), snd acc).
Proof.
  induction contextWords as [|w l IH]; intros Hplain m n; [reflexivity|].
  cbn [fold_left].
  assert (Hw : Chain.inherited w = false)
    by (apply (plainKeys_In (w :: l)); [exact Hplain | now left]).
  assert (Hl : Props.plainKeys l = true).
  { unfold Props.plainKeys in *. cbn [forallb] in Hplain.
    apply andb_true_iff in Hplain. tauto. }
  rewrite (wordScoreOf_own w Hw).
  destruct (wordScoreOf a w) as [ws|]; cbn [fmap option_fmap option_map];
    apply (IH Hl).
Qed.

Lemma _analyzeWordContext_own contextWords centralWord (s : Q) :
  Props.plainKeys contextWords = true ->
  Chain._analyzeWordContext a contextWords centralWord
    (Chain.Number (Chain.Fin s))
  = Chain.Number (Chain.Fin (_analyzeWordContext a contextWords centralWord s)).
Proof.
  intros Hplain. unfold Chain._analyzeWordContext, _analyzeWordContext.
  destruct (length contextWords =? 0)%nat; [reflexivity|].
  rewrite (fold_context_own contextWords Hplain). cbv zeta.
  cbn [fst snd Chain.toNumber Chain.ltb Chain.add Chain.mul Chain.min
       Chain.max Chain.lift].
  repeat match goal with
         | |- context [if ?b then _ else _] => destruct b; try reflexivity
         end.
Qed.

Lemma applyNegation_own d (s : Q) :
  Chain.applyNegation a d (Chain.Number (Chain.Fin s))
  = Chain.Number (Chain.Fin (applyNegation a d s)).
Proof. reflexivity. Qed.

Lemma applyModifier_own (m s : Q) :
  Chain.applyModifier (Chain.Number (Chain.Fin m)) (Chain.Number (Chain.Fin s))
  = Chain.Number (Chain.Fin (applyModifier m s)).
Proof.
  unfold Chain.applyModifier, applyModifier.
  cbn [Chain.toNumber Chain.ltb Chain.eqb Chain.isOne Chain.sub Chain.add
       Chain.mul Chain.min Chain.max Chain.lift].
  repeat match goal with
         | |- context [if ?b then _ else _] => destruct b; try reflexivity
         end.
Qed.

End ChainAgreement.

Section ChainLoop.
Import SentimentAnalyzer.
Local Open Scope Q_scope.
Context (P : Platform) (a : SentimentAnalyzer.t).

Lemma prefixModifier_own words i word :
  Props.plainKeys words = true -> (i < length words)%nat ->
  Chain.prefixModifier a words i word
  = (Chain.Number (Chain.Fin (fst (prefixModifier a words i word))),
     map Embed.ofModifier (snd (prefixModifier a words i word))).
Proof.
  intros Hplain Hi. unfold Chain.prefixModifier, prefixModifier.
  destruct (0 <? i)%nat eqn:E0; [|reflexivity].
  apply Nat.ltb_lt in E0.
  assert (Hprev : Chain.inherited (nth (i - 1) words []) = false).
  { apply (plainKeys_In words); [exact Hplain|]. apply nth_In. lia. }
  rewrite (get_own _ _ Hprev), (get_own _ _ (spaced_not_inherited _ _)).
  destruct (modifierPrefixes a !! nth (i - 1) words []) as [m|];
    cbn [fmap option_fmap option_map];
    (destruct (1 <? i)%nat; [|reflexivity]);
    (destruct (modifierPrefixes a !! _) as [m2|];
     cbn [fmap option_fmap option_map fst snd]; [|reflexivity]);
    rewrite ?map_app; reflexivity.
Qed.

Lemma ofAcc_pushModifiers ms st :
  Chain.pushModifiers (map Embed.ofModifier ms) (Embed.ofAcc st)
  = Embed.ofAcc (pushModifiers ms st).
Proof.
  unfold Chain.pushModifiers, pushModifiers, Embed.ofAcc, Embed.ofDetails.
  cbn. rewrite map_app. reflexivity.
Qed.

Lemma ofAcc_setNegation b d st :
  Chain.setNegation b d (Embed.ofAcc st) = Embed.ofAcc (setNegation b d st).
Proof. reflexivity. Qed.

Lemma ofAcc_advanceNegation words i st :
  Chain.advanceNegation a words i (Embed.ofAcc st)
  = Embed.ofAcc (advanceNegation a words i st).
Proof.
  unfold Chain.advanceNegation, advanceNegation.
  change (Chain.negationActive (Embed.ofAcc st)) with (negationActive st).
  change (Chain.negationDistance (Embed.ofAcc st)) with (negationDistance st).
  destruct (negationActive st); [|reflexivity].
  destruct (_ <? _)%nat; [|reflexivity].
  rewrite ofAcc_setNegation.
  apply (ofAcc_pushModifiers [NegationMarker _ Ends]).
Qed.

Lemma ofAcc_word w (s : Q) st :
  Chain.count (Chain.Number (Chain.Fin s)) 0.5
    (Chain.pushWord (Embed.ofWord w) (Embed.ofAcc st))
  = Embed.ofAcc (count s 0.5 (pushWord w st)).
Proof.
  unfold Chain.count, Chain.pushWord, count, pushWord, Embed.ofAcc,
    Embed.ofDetails.
  cbn. rewrite map_app. reflexivity.
Qed.

Lemma context_words_In words i n w :
  In w (_getContextWords words i n) -> In w words.
Proof.
  unfold _getContextWords. intros H.
  apply in_map_iff in H as ((j & x) & <- & H).
  apply filter_In in H as (H & _).
  apply list_elem_of_In, list_elem_of_lookup_1 in H as (k & H).
  apply list_lookup_imap_Some in H as (y & E & Hy).
  injection Hy as -> ->. cbn.
  apply lookup_take_Some in E as (E & _). rewrite lookup_drop in E.
  apply list_elem_of_In. eapply list_elem_of_lookup_2, E.
Qed.

Lemma plainKeys_context words i n :
  Props.plainKeys words = true ->
  Props.plainKeys (_getContextWords words i n) = true.
Proof.
  intros H. unfold Props.plainKeys. apply forallb_forall. intros w Hw.
  apply negb_true_iff. apply (plainKeys_In words w H).
  apply (context_words_In words i n w Hw).
Qed.

Lemma scoreToken_own words st i :
  Props.plainKeys words = true -> (i < length words)%nat ->
  Chain.scoreToken a words (Embed.ofAcc st) i
  = Embed.ofAcc (scoreToken a words st i).
Proof.
  intros Hplain Hi. unfold Chain.scoreToken, scoreToken.
  destruct (Str.includes (negationWords a) (nth i words [])).
  { rewrite ofAcc_setNegation.
    apply (ofAcc_pushModifiers [NegationMarker _ Starts]). }
  rewrite ofAcc_advanceNegation.
  assert (Hw : Chain.inherited (nth i words []) = false).
  { apply (plainKeys_In words); [exact Hplain|]. apply nth_In, Hi. }
  rewrite (wordScoreOf_own a _ Hw).
  destruct (wordScoreOf a (nth i words [])) as [ws|];
    cbn [fmap option_fmap option_map]; [|reflexivity].
  cbv zeta. rewrite (prefixModifier_own words i _ Hplain Hi).
  cbn [fst snd]. rewrite ofAcc_pushModifiers.
  set (st1 := pushModifiers _ (advanceNegation a words i st)).
  change (Chain.negationActive (Embed.ofAcc st1)) with (negationActive st1).
  change (Chain.negationDistance (Embed.ofAcc st1))
    with (negationDistance st1).
  assert (Hscore :
            (if negationActive st1
             then Chain.applyNegation a (negationDistance st1)
                    (Chain.Number (Chain.Fin ws))
             else Chain.Number (Chain.Fin ws))
            = Chain.Number
                (Chain.Fin (if negationActive st1
                            then applyNegation a (negationDistance st1) ws
                            else ws))).
  { destruct (negationActive st1); reflexivity. }
  rewrite Hscore, applyModifier_own.
  rewrite (_analyzeWordContext_own a _ _ _
             (plainKeys_context words i _ Hplain)).
  apply (ofAcc_word
           {| WordEvidence.word := nth i words [];
              WordEvidence.originalScore := ws;
              WordEvidence.modifiedScore := _;
              WordEvidence.contextScore := _;
              WordEvidence.negated := negationActive st1 |}).
Qed.

Lemma scoreTokens_own words st (l : list nat) :
  Props.plainKeys words = true ->
  Forall (fun i => (i < length words)%nat) l ->
  fold_left (Chain.scoreToken a words) l (Embed.ofAcc st)
  = Embed.ofAcc (fold_left (scoreToken a words) l st).
Proof.
  intros Hplain Hl. revert st.
  induction Hl as [|i l Hi _ IH]; intros st; [reflexivity|].
  cbn [fold_left]. rewrite (scoreToken_own words st i Hplain Hi). apply IH.
Qed.

Lemma countIdiom_own st idiom :
  Chain.countIdiom (Embed.ofAcc st) idiom = Embed.ofAcc (countIdiom st idiom).
Proof.
  unfold Chain.countIdiom, countIdiom, Chain.count, Chain.pushIdiom, count,
    pushIdiom, Embed.ofAcc, Embed.ofDetails.
  reflexivity.
Qed.

Lemma countIdioms_own st idioms :
  fold_left Chain.countIdiom idioms (Embed.ofAcc st)
  = Embed.ofAcc (fold_left countIdiom idioms st).
Proof.
  revert st. induction idioms as [|x l IH]; intros st; [reflexivity|].
  cbn [fold_left]. rewrite countIdiom_own. apply IH.
Qed.

Lemma countEmoji_own st emoji :
  Chain.inherited emoji = false ->
  Chain.countEmoji a (Embed.ofAcc st) emoji
  = Embed.ofAcc (countEmoji a st emoji).
Proof.
  intros H. unfold Chain.countEmoji, countEmoji. rewrite (get_own _ _ H).
  destruct (emojiSentiments a !! emoji) as [s|];
    cbn [fmap option_fmap option_map]; [|reflexivity].
  unfold Chain.count, Chain.pushEmoji, count, pushEmoji, Embed.ofAcc,
    Embed.ofDetails.
  cbn. rewrite map_app. reflexivity.
Qed.

Lemma countEmojis_own st emojis :
  Props.plainKeys emojis = true ->
  fold_left (Chain.countEmoji a) emojis (Embed.ofAcc st)
  = Embed.ofAcc (fold_left (countEmoji a) emojis st).
Proof.
  revert st. induction emojis as [|x l IH]; intros st H; [reflexivity|].
  cbn [fold_left].
  rewrite (countEmoji_own st x (plainKeys_In (x :: l) x H (or_introl eq_refl))).
  apply IH. unfold Props.plainKeys in *. cbn [forallb] in H.
  apply andb_true_iff in H. tauto.
Qed.

End ChainLoop.

Section ChainIdioms.
Import SentimentAnalyzer.
Local Open Scope Q_scope.
Context (P : Platform) (a : SentimentAnalyzer.t).

Lemma indexIdiom_cases tbl entry :
  match Props.keywordOf (fst entry) with
  | Some keyword =>
    indexIdiom tbl entry = addKeyword keyword entry tbl /\
    Chain.indexIdiom tbl entry = Chain.addKeyword keyword entry tbl
  | None =>
    indexIdiom tbl entry = tbl /\ Chain.indexIdiom tbl entry = Ok tbl
  end.
Proof.
  unfold Props.keywordOf, indexIdiom, Chain.indexIdiom.
  destruct (_ && _); [|split; reflexivity].
  destruct (_ <? _)%nat; split; reflexivity.
Qed.

(** The index is built when no keyword is inherited, and the first
    inherited keyword raises otherwise. *)
Lemma indexIdioms_spec entries :
  forall tbl,
    Chain.indexIdioms entries tbl
    = if forallb (fun entry : jsstring * Q =>
                    match Props.keywordOf (fst entry) with
                    | Some keyword => negb (Chain.inherited keyword)
                    | None => true
                    end) entries
      then Ok (fold_left indexIdiom entries tbl)
      else Throw TypeError.
Proof.
  induction entries as [|entry l IH]; intros tbl; [reflexivity|].
  cbn [Chain.indexIdioms forallb fold_left].
  pose proof (indexIdiom_cases tbl entry) as H.
  destruct (Props.keywordOf (fst entry)) as [keyword|].
  - destruct H as [-> ->]. unfold Chain.addKeyword.
    destruct (Chain.inherited keyword); [reflexivity|].
    cbn [negb andb mbind Exc_bind]. apply IH.
  - destruct H as [-> ->]. cbn [andb mbind Exc_bind]. apply IH.
Qed.

Lemma _detectIdioms_spec text :
  Chain._detectIdioms a text
  = if Props.plainIdioms a then _detectIdioms a text else Throw TypeError.
Proof.
  unfold Chain._detectIdioms, _detectIdioms, Props.plainIdioms.
  rewrite indexIdioms_spec.
  destruct (forallb _ (idioms a)); reflexivity.
Qed.

Lemma result_own st :
  Chain.result (Embed.ofAcc st) = Embed.ofResult (result st).
Proof.
  unfold Chain.result, result, Embed.ofResult.
  assert (H : Chain.finalScore (Embed.ofAcc st) = Chain.Fin (finalScore st)).
  { unfold Chain.finalScore, finalScore.
    change (Chain.wordCount (Embed.ofAcc st)) with (wordCount st).
    destruct (0 <? wordCount st)%nat; reflexivity. }
  rewrite H. reflexivity.
Qed.

Lemma accumulate_own text :
  Props.plain P a text ->
  Chain.accumulate P a text = st ← accumulate P a text; Ok (Embed.ofAcc st).
Proof.
  intros (Hwords & Hemojis & Hidioms).
  unfold Chain.accumulate, accumulate.
  assert (Hloop : forall detected,
             fold_left (Chain.scoreToken a (Str.words (normalize P text)))
               (seq 0 (length (Str.words (normalize P text))))
               (fold_left (Chain.countEmoji a) (matchEmoji P text)
                  (fold_left Chain.countIdiom detected Chain.initial))
             = Embed.ofAcc
                 (fold_left (scoreToken a (Str.words (normalize P text)))
                    (seq 0 (length (Str.words (normalize P text))))
                    (fold_left (countEmoji a) (matchEmoji P text)
                       (fold_left countIdiom detected initial)))).
  { intros detected. change Chain.initial with (Embed.ofAcc initial).
    rewrite countIdioms_own, (countEmojis_own a _ _ Hemojis).
    apply (scoreTokens_own a _ _ _ Hwords).
    apply List.Forall_forall. intros i Hi. apply in_seq in Hi. lia. }
  destruct (0 <? size (idiomPatterns a))%nat eqn:E.
  - rewrite _detectIdioms_spec, (Hidioms eq_refl).
    destruct (_detectIdioms a (normalize P text)) as [detected|e];
      [|reflexivity].
    cbn [mbind Exc_bind]. rewrite Hloop. reflexivity.
  - cbn [mbind Exc_bind]. rewrite Hloop. reflexivity.
Qed.

Lemma analyze_own text :
  Props.plain P a text ->
  Chain.analyze P a (JString text)
  = r ← analyze P a (JString text); Ok (Embed.ofResult r).
Proof.
  intros H. unfold Chain.analyze, analyze.
  destruct (negb (truthy (JString text)) || negb (isString (JString text)));
    [reflexivity|].
  rewrite (accumulate_own text H).
  destruct (accumulate P a text) as [st|e]; [|reflexivity].
  cbn [mbind Exc_bind]. rewrite result_own. reflexivity.
Qed.

End ChainIdioms.

(** ** Rounding *)

Section RoundingError.
Local Open Scope Q_scope.

Lemma toFixedUnits2_near x :
  - (1 # 2) < inject_Z (Num.toFixedUnits 2 x) - x * 100 <= 1 # 2.
Proof.
  unfold Num.toFixedUnits. change (inject_Z (10 ^ 2)) with 100.
  pose proof (Qfloor_le (x * 100 + (1 # 2))) as Hle.
  pose proof (Qlt_floor (x * 100 + (1 # 2))) as Hlt.
  rewrite inject_Z_plus in Hlt. change (inject_Z 1) with 1 in Hlt.
  split; lra.
Qed.

Lemma units_over_100 (z : Z) : z # 100 == inject_Z z / 100.
Proof. rewrite (Qmake_Qdiv z 100). reflexivity. Qed.

(** [round2] returns a hundredth nearest to its argument. *)
Lemma round2_near x : Qabs (Num.round2 x - x) <= 1 # 200.
Proof.
  apply Qabs_Qle_condition. unfold Num.round2.
  destruct (Num.ltb x 0).
  - pose proof (toFixedUnits2_near (- x)) as [H1 H2].
    rewrite units_over_100.
    assert (E : - (inject_Z (Num.toFixedUnits 2 (- x)) / 100) - x
                == - (inject_Z (Num.toFixedUnits 2 (- x)) - - x * 100) / 100)
      by (field).
    rewrite E. split.
    + apply Qle_shift_div_l; [reflexivity | lra].
    + apply Qle_shift_div_r; [reflexivity | lra].
  - pose proof (toFixedUnits2_near x) as [H1 H2].
    rewrite units_over_100.
    assert (E : inject_Z (Num.toFixedUnits 2 x) / 100 - x
                == (inject_Z (Num.toFixedUnits 2 x) - x * 100) / 100)
      by (field).
    rewrite E. split.
    + apply Qle_shift_div_l; [reflexivity | lra].
    + apply Qle_shift_div_r; [reflexivity | lra].
Qed.

End RoundingError.

(** ** Where the analysis departs from the own-key reading *)

Section ChainOutcome.
Local Open Scope Q_scope.
Context (P : Platform) (a : SentimentAnalyzer.t).

Lemma chain_accumulate_spec text :
  if (0 <? size (SentimentAnalyzer.idiomPatterns a))%nat
     && negb (Props.plainIdioms a)
  then Chain.accumulate P a text = Throw TypeError
  else exists st, Chain.accumulate P a text = Ok st.
Proof.
  unfold Chain.accumulate.
  destruct (0 <? size (SentimentAnalyzer.idiomPatterns a))%nat eqn:E;
    cbn [andb].
  - rewrite _detectIdioms_spec.
    destruct (Props.plainIdioms a) eqn:Hp; cbn [negb]; [|reflexivity].
    destruct (_detectIdioms_total a (SentimentAnalyzer.normalize P text))
      as [detected ->].
    cbn [mbind Exc_bind]. eauto.
  - cbn [mbind Exc_bind]. eauto.
Qed.

Lemma chain_guard v :
  isString v = false \/ v = JString [] ->
  Chain.analyze P a v = Ok Chain.neutralResult.
Proof.
  intros [H | ->]; unfold Chain.analyze.
  - rewrite H, orb_true_r. reflexivity.
  - reflexivity.
Qed.

Lemma chain_text s :
  s <> [] ->
  Chain.analyze P a (JString s)
  = st ← Chain.accumulate P a s; Ok (Chain.result st).
Proof. destruct s; [congruence | reflexivity]. Qed.

End ChainOutcome.

(** C4. The guard of [analyze] returns the fixed neutral result for every
    non-string and for the empty string, whatever the lexicon. The claim
    that no input raises fails on the code: with pattern data configured,
    a lexicon that files an idiom under the name of a member of
    [Object.prototype] makes the analysis of every non-empty text raise a
    [TypeError], at the [push] on the idiom index. *)
Theorem idiom_under_member_name_raises (P : Platform) :
  (forall a v,
     isString v = false \/ v = JString [] ->
     Chain.analyze P a v = Ok Chain.neutralResult) /\
  (forall text,
     text <> [] ->
     Chain.analyze P Host.memberAnalyzer (JString text) = Throw TypeError).
Proof.
  split; [intros a v; apply chain_guard|].
  intros text Htext. rewrite (chain_text P _ text Htext).
  unfold Chain.accumulate.
  assert (Hsize : (0 <? size (SentimentAnalyzer.idiomPatterns
                                Host.memberAnalyzer))%nat = true)
    by (vm_compute; reflexivity).
  rewrite Hsize, _detectIdioms_spec.
  assert (Hidioms : Props.plainIdioms Host.memberAnalyzer = false)
    by (vm_compute; reflexivity).
  rewrite Hidioms. reflexivity.
Qed.

(** C6. With every lexicon value in [[0,1]], the text "constructor" gets a
    score that is no number at all: the token reads the inherited member
    of the table of positive words, the total becomes a string and the
    average [NaN], which no clamp brings back into [[0,1]]; the label is
    then the last of the scale. *)
Theorem inherited_word_scores_nan :
  Spec.lexiconInRange Host.analyzer /\
  exists r,
    Chain.analyze Host.platform Host.analyzer
      (JString (Str.lit "constructor")) = Ok r /\
    Chain.Result.score r = Chain.NaN /\
    Chain.Result.sentiment r = TresNegatif /\
    Chain.Details.words (Chain.Result.details r)
    = [ {| Chain.WordEvidence.word := Str.lit "constructor";
           Chain.WordEvidence.originalScore :=
             Chain.Member (Str.lit "constructor");
           Chain.WordEvidence.modifiedScore :=
             Chain.Member (Str.lit "constructor");
           Chain.WordEvidence.contextScore :=
             Chain.Member (Str.lit "constructor");
           Chain.WordEvidence.negated := false |} ].
Proof.
  split; [apply host_lexicon_in_range|].
  eexists. split; [vm_compute; reflexivity|].
  repeat split.
Qed.

(** C10. On "bon constructor" the word "bon" is scored 0.7 and the
    returned score is [NaN]: it is not the average of the evidence rounded
    to two decimals, nor a multiple of 0.01. The same happens on the
    fallback lexicon, where "constructor" is the only evidence. *)
Theorem inherited_word_score_not_rounded :
  (exists r w,
     Chain.analyze Host.platform Host.analyzer
       (JString (Str.lit "bon constructor")) = Ok r /\
     Chain.Details.words (Chain.Result.details r) !! 0%nat = Some w /\
     Chain.WordEvidence.word w = Str.lit "bon" /\
     Chain.WordEvidence.contextScore w = Chain.Number (Chain.Fin 0.7) /\
     Chain.Result.score r = Chain.NaN) /\
  (exists r,
     Chain.analyze Host.platform Fallback.analyzer
       (JString (Str.lit "constructor")) = Ok r /\
     Chain.Result.score r = Chain.NaN /\
     length (Chain.Details.words (Chain.Result.details r)) = 1%nat).
Proof.
  split.
  - do 2 eexists. split; [vm_compute; reflexivity|].
    split; [reflexivity|]. repeat split.
  - eexists. split; [vm_compute; reflexivity|]. repeat split.
Qed.

(** X28. A run that reads no inherited member is a run of the own-key
    reading: when no token of the normalized text, no matched emoji and
    (with pattern data configured) no idiom keyword names a member of
    [Object.prototype], the analysis through the prototype chain returns,
    and returns the result of the own-key definitions, number for
    number. *)
Theorem chain_agrees_on_plain_runs (P : Platform) (a : SentimentAnalyzer.t)
    (text : jsstring) :
  Props.plain P a text ->
  exists r,
    SentimentAnalyzer.analyze P a (JString text) = Ok r /\
    Chain.analyze P a (JString text) = Ok (Embed.ofResult r).
Proof.
  intros H. destruct (analyze_total P a (JString text)) as [r Hr].
  exists r. split; [exact Hr|].
  rewrite (analyze_own P a text H), Hr. reflexivity.
Qed.

Lemma chain_agrees_on_plain_runs_witness :
  exists r,
    SentimentAnalyzer.analyze Host.platform Host.analyzer
      (JString (Str.lit "Pas vraiment bon 😞")) = Ok r /\
    Chain.analyze Host.platform Host.analyzer
      (JString (Str.lit "Pas vraiment bon 😞")) = Ok (Embed.ofResult r).
Proof.
  apply (chain_agrees_on_plain_runs Host.platform Host.analyzer).
  repeat split; vm_compute; reflexivity.
Defined.

(** X29. The lexical analysis raises in one situation only: the text is a
    non-empty string, pattern data is configured, and some idiom of the
    lexicon is filed under the name of a member of [Object.prototype]; it
    then raises a [TypeError] whatever the text says. In every other
    case it returns a result, also when tokens of the text name such
    members. *)
Theorem raises_only_under_member_keyword (P : Platform)
    (a : SentimentAnalyzer.t) (v : JsValue) :
  let raising :=
    truthy v && isString v
    && (0 <? size (SentimentAnalyzer.idiomPatterns a))%nat
    && negb (Props.plainIdioms a) in
  (raising = true -> Chain.analyze P a v = Throw TypeError) /\
  (raising = false -> exists r, Chain.analyze P a v = Ok r).
Proof.
  cbv zeta. unfold Chain.analyze.
  destruct (truthy v) eqn:Ht, (isString v) eqn:Hs;
    cbn [negb orb andb]; try (split; [discriminate | eauto]).
  destruct v; try discriminate.
  pose proof (chain_accumulate_spec P a s) as H.
  destruct (_ && _).
  - rewrite H. split; [reflexivity | discriminate].
  - destruct H as [st ->]. cbn [mbind Exc_bind].
    split; [discriminate | eauto].
Qed.

(** ** Confidence *)

Section ChainTally.
Local Open Scope Q_scope.
Context (P : Platform) (a : SentimentAnalyzer.t).

Lemma tallied_initial : Props.tallied Chain.initial.
Proof. split; [reflexivity|]. vm_compute. reflexivity. Qed.

Lemma tallied_modifiers ms st :
  Props.tallied st -> Props.tallied (Chain.pushModifiers ms st).
Proof. intros H. exact H. Qed.

Lemma tallied_negation b d st :
  Props.tallied st -> Props.tallied (Chain.setNegation b d st).
Proof. intros H. exact H. Qed.

Lemma tallied_idiom st idiom :
  Props.tallied st -> Props.tallied (Chain.countIdiom st idiom).
Proof.
  intros [Hn Hc]. unfold Props.tallied, Props.evidenceCount in *.
  unfold Chain.countIdiom. cbn in *. rewrite length_app. cbn [length].
  split; [lia|]. rewrite Hc, Nat.add_1_r, ofNat_S. lra.
Qed.

Lemma tallied_emoji st emoji :
  Props.tallied st -> Props.tallied (Chain.countEmoji a st emoji).
Proof.
  intros [Hn Hc]. unfold Chain.countEmoji.
  destruct (Chain.get _ emoji) as [score|]; [|split; assumption].
  unfold Props.tallied, Props.evidenceCount in *.
  cbn in *. rewrite length_app. cbn [length].
  split; [lia|]. rewrite Hc, Nat.add_1_r, ofNat_S. lra.
Qed.

Lemma tallied_advance words i st :
  Props.tallied st -> Props.tallied (Chain.advanceNegation a words i st).
Proof.
  intros H. unfold Chain.advanceNegation.
  destruct (Chain.negationActive st); [|exact H].
  destruct (_ <? _)%nat; exact H.
Qed.

Lemma tallied_token words st i :
  Props.tallied st -> Props.tallied (Chain.scoreToken a words st i).
Proof.
  intros H. unfold Chain.scoreToken.
  destruct (Str.includes _ _); [exact H|].
  pose proof (tallied_advance words i st H) as H1.
  destruct (Chain.wordScoreOf a (nth i words [])) as [ws|]; [|exact H1].
  cbv zeta.
  set (st1 := Chain.pushModifiers _ (Chain.advanceNegation a words i st)).
  assert (H2 : Props.tallied st1) by exact H1.
  destruct H2 as [Hn Hc].
  unfold Props.tallied, Props.evidenceCount in *.
  cbn in *. rewrite length_app. cbn [length].
  split; [lia|]. rewrite Hc, Nat.add_1_r, ofNat_S. lra.
Qed.

Lemma chain_accumulate_tallied text st :
  Chain.accumulate P a text = Ok st -> Props.tallied st.
Proof.
  unfold Chain.accumulate. intros H. inv_bind H. injection H as <-.
  apply fold_left_invariant; [intros; apply tallied_token; assumption|].
  apply fold_left_invariant; [intros; apply tallied_emoji; assumption|].
  apply fold_left_invariant; [intros; apply tallied_idiom; assumption|].
  apply tallied_initial.
Qed.

Lemma round2_at_least_62 x : 0.625 <= x -> 0.62 <= Num.round2 x.
Proof.
  intros H. pose proof (round2_near x) as Hn.
  apply Qabs_Qle_condition in Hn. lra.
Qed.

End ChainTally.

(** X6. The confidence of a result is decided by how many idioms, emojis
    and words its details list, whatever their scores, also when a score
    is not a number: it is 0 when they list nothing; otherwise it is a
    multiple of 0.01 within 0.0051 of
    min(1, (0.8 i + 0.7 e + 0.5 w) / (0.8 (i + e + w))) for i idioms, e
    emojis and w words, hence at least 0.62 and at most 1. *)
Theorem confidence_from_evidence_counts (P : Platform)
    (a : SentimentAnalyzer.t) (v : JsValue) (r : Chain.Result.t) :
  Chain.analyze P a v = Ok r ->
  let d := Chain.Result.details r in
  let i := Num.ofNat (length (Chain.Details.idioms d)) in
  let e := Num.ofNat (length (Chain.Details.emojis d)) in
  let w := Num.ofNat (length (Chain.Details.words d)) in
  ((Props.evidenceCount d = 0%nat -> Chain.Result.confidence r == 0) /\
   ((0 < Props.evidenceCount d)%nat ->
    Spec.centesimal (Chain.Result.confidence r) /\
    Qabs (Chain.Result.confidence r
          - Qmin 1 ((0.8 * i + 0.7 * e + 0.5 * w) / (0.8 * (i + e + w))))
    <= 51 # 10000 /\
    0.62 <= Chain.Result.confidence r <= 1))%Q.
Proof.
  unfold Chain.analyze.
  assert (Hneutral :
            let d := Chain.Result.details Chain.neutralResult in
            (Props.evidenceCount d = 0%nat ->
             Chain.Result.confidence Chain.neutralResult == 0)%Q /\
            ((0 < Props.evidenceCount d)%nat -> False)).
  { split; [reflexivity | cbn; lia]. }
  destruct (negb (truthy v) || negb (isString v)).
  { intros H. injection H as <-. destruct Hneutral as [H0 H1].
    split; [exact H0 | intros H; destruct (H1 H)]. }
  destruct v; try (intros H; injection H as <-; destruct Hneutral as [H0 H1];
                   split; [exact H0 | intros H; destruct (H1 H)]).
  intros H. inv_bind H. injection H as <-.
  destruct (chain_accumulate_tallied P a _ _ Hx) as [Hn Hc].
  cbv zeta in Hn, Hc.
  unfold Chain.result. cbn [Chain.Result.details Chain.Result.confidence].
  unfold Chain.finalConfidence. rewrite Hn.
  unfold Props.evidenceCount in *.
  set (ni := length (Chain.Details.idioms (Chain.details x))) in *.
  set (ne := length (Chain.Details.emojis (Chain.details x))) in *.
  set (nw := length (Chain.Details.words (Chain.details x))) in *.
  split.
  - intros H0. rewrite H0. reflexivity.
  - intros Hpos. apply Nat.ltb_lt in Hpos as Hb. rewrite Hb.
    assert (Hsum : (Num.ofNat (ni + ne + nw)
                    == Num.ofNat ni + Num.ofNat ne + Num.ofNat nw)%Q).
    { unfold Num.ofNat. rewrite !Nat2Z.inj_add, !inject_Z_plus. reflexivity. }
    pose proof (ofNat_pos _ Hpos) as Hn0.
    pose proof (ofNat_nonneg ni) as Hi0.
    pose proof (ofNat_nonneg ne) as He0.
    pose proof (ofNat_nonneg nw) as Hw0.
    set (internal := Qmin 1 (Chain.confidence x
                             / (Num.ofNat (ni + ne + nw) * 0.8))%Q).
    assert (Hint :
              (internal
               == Qmin 1 ((0.8 * Num.ofNat ni + 0.7 * Num.ofNat ne
                           + 0.5 * Num.ofNat nw)
                          / (0.8 * (Num.ofNat ni + Num.ofNat ne
                                    + Num.ofNat nw))))%Q).
    { subst internal. rewrite Hc, Hsum.
      assert (E : ((Num.ofNat ni + Num.ofNat ne + Num.ofNat nw) * 0.8
                   == 0.8 * (Num.ofNat ni + Num.ofNat ne + Num.ofNat nw))%Q)
        by ring.
      rewrite E. reflexivity. }
    assert (Hlow : (0.625 <= internal <= 1)%Q).
    { subst internal. split; [|apply Q.le_min_l].
      apply Q.min_glb; [lra|].
      apply Qle_shift_div_l; [lra|]. rewrite Hc. rewrite Hsum. lra. }
    split; [apply round2_centesimal|]. split.
    + rewrite <- Hint.
      apply (Qle_trans _ (1 # 200)); [apply round2_near | discriminate].
    + split; [apply round2_at_least_62; tauto|].
      apply round2_unit. lra.
Qed.

Lemma confidence_from_evidence_counts_witness :
  exists r,
    Chain.analyze Host.platform Host.analyzer
      (JString (Str.lit "bon constructor 😀")) = Ok r /\
    (0.62 <= Chain.Result.confidence r <= 1)%Q.
Proof.
  assert (H : exists r,
             Chain.analyze Host.platform Host.analyzer
               (JString (Str.lit "bon constructor 😀")) = Ok r /\
             (0 < Props.evidenceCount (Chain.Result.details r))%nat).
  { eexists. split; [vm_compute; reflexivity|]. vm_compute. lia. }
  destruct H as (r & Hr & Hpos). exists r. split; [exact Hr|].
  apply (proj2 (confidence_from_evidence_counts _ _ _ _ Hr) Hpos).
Defined.


(** ** Plain runs *)

(** X5. On a run that reads no inherited member, the score of the result
    is traceable to its itemized evidence: it is a multiple of 0.01 within
    0.0051 of the mean of the idiom scores, the emoji scores and
    the context scores of the words listed in the details, and 0.5 when
    the details list no evidence. *)
Theorem score_is_mean_of_evidence (P : Platform) (a : SentimentAnalyzer.t)
    (text : jsstring) :
  Props.plain P a text ->
  exists r,
    Chain.analyze P a (JString text) = Ok (Embed.ofResult r) /\
    let scores := Props.evidenceScores (BaseResult.details r) in
    ((scores = [] -> BaseResult.score r == 0.5) /\
     (scores <> [] ->
      Spec.centesimal (BaseResult.score r) /\
      Qabs (BaseResult.score r
            - Props.total scores / Num.ofNat (length scores))
      <= 51 # 10000))%Q.
Proof.
  intros Hplain.
  destruct (analyze_total P a (JString text)) as [r Hr].
  exists r. split; [rewrite (analyze_own P a text Hplain), Hr; reflexivity|].
  revert Hr. unfold SentimentAnalyzer.analyze.
  destruct (negb (truthy (JString text)) || negb (isString (JString text))).
  { intros H. injection H as <-. simpl.
    split; [reflexivity | intros E; exfalso; apply E; reflexivity]. }
  intros H. inv_bind H. injection H as <-.
  apply accumulate_accounted in Hx. destruct Hx as (Hn & Ht & _).
  cbn [BaseResult.score BaseResult.details SentimentAnalyzer.result].
  cbv zeta. unfold SentimentAnalyzer.finalScore. rewrite Hn. split.
  - intros ->. reflexivity.
  - intros Hne.
    destruct (Props.evidenceScores (SentimentAnalyzer.details x))
      as [|y l] eqn:E; [congruence|].
    change (0 <? length (y :: l))%nat with true. cbv iota.
    split; [apply round2_centesimal|].
    rewrite <- Ht.
    apply (Qle_trans _ (1 # 200)); [apply round2_near | discriminate].
Qed.

Lemma score_is_mean_of_evidence_witness :
  exists r,
    Chain.analyze Host.platform Host.analyzer
      (JString (Str.lit "C'est très bon 😀 !")) = Ok (Embed.ofResult r) /\
    (Props.evidenceScores (BaseResult.details r) <> [] ->
     Spec.centesimal (BaseResult.score r)).
Proof.
  destruct (score_is_mean_of_evidence Host.platform Host.analyzer
              (Str.lit "C'est très bon 😀 !"))
    as (r & Hr & _ & H).
  - repeat split; vm_compute; reflexivity.
  - exists r. split; [exact Hr|]. intros Hne. apply (H Hne).
Defined.

(** X14. Whenever the idiom detection returns, an idiom that does not
    start with "être", "avoir", "se" or "faire" is among the idioms it
    reports at every token position where its words match the text, with
    no further condition; only the words that fit before the end of the
    text are compared, so the idiom is also reported when the text ends
    in the middle of it. *)
Theorem plain_idiom_detected_where_it_matches (a : SentimentAnalyzer.t)
    (text idiom : jsstring) (score : Q) (i : nat)
    (detected : list IdiomEvidence.t) :
  Chain._detectIdioms a text = Ok detected ->
  In (idiom, score) (SentimentAnalyzer.idioms a) ->
  SentimentAnalyzer.commonVerb (nth 0 (Str.words idiom) []) = false ->
  (i < length (Str.words text))%nat ->
  (forall j w, Str.words idiom !! j = Some w ->
               (i + j < length (Str.words text))%nat ->
               nth (i + j) (Str.words text) [] = w) ->
  In {| IdiomEvidence.phrase := idiom;
        IdiomEvidence.score := score;
        IdiomEvidence.position :=
          Some (i, (i + length (Str.words idiom) - 1)%nat) |}
     detected.
Proof.
  intros Hrun Hlex Hverb Hi Hmatch.
  rewrite _detectIdioms_spec in Hrun.
  destruct (Props.plainIdioms a); [|discriminate].
  destruct (plain_idiom_found a text idiom score i Hlex Hverb Hi Hmatch)
    as (detected' & Hrun' & Hin).
  rewrite Hrun in Hrun'. injection Hrun' as <-. exact Hin.
Qed.

Lemma plain_idiom_detected_where_it_matches_witness :
  exists detected,
    Chain._detectIdioms Host.analyzer (Str.lit "quel coup") = Ok detected /\
    In {| IdiomEvidence.phrase := Str.lit "coup de foudre";
          IdiomEvidence.score := 0.9%Q;
          IdiomEvidence.position := Some (1, 3)%nat |}
       detected.
Proof.
  assert (H : exists detected,
             Chain._detectIdioms Host.analyzer (Str.lit "quel coup")
             = Ok detected).
  { eexists. vm_compute. reflexivity. }
  destruct H as (detected & H). exists detected. split; [exact H|].
  apply (plain_idiom_detected_where_it_matches Host.analyzer
           (Str.lit "quel coup") (Str.lit "coup de foudre") 0.9%Q 1
           detected H).
  - right. left. reflexivity.
  - vm_compute. reflexivity.
  - vm_compute. lia.
  - intros j w Hj Hlt. change (length (Str.words (Str.lit "quel coup")))
      with 2%nat in Hlt.
    assert (j = 0%nat) as -> by lia.
    vm_compute in Hj. injection Hj as <-. reflexivity.
Defined.

(** X18. With a lexicon in which no own key exists, as with the fallback
    instance built when the dictionary file cannot be read, a text none
    of whose tokens and emojis names a member of [Object.prototype] gets
    the neutral outcome: score 0.5, label "neutre", confidence 0 and no
    evidence. (A token that names such a member gets [NaN] instead.) *)
Theorem empty_lexicon_is_neutral (P : Platform) (a : SentimentAnalyzer.t)
    (text : jsstring) :
  Props.emptyLexicon a ->
  Props.plainKeys (Str.words (SentimentAnalyzer.normalize P text)) = true ->
  Props.plainKeys (matchEmoji P text) = true ->
  exists r,
    Chain.analyze P a (JString text) = Ok r /\
    (exists q, Chain.Result.score r = Chain.Fin q /\ (q == 0.5)%Q) /\
    Chain.Result.sentiment r = Neutre /\
    (Chain.Result.confidence r == 0)%Q /\
    Chain.Result.details r = Chain.Details.empty.
Proof.
  intros Hempty Hwords Hemojis.
  assert (Hplain : Props.plain P a text).
  { split; [exact Hwords|]. split; [exact Hemojis|].
    destruct Hempty as (_ & _ & _ & _ & _ & Hpat & _).
    rewrite Hpat, map_size_empty. discriminate. }
  destruct (analyze_total P a (JString text)) as [b Hb].
  destruct (empty_analyze P a Hempty _ _ Hb) as (Hs & Hl & Hc & Hd).
  exists (Embed.ofResult b).
  split; [rewrite (analyze_own P a text Hplain), Hb; reflexivity|].
  split; [exists (BaseResult.score b); split; [reflexivity | exact Hs]|].
  split; [exact Hl|]. split; [exact Hc|].
  unfold Embed.ofResult. cbn [Chain.Result.details]. rewrite Hd. reflexivity.
Qed.

Lemma empty_lexicon_is_neutral_witness :
  exists r,
    Chain.analyze Host.platform Fallback.analyzer
      (JString (Str.lit "Ce produit est excellent 😀")) = Ok r /\
    Chain.Result.sentiment r = Neutre.
Proof.
  destruct (empty_lexicon_is_neutral Host.platform Fallback.analyzer
              (Str.lit "Ce produit est excellent 😀"))
    as (r & Hr & _ & Hl & _).
  - exact fallback_lexicon_empty.
  - vm_compute. reflexivity.
  - vm_compute. reflexivity.
  - exists r. split; assumption.
Defined.

(** X30. On a run that reads no inherited member, with every lexicon
    value in [[0,1]], the score and the confidence of the result are
    numbers in [[0,1]] and multiples of 0.01. *)
Theorem plain_scores_in_unit_interval (P : Platform)
    (a : SentimentAnalyzer.t) (text : jsstring) :
  Spec.lexiconInRange a ->
  Props.plain P a text ->
  exists r q,
    Chain.analyze P a (JString text) = Ok r /\
    Chain.Result.score r = Chain.Fin q /\
    (0 <= q <= 1)%Q /\ Spec.centesimal q /\
    (0 <= Chain.Result.confidence r <= 1)%Q /\
    Spec.centesimal (Chain.Result.confidence r).
Proof.
  intros Hrange Hplain.
  destruct (analyze_total P a (JString text)) as [b Hb].
  destruct (analyze_range P a Hrange _ _ Hb) as [Hs Hc].
  destruct (analyze_centesimal P a _ _ Hb) as [Hs2 Hc2].
  exists (Embed.ofResult b), (BaseResult.score b).
  split; [rewrite (analyze_own P a text Hplain), Hb; reflexivity|].
  split; [reflexivity|]. repeat split; tauto.
Qed.

Lemma plain_scores_in_unit_interval_witness :
  exists r q,
    Chain.analyze Host.platform Host.analyzer
      (JString (Str.lit "Ce n'est jamais bon, vraiment nul 😞")) = Ok r /\
    Chain.Result.score r = Chain.Fin q /\ (0 <= q <= 1)%Q.
Proof.
  destruct (plain_scores_in_unit_interval Host.platform Host.analyzer
              (Str.lit "Ce n'est jamais bon, vraiment nul 😞"))
    as (r & q & Hr & Hq & Hs & _).
  - exact host_lexicon_in_range.
  - repeat split; vm_compute; reflexivity.
  - exists r, q. repeat split; tauto.
Defined.
